(** * Verification of the directory-skeleton generator [ss.py]

    The script [ss.py] materialises a fixed tree of directories and empty
    files under the directory [wattschain-mlm-platform] of the current
    working directory.  This development embeds

    - the two functions of the script, [create_file] and
      [create_directory_structure], and its [__main__] block, written in a
      small state-and-exception monad so that they read like the Python;
    - the parts of the Python standard library the script calls
      ([os.path.join], [os.path.dirname], [os.path.split],
      [os.path.exists], [os.path.isdir], [os.makedirs], [open(..., 'w')]
      and [write]), following CPython's [posixpath.py] and [os.py];
    - a model of the POSIX file namespace the library calls act on: a
      finite map from resolved paths to nodes, a working directory, and a
      list of faults the environment may inject into system calls
      (permission denied, disk full, ...).

    Modelling choices, stated once:
    - paths are resolved lexically ([resolve]); symbolic links and
      permission bits are not modelled;
    - failures that do not follow from the namespace itself (permission
      denied, disk full, I/O error, ...) enter through the field [faults],
      a list the environment fixes in advance: every system call consumes
      its head, and fails with that error, without effect, when the head
      holds one;
    - [os.makedirs] recurses on ever shorter names; its embedding is a
      fixpoint on a fuel that [os_makedirs] sets to the length of the name,
      which is shown to suffice ([os_only_os_makedirs]);
    - the state carries two ghost fields, [calls] (the calls the script
      made to [os.makedirs] and [create_file], in order) and [out] (the
      lines printed);
    - Python's keyword default [content=""] becomes the explicit argument
      [default_content]; a [dict] literal becomes the list of its items in
      source order, the order in which [.items()] yields them. *)

From Stdlib Require Import Ascii String.
From stdpp Require Import gmap strings list fin_maps.

Local Open Scope string_scope.
Local Open Scope list_scope.

(** ** Python string operations used by [posixpath] *)

Module PyStr.

Definition sep : ascii := "/"%char.

Definition is_sep (c : ascii) : bool := Ascii.eqb c sep.

Definition nonempty (s : string) : bool :=
  match s with EmptyString => false | String _ _ => true end.

(** [p.rfind(sep) + 1]: the length of the prefix of [p] that ends with the
    last separator, [0] when [p] has none ([rfind] gives [-1]). *)
Fixpoint rfind_sep_succ (p : string) : nat :=
  match p with
  | EmptyString => 0
  | String c r =>
      match rfind_sep_succ r with
      | 0 => if is_sep c then 1 else 0
      | S n => S (S n)
      end
  end.

(** [p[:i]] *)
Fixpoint take (i : nat) (p : string) : string :=
  match i, p with
  | S i', String c r => String c (take i' r)
  | _, _ => EmptyString
  end.

(** [p[i:]] *)
Fixpoint drop (i : nat) (p : string) : string :=
  match i, p with
  | S i', String _ r => drop i' r
  | _, _ => p
  end.

(** [s == sep * len(s)] *)
Fixpoint all_sep (s : string) : bool :=
  match s with
  | EmptyString => true
  | String c r => is_sep c && all_sep r
  end.

(** [s.rstrip(sep)] *)
Fixpoint rstrip_sep (s : string) : string :=
  match s with
  | EmptyString => EmptyString
  | String c r =>
      match rstrip_sep r with
      | EmptyString => if is_sep c then EmptyString else String c EmptyString
      | r' => String c r'
      end
  end.

(** [s.startswith(sep)] *)
Definition startswith_sep (s : string) : bool :=
  match s with String c _ => is_sep c | EmptyString => false end.

(** [s.endswith(sep)] *)
Fixpoint endswith_sep (s : string) : bool :=
  match s with
  | EmptyString => false
  | String c EmptyString => is_sep c
  | String _ r => endswith_sep r
  end.

(** [s.split(sep)]: the components between separators; never empty. *)
Fixpoint split_sep (s : string) : list string :=
  match s with
  | EmptyString => [EmptyString]
  | String c r =>
      if is_sep c then EmptyString :: split_sep r
      else match split_sep r with
           | x :: xs => String c x :: xs
           | [] => [String c EmptyString]
           end
  end.

End PyStr.

(** ** [posixpath]: [join], [split], [dirname] *)

(** [os.path.join(a, b)] for two arguments. *)
Definition os_path_join (a b : string) : string :=
  if PyStr.startswith_sep b then b
  else if negb (PyStr.nonempty a) || PyStr.endswith_sep a then a +:+ b
  else a +:+ "/" +:+ b.

(** [os.path.split(p)] *)
Definition os_path_split (p : string) : string * string :=
  let i := PyStr.rfind_sep_succ p in
  let head := PyStr.take i p in
  let tail := PyStr.drop i p in
  let head :=
    if PyStr.nonempty head && negb (PyStr.all_sep head)
    then PyStr.rstrip_sep head else head in
  (head, tail).

(** [os.path.dirname(p)] *)
Definition os_path_dirname (p : string) : string :=
  let i := PyStr.rfind_sep_succ p in
  let head := PyStr.take i p in
  if PyStr.nonempty head && negb (PyStr.all_sep head)
  then PyStr.rstrip_sep head else head.

Example os_path_split_ex :
  os_path_split "a/b/c" = ("a/b", "c") ∧ os_path_split "/a" = ("/", "a")
  ∧ os_path_split "a//" = ("a", "") ∧ os_path_split "//" = ("//", "")
  ∧ os_path_split "c" = ("", "c") ∧ os_path_split "" = ("", "").
Proof. repeat split. Qed.

Example os_path_dirname_ex :
  os_path_dirname "wattschain-mlm-platform/README.md"
  = "wattschain-mlm-platform"
  ∧ os_path_dirname "README.md" = "" ∧ os_path_dirname "/x" = "/".
Proof. repeat split. Qed.

Example os_path_join_ex :
  os_path_join "a" "b/c" = "a/b/c" ∧ os_path_join "a/" "b" = "a/b"
  ∧ os_path_join "a" "/b" = "/b" ∧ os_path_join "" "b" = "b".
Proof. repeat split. Qed.

(** ** The file namespace *)

Inductive node : Type :=
| Dir
| File (content : string).

Inductive errno : Type :=
| ENOENT | EEXIST | ENOTDIR | EISDIR | EACCES | ENOSPC | EROFS | EIO
| ENAMETOOLONG | EBADF.

(** Python exceptions: [OSError] with its [errno] ([FileExistsError] is
    [OSError EEXIST], [FileNotFoundError] is [OSError ENOENT], ...), and
    the exhaustion of the fuel of [makedirs_rec]. *)
Inductive exn : Type :=
| OSError (e : errno)
| RecursionError.

(** The calls the script itself makes, as recorded in the ghost field
    [calls]. *)
Inductive event : Type :=
| EvMakedirs (name : string)
| EvCreateFile (path content : string).

Record state : Type := State {
  fs : gmap (list string) node;      (* resolved path |-> node *)
  cwd : list string;                 (* the working directory *)
  faults : list (option errno);      (* faults the environment will inject *)
  calls : list event;                (* ghost: calls made by the script *)
  out : list string                  (* ghost: lines printed *)
}.

Definition set_fs (m : gmap (list string) node) (s : state) : state :=
  State m (cwd s) (faults s) (calls s) (out s).
Definition set_faults (fl : list (option errno)) (s : state) : state :=
  State (fs s) (cwd s) fl (calls s) (out s).
Definition add_call (e : event) (s : state) : state :=
  State (fs s) (cwd s) (faults s) (calls s ++ [e]) (out s).
Definition add_out (l : string) (s : state) : state :=
  State (fs s) (cwd s) (faults s) (calls s) (out s ++ [l]).

(** The root of the namespace is a directory whatever the map says. *)
Definition fs_lookup (m : gmap (list string) node) (k : list string)
  : option node :=
  match k with
  | [] => Some Dir
  | _ => m !! k
  end.

Definition parent (k : list string) : list string := removelast k.

(** One step of path resolution. *)
Definition step (cur : list string) (c : string) : list string :=
  if String.eqb c "" then cur
  else if String.eqb c "." then cur
  else if String.eqb c ".." then parent cur
  else cur ++ [c].

Definition resolve (wd : list string) (p : string) : list string :=
  foldl step (if PyStr.startswith_sep p then [] else wd) (PyStr.split_sep p).

(** Well-formed namespaces: every entry lives in a directory. *)
Definition wf (m : gmap (list string) node) : Prop :=
  map_Forall (λ k _, fs_lookup m (parent k) = Some Dir) m.

(** ** The monad: state, and exceptions that keep the state *)

Inductive outcome (A : Type) : Type :=
| Ok (a : A)
| Raise (e : exn).
Arguments Ok {A} a.
Arguments Raise {A} e.

Definition M (A : Type) : Type := state → outcome A * state.

Definition ret {A} (a : A) : M A := λ s, (Ok a, s).
Definition raise {A} (e : exn) : M A := λ s, (Raise e, s).
Definition bind {A B} (m : M A) (f : A → M B) : M B :=
  λ s, match m s with
       | (Ok a, s') => f a s'
       | (Raise e, s') => (Raise e, s')
       end.
(** [try: m  except <exn> as e: h e] *)
Definition catch {A} (m : M A) (h : exn → M A) : M A :=
  λ s, match m s with
       | (Ok a, s') => (Ok a, s')
       | (Raise e, s') => h e s'
       end.

Notation "x <- m ;; k" := (bind m (λ x, k))
  (at level 100, m at next level, right associativity).
Notation "m ;; k" := (bind m (λ _, k))
  (at level 100, right associativity).

(** [for x in xs: body x] *)
Fixpoint for_ {A} (xs : list A) (body : A → M unit) : M unit :=
  match xs with
  | [] => ret tt
  | x :: xs' => body x ;; for_ xs' body
  end.

Definition is_OSError (e : exn) : bool :=
  match e with OSError _ => true | RecursionError => false end.
Definition is_FileExistsError (e : exn) : bool :=
  match e with OSError EEXIST => true | _ => false end.

(** ** System calls *)

(** Every system call first asks the environment whether it fails: the
    head of [faults] is consumed; [Some e] makes the call fail with [e],
    [None] or an exhausted list lets it proceed. *)
Definition pop_fault : M unit :=
  λ s, match faults s with
       | Some e :: fl => (Raise (OSError e), set_faults fl s)
       | None :: fl => (Ok tt, set_faults fl s)
       | [] => (Ok tt, s)
       end.

Definition sys_stat (path : string) : M node :=
  pop_fault ;;
  λ s, if negb (PyStr.nonempty path) then (Raise (OSError ENOENT), s)
       else match fs_lookup (fs s) (resolve (cwd s) path) with
            | Some n => (Ok n, s)
            | None => (Raise (OSError ENOENT), s)
            end.

(** What the parent directory of a new entry must be. *)
Definition check_parent (m : gmap (list string) node) (k : list string)
  : option errno :=
  match fs_lookup m (parent k) with
  | Some Dir => None
  | Some (File _) => Some ENOTDIR
  | None => Some ENOENT
  end.

(** [os.mkdir(path)] *)
Definition os_mkdir (path : string) : M unit :=
  pop_fault ;;
  λ s, if negb (PyStr.nonempty path) then (Raise (OSError ENOENT), s)
       else
         let k := resolve (cwd s) path in
         match check_parent (fs s) k with
         | Some e => (Raise (OSError e), s)
         | None =>
             match fs_lookup (fs s) k with
             | Some _ => (Raise (OSError EEXIST), s)
             | None => (Ok tt, set_fs (<[k := Dir]> (fs s)) s)
             end
         end.

(** [open(path, 'w')]: create or truncate; the handle is the resolved path. *)
Definition open_w (path : string) : M (list string) :=
  pop_fault ;;
  λ s, if negb (PyStr.nonempty path) then (Raise (OSError ENOENT), s)
       else if PyStr.endswith_sep path then (Raise (OSError EISDIR), s)
       else
         let k := resolve (cwd s) path in
         match check_parent (fs s) k with
         | Some e => (Raise (OSError e), s)
         | None =>
             match fs_lookup (fs s) k with
             | Some Dir => (Raise (OSError EISDIR), s)
             | _ => (Ok k, set_fs (<[k := File ""]> (fs s)) s)
             end
         end.

(** [f.write(content)], flushed when the [with] block closes [f]. *)
Definition file_write (f : list string) (content : string) : M unit :=
  pop_fault ;;
  λ s, match fs s !! f with
       | Some (File c) => (Ok tt, set_fs (<[f := File (c +:+ content)]> (fs s)) s)
       | _ => (Raise (OSError EBADF), s)
       end.

(** [print(line)] *)
Definition print (line : string) : M unit := λ s, (Ok tt, add_out line s).

(** ** [os.path.exists], [os.path.isdir], [os.makedirs] *)

(** [os.path.exists(path)]: [os.stat] succeeded. *)
Definition os_path_exists (path : string) : M bool :=
  catch (sys_stat path ;; ret true)
        (λ e, if is_OSError e then ret false else raise e).

(** [os.path.isdir(path)] *)
Definition os_path_isdir (path : string) : M bool :=
  catch (n <- sys_stat path ;;
         ret (match n with Dir => true | File _ => false end))
        (λ e, if is_OSError e then ret false else raise e).

(** The body of [os.makedirs(name, exist_ok=exist_ok)]; [fuel] bounds the
    depth of the recursion on [head]. *)
Fixpoint makedirs_rec (fuel : nat) (name : string) (exist_ok : bool)
  : M unit :=
  match fuel with
  | 0 => raise RecursionError
  | S fuel' =>
      let '(head, tail) := os_path_split name in
      let '(head, tail) :=
        if negb (PyStr.nonempty tail) then os_path_split head
        else (head, tail) in
      early <-
        (if PyStr.nonempty head && PyStr.nonempty tail then
           ex <- os_path_exists head ;;
           if negb ex then
             catch (makedirs_rec fuel' head exist_ok)
                   (λ e, if is_FileExistsError e then ret tt else raise e) ;;
             (* xxx/newdir/. exists if xxx/newdir exists *)
             ret (String.eqb tail ".")
           else ret false
         else ret false) ;;
      if early : bool then ret tt
      else
        catch (os_mkdir name)
              (λ e, if is_OSError e then
                      if negb exist_ok then raise e
                      else
                        d <- os_path_isdir name ;;
                        if negb d then raise e else ret tt
                    else raise e)
  end.

(** Ghost: record a call. *)
Abbreviation log_call e := (λ s : state, (Ok tt, add_call e s)).

(** [os.makedirs(name, exist_ok=exist_ok)] as the script calls it. *)
Definition os_makedirs (name : string) (exist_ok : bool) : M unit :=
  log_call (EvMakedirs name) ;;
  makedirs_rec (S (String.length name)) name exist_ok.

(** ** The script *)

(** [create_file(path, content="")] *)
Definition create_file (path : string) (content : string) : M unit :=
  log_call (EvCreateFile path content) ;;
  (* Ensure the directory exists before creating the file *)
  os_makedirs (os_path_dirname path) true ;;
  f <- open_w path ;;
  file_write f content.

(** The default of [create_file]'s [content] argument. *)
Definition default_content : string := "".

(** The literal tables of [create_directory_structure]. *)

Definition root_files : list string :=
  [ "README.md";
    "package.json";
    "next.config.js";
    "tailwind.config.ts";
    "postcss.config.js";
    ".env.local";
    ".env.example";
    ".gitignore";
    "tsconfig.json";
    "components.json";
    "middleware.ts";
    "docker-compose.yml" ].

Definition public_dirs : list string :=
  [ "public/images/payment-methods";
    "public/locales/en";
    "public/locales/sw" ].

Definition public_files : list (string * string) :=
  [ ("public/favicon.ico", "");
    ("public/logo.png", "");
    ("public/wattschain-logo.svg", "");
    ("public/images/kyc-verification.png", "");
    ("public/images/token-icon.png", "");
    ("public/locales/en/common.json", "");
    ("public/locales/sw/common.json", "") ].

Definition src_dirs : list string :=
  [ "src/app/(marketing)/about";
    "src/app/(marketing)/whitepaper";
    "src/app/(marketing)/legal/[type]";
    "src/app/(marketing)/contact";
    "src/app/(auth)/login";
    "src/app/(auth)/register";
    "src/app/(auth)/forgot-password";
    "src/app/(auth)/verify-email";
    "src/app/(auth)/invite/[code]";
    "src/app/(dashboard)/dashboard";
    "src/app/(dashboard)/profile";
    "src/app/(dashboard)/wallet";
    "src/app/(dashboard)/transactions";
    "src/app/(dashboard)/token-purchase/checkout";
    "src/app/(dashboard)/token-purchase/payment/[ivisethod]";
    "src/app/(dashboard)/token-purchase/success";
    "src/app/(dashboard)/affiliate/tree";
    "src/app/(dashboard)/affiliate/commissions";
    "src/app/(dashboard)/affiliate/referrals";
    "src/app/(dashboard)/affiliate/withdraw";
    "src/app/(dashboard)/kyc/verification";
    "src/app/(dashboard)/kyc/status";
    "src/app/(dashboard)/support/tickets";
    "src/app/(dashboard)/support/faq";
    "src/app/(admin)/admin/users";
    "src/app/(admin)/admin/mlm/tree-audit";
    "src/app/(admin)/admin/mlm/commissions";
    "src/app/(admin)/admin/mlm/settings";
    "src/app/(admin)/admin/transactions";
    "src/app/(admin)/admin/kyc-reviews";
    "src/app/(admin)/admin/token-pricing";
    "src/app/(admin)/admin/reports";
    "src/app/api/auth";
    "src/app/api/user";
    "src/app/api/token";
    "src/app/api/payment/mpesa/[action]";
    "src/app/api/payment/crypto/[action]";
    "src/app/api/payment/stripe/[action]";
    "src/app/api/mlm";
    "src/app/api/kyc";
    "src/app/api/admin";
    "src/app/api/webhooks/payment/[provider]";
    "src/app/api/webhooks/kyc";
    "src/components/ui";
    "src/components/layout";
    "src/components/auth";
    "src/components/dashboard";
    "src/components/token";
    "src/components/mlm";
    "src/components/kyc";
    "src/components/admin";
    "src/components/payments";
    "src/components/common";
    "src/lib";
    "src/types";
    "src/models";
    "src/hooks";
    "src/context";
    "src/store";
    "src/middleware" ].

Definition src_files : list (string * string) :=
  [ ("src/app/globals.css", "");
    ("src/app/layout.tsx", "");
    ("src/app/page.tsx", "");
    ("src/app/loading.tsx", "");
    ("src/app/error.tsx", "");
    ("src/app/not-found.tsx", "");
    ("src/app/(marketing)/layout.tsx", "");
    ("src/app/(marketing)/about/page.tsx", "");
    ("src/app/(marketing)/whitepaper/page.tsx", "");
    ("src/app/(marketing)/legal/[type]/page.tsx", "");
    ("src/app/(marketing)/contact/page.tsx", "");
    ("src/app/(auth)/layout.tsx", "");
    ("src/app/(auth)/login/page.tsx", "");
    ("src/app/(auth)/register/page.tsx", "");
    ("src/app/(auth)/forgot-password/page.tsx", "");
    ("src/app/(auth)/verify-email/page.tsx", "");
    ("src/app/(auth)/invite/[code]/page.tsx", "");
    ("src/app/(dashboard)/layout.tsx", "");
    ("src/app/(dashboard)/dashboard/page.tsx", "");
    ("src/app/(dashboard)/profile/page.tsx", "");
    ("src/app/(dashboard)/wallet/page.tsx", "");
    ("src/app/(dashboard)/transactions/page.tsx", "");
    ("src/app/(dashboard)/token-purchase/page.tsx", "");
    ("src/app/(dashboard)/token-purchase/checkout/page.tsx", "");
    ("src/app/(dashboard)/token-purchase/payment/[method]/page.tsx", "");
    ("src/app/(dashboard)/token-purchase/success/page.tsx", "");
    ("src/app/(dashboard)/affiliate/page.tsx", "");
    ("src/app/(dashboard)/affiliate/tree/page.tsx", "");
    ("src/app/(dashboard)/affiliate/commissions/page.tsx", "");
    ("src/app/(dashboard)/affiliate/referrals/page.tsx", "");
    ("src/app/(dashboard)/affiliate/withdraw/page.tsx", "");
    ("src/app/(dashboard)/kyc/page.tsx", "");
    ("src/app/(dashboard)/kyc/verification/page.tsx", "");
    ("src/app/(dashboard)/kyc/status/page.tsx", "");
    ("src/app/(dashboard)/support/page.tsx", "");
    ("src/app/(dashboard)/support/tickets/page.tsx", "");
    ("src/app/(dashboard)/support/faq/page.tsx", "");
    ("src/app/(admin)/layout.tsx", "");
    ("src/app/(admin)/admin/page.tsx", "");
    ("src/app/(admin)/admin/users/page.tsx", "");
    ("src/app/(admin)/admin/mlm/page.tsx", "");
    ("src/app/(admin)/admin/mlm/tree-audit/page.tsx", "");
    ("src/app/(admin)/admin/mlm/commissions/page.tsx", "");
    ("src/app/(admin)/admin/mlm/settings/page.tsx", "");
    ("src/app/(admin)/admin/transactions/page.tsx", "");
    ("src/app/(admin)/admin/kyc-reviews/page.tsx", "");
    ("src/app/(admin)/admin/token-pricing/page.tsx", "");
    ("src/app/(admin)/admin/reports/page.tsx", "");
    ("src/app/api/auth/login/route.ts", "");
    ("src/app/api/auth/register/route.ts", "");
    ("src/app/api/auth/logout/route.ts", "");
    ("src/app/api/auth/verify-email/route.ts", "");
    ("src/app/api/user/profile/route.ts", "");
    ("src/app/api/user/wallet/route.ts", "");
    ("src/app/api/user/transactions/route.ts", "");
    ("src/app/api/token/purchase/route.ts", "");
    ("src/app/api/token/price/route.ts", "");
    ("src/app/api/token/balance/route.ts", "");
    ("src/app/api/payment/mpesa/[action]/route.ts", "");
    ("src/app/api/payment/crypto/[action]/route.ts", "");
    ("src/app/api/payment/stripe/[action]/route.ts", "");
    ("src/app/api/mlm/tree/route.ts", "");
    ("src/app/api/mlm/commissions/route.ts", "");
    ("src/app/api/mlm/referrals/route.ts", "");
    ("src/app/api/mlm/withdraw/route.ts", "");
    ("src/app/api/mlm/validate-referral/route.ts", "");
    ("src/app/api/kyc/submit/route.ts", "");
    ("src/app/api/kyc/status/route.ts", "");
    ("src/app/api/kyc/shuftipro-webhook/route.ts", "");
    ("src/app/api/admin/users/route.ts", "");
    ("src/app/api/admin/mlm/[action]/route.ts", "");
    ("src/app/api/admin/transactions/route.ts", "");
    ("src/app/api/admin/kyc-reviews/route.ts", "");
    ("src/app/api/admin/token-pricing/route.ts", "");
    ("src/app/api/admin/reports/route.ts", "");
    ("src/app/api/webhooks/payment/[provider]/route.ts", "");
    ("src/app/api/webhooks/kyc/shuftipro/route.ts", "");
    ("src/components/ui/button.tsx", "");
    ("src/components/ui/input.tsx", "");
    ("src/components/ui/card.tsx", "");
    ("src/components/ui/dialog.tsx", "");
    ("src/components/ui/table.tsx", "");
    ("src/components/ui/badge.tsx", "");
    ("src/components/ui/alert.tsx", "");
    ("src/components/ui/toast.tsx", "");
    ("src/components/ui/select.tsx", "");
    ("src/components/ui/textarea.tsx", "");
    ("src/components/ui/spinner.tsx", "");
    ("src/components/layout/Header.tsx", "");
    ("src/components/layout/Footer.tsx", "");
    ("src/components/layout/Sidebar.tsx", "");
    ("src/components/layout/DashboardLayout.tsx", "");
    ("src/components/auth/LoginForm.tsx", "");
    ("src/components/auth/RegisterForm.tsx", "");
    ("src/components/auth/ProtectedRoute.tsx", "");
    ("src/components/auth/KYCStatus.tsx", "");
    ("src/components/dashboard/DashboardStats.tsx", "");
    ("src/components/dashboard/WalletBalance.tsx", "");
    ("src/components/dashboard/RecentTransactions.tsx", "");
    ("src/components/token/TokenPurchaseForm.tsx", "");
    ("src/components/token/PresalePricing.tsx", "");
    ("src/components/token/PaymentMethods.tsx", "");
    ("src/components/mlm/ReferralTree.tsx", "");
    ("src/components/mlm/CommissionTracker.tsx", "");
    ("src/components/mlm/ReferralLink.tsx", "");
    ("src/components/mlm/WithdrawForm.tsx", "");
    ("src/components/mlm/LockPeriodDisplay.tsx", "");
    ("src/components/kyc/KYCForm.tsx", "");
    ("src/components/kyc/DocumentUpload.tsx", "");
    ("src/components/kyc/VerificationStatus.tsx", "");
    ("src/components/admin/UserManagement.tsx", "");
    ("src/components/admin/MLMTreeViewer.tsx", "");
    ("src/components/admin/CommissionManager.tsx", "");
    ("src/components/admin/KYCReviewPanel.tsx", "");
    ("src/components/admin/PresalePricingManager.tsx", "");
    ("src/components/admin/TransactionMonitor.tsx", "");
    ("src/components/payments/MPesaPayment.tsx", "");
    ("src/components/payments/CryptoPayment.tsx", "");
    ("src/components/payments/StripePayment.tsx", "");
    ("src/components/common/DataTable.tsx", "");
    ("src/components/common/LoadingSpinner.tsx", "");
    ("src/components/common/ErrorBoundary.tsx", "");
    ("src/lib/utils.ts", "");
    ("src/lib/constants.ts", "");
    ("src/lib/validations.ts", "");
    ("src/lib/auth.ts", "");
    ("src/lib/database.ts", "");
    ("src/lib/payments.ts", "");
    ("src/lib/kyc.ts", "");
    ("src/lib/mlm.ts", "");
    ("src/lib/email.ts", "");
    ("src/lib/presale-pricing.ts", "");
    ("src/types/index.ts", "");
    ("src/types/auth.ts", "");
    ("src/types/user.ts", "");
    ("src/types/transaction.ts", "");
    ("src/types/mlm.ts", "");
    ("src/types/kyc.ts", "");
    ("src/types/payment.ts", "");
    ("src/types/presale.ts", "");
    ("src/models/User.ts", "");
    ("src/models/Transaction.ts", "");
    ("src/models/MLMTree.ts", "");
    ("src/models/Commission.ts", "");
    ("src/models/KYC.ts", "");
    ("src/models/Token.ts", "");
    ("src/models/Wallet.ts", "");
    ("src/models/Payment.ts", "");
    ("src/models/PresaleRound.ts", "");
    ("src/hooks/useAuth.ts", "");
    ("src/hooks/useUser.ts", "");
    ("src/hooks/useMLM.ts", "");
    ("src/hooks/useTransactions.ts", "");
    ("src/hooks/useKYC.ts", "");
    ("src/hooks/usePayments.ts", "");
    ("src/hooks/usePresalePricing.ts", "");
    ("src/context/AuthContext.tsx", "");
    ("src/context/UserContext.tsx", "");
    ("src/context/MLMContext.tsx", "");
    ("src/store/authStore.ts", "");
    ("src/store/userStore.ts", "");
    ("src/store/mlmStore.ts", "");
    ("src/middleware/auth.ts", "");
    ("src/middleware/admin.ts", "");
    ("src/middleware/rateLimit.ts", "") ].

Definition docs_files : list string :=
  [ "docs/API.md";
    "docs/MLM_LOGIC.md";
    "docs/PRESALE_ROUNDS.md" ].

Definition test_dirs : list string :=
  [ "tests/components";
    "tests/api";
    "tests/lib" ].

Definition base_dir : string := "wattschain-mlm-platform".

(** [create_directory_structure()] *)
Definition create_directory_structure : M unit :=
  os_makedirs base_dir true ;;
  (* Root files *)
  for_ root_files (λ file,
    create_file (os_path_join base_dir file) default_content) ;;
  (* Public directory structure *)
  for_ public_dirs (λ dir_path,
    os_makedirs (os_path_join base_dir dir_path) true) ;;
  for_ public_files (λ '(file_path, content),
    create_file (os_path_join base_dir file_path) content) ;;
  (* Src directory structure *)
  for_ src_dirs (λ dir_path,
    os_makedirs (os_path_join base_dir dir_path) true) ;;
  for_ src_files (λ '(file_path, content),
    create_file (os_path_join base_dir file_path) content) ;;
  (* Data directory *)
  os_makedirs (os_path_join base_dir "data") true ;;
  create_file (os_path_join base_dir "data/presale-pricing.json") "" ;;
  (* Docs directory *)
  for_ docs_files (λ file,
    create_file (os_path_join base_dir file) default_content) ;;
  (* Tests directory *)
  for_ test_dirs (λ dir_path,
    os_makedirs (os_path_join base_dir dir_path) true).

Definition success_message : string :=
  "Directory structure created successfully!".

(** The [if __name__ == "__main__":] block. *)
Definition main : M unit :=
  create_directory_structure ;;
  print success_message.

(** The empty namespace, seen from its root, without faults. *)
Definition init_state : state := State ∅ [] [] [] [].

(** The calls of [create_directory_structure], as data. *)
Inductive call : Type :=
| Makedirs (name : string)
| CreateFile (path content : string).

Definition do_call (c : call) : M unit :=
  match c with
  | Makedirs name => os_makedirs name true
  | CreateFile path content => create_file path content
  end.

(** The scenario of a root [demo], a directory [a/b] and a file
    [a/b/c.txt] holding [hello]. *)
Example demo_scenario :
  let s := snd (for_ [ Makedirs "demo"; Makedirs "demo/a/b";
                       CreateFile "demo/a/b/c.txt" "hello" ]
                     do_call init_state) in
  fs s !! ["demo"; "a"; "b"; "c.txt"] = Some (File "hello")
  ∧ fs s !! ["demo"; "a"; "b"] = Some Dir
  ∧ fs s !! ["demo"; "a"] = Some Dir
  ∧ fs s !! ["demo"] = Some Dir.
Proof. vm_compute. repeat split. Qed.

(** What a call appends to the ghost field [calls] when it runs to its
    end: [create_file] calls [os.makedirs] on the directory part. *)
Definition events_of (c : call) : list event :=
  match c with
  | Makedirs name => [EvMakedirs name]
  | CreateFile path content =>
      [EvCreateFile path content; EvMakedirs (os_path_dirname path)]
  end.

(** The sections of [create_directory_structure] in source order. *)
Definition root_section : list call :=
  Makedirs base_dir
  :: map (λ file, CreateFile (os_path_join base_dir file) default_content)
         root_files.
Definition public_section : list call :=
  map (λ d, Makedirs (os_path_join base_dir d)) public_dirs
  ++ map (λ '(f, c), CreateFile (os_path_join base_dir f) c) public_files.
Definition src_section : list call :=
  map (λ d, Makedirs (os_path_join base_dir d)) src_dirs
  ++ map (λ '(f, c), CreateFile (os_path_join base_dir f) c) src_files.
Definition data_section : list call :=
  [ Makedirs (os_path_join base_dir "data");
    CreateFile (os_path_join base_dir "data/presale-pricing.json") "" ].
Definition docs_section : list call :=
  map (λ file, CreateFile (os_path_join base_dir file) default_content)
      docs_files.
Definition tests_section : list call :=
  map (λ d, Makedirs (os_path_join base_dir d)) test_dirs.

Definition plan : list call :=
  root_section ++ public_section ++ src_section ++ data_section
  ++ docs_section ++ tests_section.

(** * Reasoning principles for the monad *)

Lemma bind_Ok {A B} (m : M A) (f : A → M B) s b s' :
  bind m f s = (Ok b, s') →
  ∃ a s1, m s = (Ok a, s1) ∧ f a s1 = (Ok b, s').
Proof.
  unfold bind. destruct (m s) as [[a|e] s1]; [eauto | discriminate].
Qed.

Lemma bind_Raise {A B} (m : M A) (f : A → M B) s e s' :
  bind m f s = (Raise e, s') →
  m s = (Raise e, s') ∨ ∃ a s1, m s = (Ok a, s1) ∧ f a s1 = (Raise e, s').
Proof.
  unfold bind. destruct (m s) as [[a|e1] s1]; [eauto | intros [= -> ->]; eauto].
Qed.

Lemma bind_ext {A B} (m1 m2 : M A) (f1 f2 : A → M B) s :
  m1 s = m2 s → (∀ a s1, f1 a s1 = f2 a s1) → bind m1 f1 s = bind m2 f2 s.
Proof.
  intros Hm Hf. unfold bind. rewrite Hm. destruct (m2 s) as [[a|e] s1]; auto.
Qed.

Lemma bind_assoc {A B C} (m : M A) (f : A → M B) (g : B → M C) s :
  bind (bind m f) g s = bind m (λ a, bind (f a) g) s.
Proof. unfold bind. destruct (m s) as [[a|e] s1]; reflexivity. Qed.

Lemma for_app {A} (l1 l2 : list A) (body : A → M unit) s :
  for_ (l1 ++ l2) body s = (for_ l1 body ;; for_ l2 body) s.
Proof.
  revert s. induction l1 as [|x l1 IH]; intros s; simpl.
  - reflexivity.
  - rewrite bind_assoc. apply bind_ext; [reflexivity | intros _ s1; apply IH].
Qed.

Lemma for_map {A B} (f : A → B) (l : list A) (body : B → M unit) s :
  for_ (map f l) body s = for_ l (λ x, body (f x)) s.
Proof.
  revert s. induction l as [|x l IH]; intros s; simpl; [reflexivity|].
  apply bind_ext; [reflexivity | intros _ s1; apply IH].
Qed.

Lemma for_ext {A} (l : list A) (b1 b2 : A → M unit) s :
  (∀ x s1, b1 x s1 = b2 x s1) → for_ l b1 s = for_ l b2 s.
Proof.
  intros Hb. revert s. induction l as [|x l IH]; intros s; simpl; [reflexivity|].
  apply bind_ext; [apply Hb | intros _ s1; apply IH].
Qed.

(** A loop that raises did so at one element, after the elements before it
    had succeeded; the elements after it were not run. *)
Lemma for_Raise {A} (l : list A) (body : A → M unit) s e s' :
  for_ l body s = (Raise e, s') →
  ∃ l1 x l2 s1, l = l1 ++ x :: l2 ∧ for_ l1 body s = (Ok tt, s1)
                ∧ body x s1 = (Raise e, s').
Proof.
  revert s. induction l as [|x l IH]; intros s; simpl.
  - discriminate.
  - intros H. apply bind_Raise in H as [H | (a & s1 & H1 & H2)].
    + exists [], x, l, s. auto.
    + destruct (IH _ H2) as (l1 & y & l2 & s2 & -> & Hl1 & Hy).
      exists (x :: l1), y, l2, s2. split; [reflexivity|]. split; [|exact Hy].
      simpl. unfold bind. rewrite H1. destruct a. exact Hl1.
Qed.

(** The script is the loop over its [plan]. *)
Lemma create_directory_structure_plan s :
  create_directory_structure s = for_ plan do_call s.
Proof.
  unfold create_directory_structure, plan, root_section, public_section,
    src_section, data_section, docs_section, tests_section.
  rewrite <- !app_assoc. cbn [app for_].
  apply bind_ext; [reflexivity | intros _ s1].
  repeat first
    [ rewrite for_app;
      apply bind_ext;
      [rewrite for_map; apply for_ext; try intros [??]; reflexivity
      | intros _ ?]
    | match goal with
      | |- _ = for_ (_ :: _) _ _ => cbn [app for_]
      | |- _ = bind (do_call _) _ _ => idtac
      end;
      apply bind_ext; [reflexivity | intros _ ?] ].
  rewrite for_map. apply for_ext. reflexivity.
Qed.

(** ** Relations every run preserves *)

Section Preserve.
Context (R : relation state) `{!PreOrder R}.

Definition preserves {A} (m : M A) : Prop :=
  ∀ s r s', m s = (r, s') → R s s'.

Lemma preserves_ret {A} (a : A) : preserves (ret a).
Proof. intros s r s' [= _ <-]. reflexivity. Qed.

Lemma preserves_raise {A} e : preserves (@raise A e).
Proof. intros s r s' [= _ <-]. reflexivity. Qed.

Lemma preserves_bind {A B} (m : M A) (f : A → M B) :
  preserves m → (∀ a, preserves (f a)) → preserves (bind m f).
Proof.
  intros Hm Hf s r s'. unfold bind.
  destruct (m s) as [[a|e] s1] eqn:E.
  - intros H. transitivity s1; [eapply Hm | eapply Hf]; eassumption.
  - intros [= _ <-]. eapply Hm; eassumption.
Qed.

Lemma preserves_catch {A} (m : M A) (h : exn → M A) :
  preserves m → (∀ e, preserves (h e)) → preserves (catch m h).
Proof.
  intros Hm Hh s r s'. unfold catch.
  destruct (m s) as [[a|e] s1] eqn:E.
  - intros [= _ <-]. eapply Hm; eassumption.
  - intros H. transitivity s1; [eapply Hm | eapply Hh]; eassumption.
Qed.

Lemma preserves_for {A} (l : list A) (body : A → M unit) :
  (∀ x, x ∈ l → preserves (body x)) → preserves (for_ l body).
Proof.
  induction l as [|x l IH]; intros Hb; simpl.
  - apply preserves_ret.
  - apply preserves_bind.
    + apply Hb. left.
    + intros _. apply IH. intros y Hy. apply Hb. by right.
Qed.
End Preserve.

(** What holds between the states before and after any piece of the
    script: nothing on disk disappears or changes kind, well-formedness is
    kept, the ghost fields only grow, faults are only consumed. *)
Record evolves (s s' : state) : Prop := Evolves {
  ev_cwd : cwd s' = cwd s;
  ev_out : out s' = out s;
  ev_calls : calls s `prefix_of` calls s';
  ev_faults : faults s' `suffix_of` faults s;
  ev_dir : ∀ k, fs s !! k = Some Dir → fs s' !! k = Some Dir;
  ev_file : ∀ k c, fs s !! k = Some (File c) → ∃ c', fs s' !! k = Some (File c');
  ev_wf : wf (fs s) → wf (fs s')
}.

#[local] Instance evolves_preorder : PreOrder evolves.
Proof.
  split.
  - intros s. split; eauto.
  - intros s1 s2 s3 [] []. split; try (etransitivity; eassumption); eauto.
    intros k c H. edestruct ev_file0 as [c' Hc']; eauto.
Qed.

(** Existing entries outside [P] are left as they are. *)
Definition keeps (P : list string → Prop) (wd : list string)
  (s s' : state) : Prop :=
  cwd s = wd →
  cwd s' = wd ∧ ∀ k n, ¬ P k → fs s !! k = Some n → fs s' !! k = Some n.

#[local] Instance keeps_preorder P wd : PreOrder (keeps P wd).
Proof.
  split.
  - intros s H. auto.
  - intros s1 s2 s3 H12 H23 H. destruct (H12 H) as [H2 K12].
    destruct (H23 H2) as [H3 K23]. split; [exact H3|]. eauto.
Qed.

(** Nothing outside [P] is touched or created. *)
Definition confined (P : list string → Prop) (wd : list string)
  (s s' : state) : Prop :=
  cwd s = wd → cwd s' = wd ∧ ∀ k, ¬ P k → fs s' !! k = fs s !! k.

#[local] Instance confined_preorder P wd : PreOrder (confined P wd).
Proof.
  split.
  - intros s H. auto.
  - intros s1 s2 s3 H12 H23 H. destruct (H12 H) as [H2 K12].
    destruct (H23 H2) as [H3 K23]. split; [exact H3|].
    intros k Hk. rewrite K23, K12; auto.
Qed.

Lemma fs_lookup_insert_Dir m k n j :
  fs_lookup m j = Some Dir →
  m !! k ≠ Some Dir ∨ n = Dir →
  fs_lookup (<[k := n]> m) j = Some Dir.
Proof.
  intros Hj Hk. destruct j as [|c j]; [done|]. simpl in *.
  destruct (decide (k = c :: j)) as [->|Hne].
  - rewrite lookup_insert_eq. destruct Hk as [Hk | ->]; [|done]. congruence.
  - by rewrite lookup_insert_ne.
Qed.

Lemma wf_insert m k n :
  wf m → fs_lookup m (parent k) = Some Dir →
  m !! k ≠ Some Dir ∨ n = Dir →
  wf (<[k := n]> m).
Proof.
  intros Hwf Hp Hk j x Hj.
  apply fs_lookup_insert_Dir; [|exact Hk].
  destruct (decide (k = j)) as [->|Hne]; [exact Hp|].
  rewrite lookup_insert_ne in Hj by done. exact (Hwf _ _ Hj).
Qed.

Lemma check_parent_None m k :
  check_parent m k = None ↔ fs_lookup m (parent k) = Some Dir.
Proof.
  unfold check_parent. destruct (fs_lookup m (parent k)) as [[|c]|]; split;
    congruence.
Qed.

Lemma fs_lookup_None m k : fs_lookup m k = None → m !! k = None.
Proof. destruct k; [discriminate | done]. Qed.

Lemma fs_lookup_not_Dir m k : fs_lookup m k ≠ Some Dir → m !! k ≠ Some Dir.
Proof. destruct k; simpl; congruence. Qed.

(** *** The system calls, one by one *)

Lemma pop_fault_inv s r s' :
  pop_fault s = (r, s') →
  ∃ fl, s' = set_faults fl s ∧ fl `suffix_of` faults s
        ∧ (faults s = [] → r = Ok tt ∧ s' = s)
        ∧ ∀ e, r = Raise e → is_OSError e = true.
Proof.
  unfold pop_fault. destruct s as [m wd fl cs o]; simpl.
  destruct fl as [|[e|] fl]; intros [= <- <-]; simpl.
  - exists []. repeat split; try done.
  - exists fl. repeat split; try done.
    + by apply suffix_cons_r.
    + by intros e' [= <-].
  - exists fl. repeat split; try done. by apply suffix_cons_r.
Qed.

Lemma set_faults_evolves fl s : fl `suffix_of` faults s → evolves s (set_faults fl s).
Proof. intros H. split; simpl; eauto. Qed.

Lemma evolves_pop_fault : preserves evolves pop_fault.
Proof.
  intros s r s' H. apply pop_fault_inv in H as (fl & -> & Hfl & _).
  by apply set_faults_evolves.
Qed.

Lemma set_fs_insert_evolves s k n :
  fs_lookup (fs s) (parent k) = Some Dir →
  (fs s !! k = None ∧ n = Dir) ∨ (fs s !! k ≠ Some Dir ∧ n ≠ Dir) →
  evolves s (set_fs (<[k := n]> (fs s)) s).
Proof.
  intros Hp Hk. split; simpl; try done.
  - intros j Hj. destruct (decide (k = j)) as [->|Hne].
    + rewrite lookup_insert_eq. destruct Hk as [[Hk ->]|[Hk Hn]]; [done|].
      congruence.
    + by rewrite lookup_insert_ne.
  - intros j c Hj. destruct (decide (k = j)) as [->|Hne].
    + rewrite lookup_insert_eq. destruct Hk as [[Hk ->]|[Hk Hn]].
      * congruence.
      * destruct n; [done | eauto].
    + rewrite lookup_insert_ne by done. eauto.
  - intros Hwf. apply wf_insert; [done | done |].
    destruct Hk as [[Hk ->]|[Hk Hn]]; [by right | by left].
Qed.

Lemma evolves_sys_stat path : preserves evolves (sys_stat path).
Proof.
  apply preserves_bind; [apply _ | apply evolves_pop_fault | intros _].
  intros s r s'. cbv beta. destruct (negb _); [intros [= _ <-]; reflexivity|].
  destruct (fs_lookup _ _); intros [= _ <-]; reflexivity.
Qed.

Lemma evolves_os_mkdir path : preserves evolves (os_mkdir path).
Proof.
  apply preserves_bind; [apply _ | apply evolves_pop_fault | intros _].
  intros s r s'. cbv beta zeta.
  destruct (negb _); [intros [= _ <-]; reflexivity|].
  destruct (check_parent _ _) eqn:Ep; [intros [= _ <-]; reflexivity|].
  apply check_parent_None in Ep.
  destruct (fs_lookup (fs s) (resolve _ _)) eqn:Ek; intros [= _ <-];
    [reflexivity|].
  apply set_fs_insert_evolves; [done | left]. split; [|done].
  by apply fs_lookup_None.
Qed.

Lemma evolves_open_w path : preserves evolves (open_w path).
Proof.
  apply preserves_bind; [apply _ | apply evolves_pop_fault | intros _].
  intros s r s'. cbv beta zeta.
  destruct (negb _); [intros [= _ <-]; reflexivity|].
  destruct (PyStr.endswith_sep _); [intros [= _ <-]; reflexivity|].
  destruct (check_parent _ _) eqn:Ep; [intros [= _ <-]; reflexivity|].
  apply check_parent_None in Ep.
  destruct (fs_lookup (fs s) (resolve _ _)) as [[|c]|] eqn:Ek; intros [= _ <-];
    [reflexivity | |];
    (apply set_fs_insert_evolves; [done | right; split; [|done]]);
    apply fs_lookup_not_Dir; congruence.
Qed.

Lemma evolves_file_write f content : preserves evolves (file_write f content).
Proof.
  apply preserves_bind; [apply _ | apply evolves_pop_fault | intros _].
  intros s r s'. cbv beta.
  destruct (fs s !! f) as [[|c]|] eqn:Ef; intros [= _ <-];
    try reflexivity.
  split; simpl; try done.
  - intros j Hj. rewrite lookup_insert_ne; [done | congruence].
  - intros j c' Hj. destruct (decide (f = j)) as [->|Hne].
    + rewrite lookup_insert_eq. eauto.
    + rewrite lookup_insert_ne by done. eauto.
  - intros Hwf. apply wf_insert; [done | | left; congruence].
    exact (Hwf _ _ Ef).
Qed.

(** *** Lifting a preserved relation from the system calls to the script *)

(** [os.makedirs] looks at [tail] after a second [split] when the first one
    gave an empty [tail]. *)
Definition eff_split (name : string) : string * string :=
  let '(head, tail) := os_path_split name in
  if negb (PyStr.nonempty tail) then os_path_split head else (head, tail).

(** The names [makedirs_rec] may be called on, outermost first. *)
Fixpoint chain (fuel : nat) (name : string) : list string :=
  match fuel with
  | 0 => []
  | S fuel' =>
      name :: (let '(head, tail) := eff_split name in
               if PyStr.nonempty head && PyStr.nonempty tail
               then chain fuel' head else [])
  end.

Definition makedirs_chain (name : string) : list string :=
  chain (S (String.length name)) name.

(** [with open(path, 'w') as f: f.write(content)] *)
Definition write_file (path content : string) : M unit :=
  f <- open_w path ;; file_write f content.

Lemma makedirs_rec_S fuel name exist_ok :
  makedirs_rec (S fuel) name exist_ok =
  let '(head, tail) := eff_split name in
  early <-
    (if PyStr.nonempty head && PyStr.nonempty tail then
       ex <- os_path_exists head ;;
       if negb ex then
         catch (makedirs_rec fuel head exist_ok)
               (λ e, if is_FileExistsError e then ret tt else raise e) ;;
         ret (String.eqb tail ".")
       else ret false
     else ret false) ;;
  if early : bool then ret tt
  else
    catch (os_mkdir name)
          (λ e, if is_OSError e then
                  if negb exist_ok then raise e
                  else
                    d <- os_path_isdir name ;;
                    if negb d then raise e else ret tt
                else raise e).
Proof.
  cbn [makedirs_rec]. unfold eff_split.
  destruct (os_path_split name) as [h t].
  destruct (negb (PyStr.nonempty t)); reflexivity.
Qed.

Ltac preserves_step :=
  first
    [ solve [auto]
    | apply preserves_ret; apply _
    | apply preserves_raise; apply _
    | apply preserves_bind; [apply _ | | intros ?]
    | apply preserves_catch; [apply _ | | intros ?]
    | match goal with
      | |- preserves _ (if ?b then _ else _) => destruct b
      | |- preserves _ (match ?x with _ => _ end) => destruct x
      end ].

Section Lift.
Context (R : relation state) `{!PreOrder R}.
Context (ok_dir : string → Prop) (ok_file : string → string → Prop).
Hypothesis R_stat : ∀ p, preserves R (sys_stat p).
Hypothesis R_mkdir : ∀ p, ok_dir p → preserves R (os_mkdir p).
Hypothesis R_write : ∀ p c, ok_file p c → preserves R (write_file p c).
Hypothesis R_log : ∀ e s, R s (add_call e s).

Lemma lift_exists p : preserves R (os_path_exists p).
Proof. unfold os_path_exists. repeat preserves_step. Qed.

Lemma lift_isdir p : preserves R (os_path_isdir p).
Proof. unfold os_path_isdir. repeat preserves_step. Qed.

Lemma lift_makedirs_rec fuel name exist_ok :
  Forall ok_dir (chain fuel name) →
  preserves R (makedirs_rec fuel name exist_ok).
Proof.
  pose proof lift_exists as Hex. pose proof lift_isdir as Hisd.
  revert name. induction fuel as [|fuel IH]; intros name Hch.
  - apply preserves_raise; apply _.
  - rewrite makedirs_rec_S. cbn [chain] in Hch.
    apply Forall_cons in Hch as [Hname Hch].
    destruct (eff_split name) as [h t].
    apply preserves_bind; [apply _ | | intros early].
    + destruct (PyStr.nonempty h && PyStr.nonempty t);
        repeat preserves_step.
    + repeat preserves_step.
Qed.

Lemma lift_os_makedirs name exist_ok :
  Forall ok_dir (makedirs_chain name) →
  preserves R (os_makedirs name exist_ok).
Proof.
  intros H. unfold os_makedirs. apply preserves_bind; [apply _ | | intros _].
  - intros s r s' [= _ <-]. apply R_log.
  - by apply lift_makedirs_rec.
Qed.

Lemma lift_create_file path content :
  Forall ok_dir (makedirs_chain (os_path_dirname path)) →
  ok_file path content →
  preserves R (create_file path content).
Proof.
  intros Hd Hf. unfold create_file.
  apply preserves_bind; [apply _ | | intros _].
  - intros s r s' [= _ <-]. apply R_log.
  - apply preserves_bind; [apply _ | | intros _].
    + by apply lift_os_makedirs.
    + by apply R_write.
Qed.

Definition call_ok (c : call) : Prop :=
  match c with
  | Makedirs name => Forall ok_dir (makedirs_chain name)
  | CreateFile path content =>
      Forall ok_dir (makedirs_chain (os_path_dirname path))
      ∧ ok_file path content
  end.

Lemma lift_do_call c : call_ok c → preserves R (do_call c).
Proof.
  destruct c as [name | path content]; simpl.
  - apply lift_os_makedirs.
  - intros [??]. by apply lift_create_file.
Qed.

Lemma lift_calls l : Forall call_ok l → preserves R (for_ l do_call).
Proof.
  intros H. apply preserves_for; [apply _|]. intros c Hc.
  apply lift_do_call. rewrite Forall_forall in H. auto.
Qed.
End Lift.

(** *** What each system call does to the state *)

Lemma sys_stat_inv path s r s' :
  sys_stat path s = (r, s') →
  ∃ fl, s' = set_faults fl s ∧ fl `suffix_of` faults s ∧
        (∀ n, r = Ok n →
              PyStr.nonempty path = true ∧
              fs_lookup (fs s) (resolve (cwd s) path) = Some n) ∧
        (∀ e, r = Raise e → is_OSError e = true).
Proof.
  unfold sys_stat, bind. destruct (pop_fault s) as [[[]|e] s1] eqn:E;
    apply pop_fault_inv in E as (fl & -> & Hfl & _ & He).
  - simpl. destruct (PyStr.nonempty path); simpl.
    + destruct (fs_lookup _ _) eqn:El; intros [= <- <-]; exists fl;
        (split; [done|]); (split; [done|]); split.
      * by intros n' [= <-].
      * done.
      * done.
      * by intros e [= <-].
    + intros [= <- <-]. exists fl. repeat split; try done.
      by intros e [= <-].
  - intros [= <- <-]. exists fl. repeat split; try done.
    intros e' [= <-]. by apply He.
Qed.

Lemma os_mkdir_inv path s r s' :
  os_mkdir path s = (r, s') →
  ∃ fl, fl `suffix_of` faults s ∧
    ((s' = set_faults fl s ∧ ∃ e, r = Raise (OSError e)) ∨
     (r = Ok tt ∧
      s' = set_fs (<[resolve (cwd s) path := Dir]> (fs s)) (set_faults fl s) ∧
      fs s !! resolve (cwd s) path = None ∧
      fs_lookup (fs s) (resolve (cwd s) path) = None ∧
      fs_lookup (fs s) (parent (resolve (cwd s) path)) = Some Dir ∧
      PyStr.nonempty path = true)).
Proof.
  unfold os_mkdir, bind. destruct (pop_fault s) as [[[]|e] s1] eqn:E;
    apply pop_fault_inv in E as (fl & -> & Hfl & _ & He); intros H;
    exists fl; (split; [done|]); revert H.
  - simpl. destruct (PyStr.nonempty path); simpl; [|intros [= <- <-]; eauto].
    destruct (check_parent _ _) eqn:Ep; [intros [= <- <-]; eauto|].
    apply check_parent_None in Ep.
    destruct (fs_lookup (fs s) (resolve (cwd s) path)) eqn:El;
      intros [= <- <-]; [eauto|].
    right. repeat split; try done. by apply fs_lookup_None.
  - intros [= <- <-]. left. split; [done|].
    specialize (He e eq_refl). destruct e; [eauto | done].
Qed.

Lemma write_file_inv path content s r s' :
  write_file path content s = (r, s') →
  ∃ fl, fl `suffix_of` faults s ∧
    ((s' = set_faults fl s ∧ ∃ e, r = Raise (OSError e)) ∨
     (∃ c, (c = "" ∧ (∃ e, r = Raise (OSError e)) ∨ c = content ∧ r = Ok tt) ∧
        s' = set_fs (<[resolve (cwd s) path := File c]> (fs s))
                    (set_faults fl s) ∧
        fs s !! resolve (cwd s) path ≠ Some Dir ∧
        resolve (cwd s) path ≠ [] ∧
        fs_lookup (fs s) (parent (resolve (cwd s) path)) = Some Dir)).
Proof.
  unfold write_file, bind at 1, open_w, bind at 1.
  destruct (pop_fault s) as [[[]|e] s1] eqn:E;
    apply pop_fault_inv in E as (fl & -> & Hfl & _ & He); cbv beta zeta.
  2:{ intros [= <- <-]. exists fl. split; [done|]. left. split; [done|].
      specialize (He e eq_refl). destruct e; [eauto | done]. }
  simpl.
  destruct (PyStr.nonempty path); simpl;
    [|intros [= <- <-]; exists fl; eauto 6].
  destruct (PyStr.endswith_sep path); [intros [= <- <-]; exists fl; eauto 6|].
  destruct (check_parent _ _) eqn:Ep; [intros [= <- <-]; exists fl; eauto 6|].
  apply check_parent_None in Ep.
  set (k := resolve (cwd s) path) in *.
  assert (∀ m fl0, file_write k content
            (State (<[k := File ""]> m) (cwd s) fl0 (calls s) (out s)) = (r, s') →
          ∃ fl1, fl1 `suffix_of` fl0 ∧ ∃ c,
            (c = "" ∧ (∃ e, r = Raise (OSError e)) ∨ c = content ∧ r = Ok tt) ∧
            s' = State (<[k := File c]> m) (cwd s) fl1 (calls s) (out s)) as Hw.
  { intros m fl0. unfold file_write, bind.
    destruct (pop_fault _) as [[[]|e] s1] eqn:E;
      apply pop_fault_inv in E as (fl1 & -> & Hfl1 & _ & He1); simpl in *.
    - rewrite lookup_insert_eq. intros [= <- <-]. exists fl1. split; [done|].
      exists content. split; [by right|]. unfold set_fs; simpl.
      by rewrite insert_insert_eq.
    - intros [= <- <-]. exists fl1. split; [done|]. exists "".
      split; [|done]. left. split; [done|].
      specialize (He1 e eq_refl). destruct e; [eauto | done]. }
  destruct (fs_lookup (fs s) k) as [[|c0]|] eqn:El.
  - intros [= <- <-]. exists fl; eauto 6.
  - intros H. apply Hw in H as (fl1 & Hfl1 & c & Hc & ->).
    exists fl1. split; [by etransitivity|]. right. exists c.
    repeat split; try done.
    + intros Hd. destruct k; simpl in El; congruence.
    + intros ->. simpl in El. congruence.
  - intros H. apply Hw in H as (fl1 & Hfl1 & c & Hc & ->).
    exists fl1. split; [by etransitivity|]. right. exists c.
    repeat split; try done.
    + apply fs_lookup_None in El. congruence.
    + intros ->. simpl in El. congruence.
Qed.

(** *** Instances: [evolves], [keeps], [confined] *)

Lemma evolves_add_call e s : evolves s (add_call e s).
Proof. split; simpl; eauto. by exists [e]. Qed.

Lemma evolves_write_file p c : preserves evolves (write_file p c).
Proof.
  apply preserves_bind; [apply _ | apply evolves_open_w | intros f].
  apply evolves_file_write.
Qed.

Lemma evolves_os_makedirs name exist_ok :
  preserves evolves (os_makedirs name exist_ok).
Proof.
  apply lift_os_makedirs with (ok_dir := λ _, True); try apply _;
    auto using evolves_sys_stat, evolves_os_mkdir, evolves_write_file,
      evolves_add_call.
  by apply Forall_true.
Qed.

Lemma evolves_do_call c : preserves evolves (do_call c).
Proof.
  apply lift_do_call with (ok_dir := λ _, True) (ok_file := λ _ _, True);
    try apply _;
    auto using evolves_sys_stat, evolves_os_mkdir, evolves_write_file,
      evolves_add_call.
  destruct c; simpl; [|split; [|done]]; by apply Forall_true.
Qed.

Lemma evolves_calls l : preserves evolves (for_ l do_call).
Proof. apply preserves_for; [apply _|]. intros c _. apply evolves_do_call. Qed.

Section Frames.
Context (P : list string → Prop) (wd : list string).

Lemma keeps_set_faults fl s : keeps P wd s (set_faults fl s).
Proof. intros H. auto. Qed.

Lemma confined_set_faults fl s : confined P wd s (set_faults fl s).
Proof. intros H. auto. Qed.

Lemma keeps_sys_stat p : preserves (keeps P wd) (sys_stat p).
Proof.
  intros s r s' H. apply sys_stat_inv in H as (fl & -> & _).
  apply keeps_set_faults.
Qed.

Lemma confined_sys_stat p : preserves (confined P wd) (sys_stat p).
Proof.
  intros s r s' H. apply sys_stat_inv in H as (fl & -> & _).
  apply confined_set_faults.
Qed.

Lemma keeps_os_mkdir p : preserves (keeps P wd) (os_mkdir p).
Proof.
  intros s r s' H. apply os_mkdir_inv in H as (fl & _ & [[-> _] | H]).
  - apply keeps_set_faults.
  - destruct H as (_ & -> & Hk & _). intros Hwd. split; [done|].
    intros k n _ Hn. simpl. rewrite lookup_insert_ne; [done | congruence].
Qed.

Lemma confined_os_mkdir p :
  P (resolve wd p) → preserves (confined P wd) (os_mkdir p).
Proof.
  intros HP s r s' H. apply os_mkdir_inv in H as (fl & _ & [[-> _] | H]).
  - apply confined_set_faults.
  - destruct H as (_ & -> & Hk & _). intros Hwd. split; [done|].
    intros k Hn. simpl. rewrite lookup_insert_ne; [done | congruence].
Qed.

Lemma keeps_write_file p c :
  P (resolve wd p) → preserves (keeps P wd) (write_file p c).
Proof.
  intros HP s r s' H. apply write_file_inv in H as (fl & _ & [[-> _] | H]).
  - apply keeps_set_faults.
  - destruct H as (c' & _ & -> & _). intros Hwd. split; [done|].
    intros k n Hk Hn. simpl. rewrite lookup_insert_ne; [done | congruence].
Qed.

Lemma confined_write_file p c :
  P (resolve wd p) → preserves (confined P wd) (write_file p c).
Proof.
  intros HP s r s' H. apply write_file_inv in H as (fl & _ & [[-> _] | H]).
  - apply confined_set_faults.
  - destruct H as (c' & _ & -> & _). intros Hwd. split; [done|].
    intros k Hk. simpl. rewrite lookup_insert_ne; [done | congruence].
Qed.

Lemma keeps_add_call e s : keeps P wd s (add_call e s).
Proof. intros H. auto. Qed.

Lemma confined_add_call e s : confined P wd s (add_call e s).
Proof. intros H. auto. Qed.

(** [os.makedirs] never changes an entry that exists. *)
Lemma keeps_os_makedirs name exist_ok :
  preserves (keeps P wd) (os_makedirs name exist_ok).
Proof.
  apply lift_os_makedirs with (ok_dir := λ _, True); try apply _;
    auto using keeps_sys_stat, keeps_os_mkdir, keeps_write_file,
      keeps_add_call.
  by apply Forall_true.
Qed.

(** [create_file] changes no existing entry other than the file itself. *)
Lemma keeps_create_file path content :
  P (resolve wd path) → preserves (keeps P wd) (create_file path content).
Proof.
  intros HP.
  apply lift_create_file
    with (ok_dir := λ _, True) (ok_file := λ p _, P (resolve wd p));
    try apply _;
    auto using keeps_sys_stat, keeps_os_mkdir, keeps_write_file,
      keeps_add_call.
  by apply Forall_true.
Qed.

(** The calls of a list touch nothing outside [P] when every name they
    hand to [os.mkdir] or [open] resolves into [P]. *)
Lemma confined_calls l :
  Forall (call_ok (λ p, P (resolve wd p)) (λ p _, P (resolve wd p))) l →
  preserves (confined P wd) (for_ l do_call).
Proof.
  apply lift_calls;
    auto using confined_sys_stat, confined_os_mkdir, confined_write_file,
      confined_add_call.
  apply _.
Qed.
End Frames.

(** *** The ghost field [calls] *)

Definition same_calls (s s' : state) : Prop := calls s' = calls s.

#[local] Instance same_calls_preorder : PreOrder same_calls.
Proof. split; unfold same_calls; [done | intros ???; congruence]. Qed.

Lemma same_calls_sys_stat p : preserves same_calls (sys_stat p).
Proof. intros s r s' H. by apply sys_stat_inv in H as (fl & -> & _). Qed.

Lemma same_calls_os_mkdir p : preserves same_calls (os_mkdir p).
Proof.
  intros s r s' H.
  by apply os_mkdir_inv in H as (fl & _ & [[-> _] | (_ & -> & _)]).
Qed.

Lemma same_calls_write_file p c : preserves same_calls (write_file p c).
Proof.
  intros s r s' H.
  by apply write_file_inv in H as (fl & _ & [[-> _] | (? & _ & -> & _)]).
Qed.

Lemma os_makedirs_calls name exist_ok s r s' :
  os_makedirs name exist_ok s = (r, s') →
  calls s' = calls s ++ [EvMakedirs name].
Proof.
  unfold os_makedirs, bind at 1. intros H.
  eapply (lift_makedirs_rec same_calls (λ _, True)) in H;
    auto using same_calls_sys_stat, same_calls_os_mkdir.
  by apply Forall_true.
Qed.

Lemma do_call_calls c s r s' :
  do_call c s = (r, s') → calls s' = calls s ++ events_of c.
Proof.
  destruct c as [name | path content]; simpl.
  - apply os_makedirs_calls.
  - unfold create_file, bind at 1. cbv beta iota.
    unfold bind at 1.
    destruct (os_makedirs _ _ _) as [[[]|e] s1] eqn:E;
      apply os_makedirs_calls in E; simpl in E.
    + intros H. apply same_calls_write_file in H. unfold same_calls in H.
      rewrite H, E. by rewrite <- app_assoc.
    + intros [= _ <-]. rewrite E. by rewrite <- app_assoc.
Qed.

Lemma for_calls_Ok l s s' :
  for_ l do_call s = (Ok tt, s') →
  calls s' = calls s ++ concat (map events_of l).
Proof.
  revert s. induction l as [|c l IH]; intros s; simpl.
  - intros [= <-]. by rewrite app_nil_r.
  - intros H. apply bind_Ok in H as ([] & s1 & H1 & H2).
    apply do_call_calls in H1. rewrite (IH _ H2), H1. by rewrite <- app_assoc.
Qed.

(** *** Results of [os.path.isdir], [os.path.exists], [os.makedirs],
    [create_file] *)

Lemma os_path_isdir_inv p s r s' :
  os_path_isdir p s = (r, s') →
  ∃ fl d, r = Ok d ∧ s' = set_faults fl s ∧ fl `suffix_of` faults s ∧
          (d = true → fs_lookup (fs s) (resolve (cwd s) p) = Some Dir).
Proof.
  unfold os_path_isdir, catch, bind.
  destruct (sys_stat p s) as [[n|e] s1] eqn:E;
    apply sys_stat_inv in E as (fl & -> & Hfl & Hn & He).
  - intros [= <- <-]. exists fl. eexists. repeat split; try done.
    intros Hd. destruct (Hn n eq_refl) as [_ Hl]. by destruct n.
  - rewrite (He e eq_refl). intros [= <- <-]. exists fl, false. done.
Qed.

Lemma os_path_exists_inv p s r s' :
  os_path_exists p s = (r, s') →
  ∃ fl d, r = Ok d ∧ s' = set_faults fl s ∧ fl `suffix_of` faults s.
Proof.
  unfold os_path_exists, catch, bind.
  destruct (sys_stat p s) as [[n|e] s1] eqn:E;
    apply sys_stat_inv in E as (fl & -> & Hfl & Hn & He).
  - intros [= <- <-]. by exists fl, true.
  - rewrite (He e eq_refl). intros [= <- <-]. by exists fl, false.
Qed.

Lemma evolves_fs_lookup_Dir s s' k :
  evolves s s' → fs_lookup (fs s) k = Some Dir → fs_lookup (fs s') k = Some Dir.
Proof. intros H. destruct k; [done|]. apply (ev_dir _ _ H). Qed.

(** The last step of [os.makedirs]: [mkdir], and [isdir] when it failed. *)
Lemma mkdir_or_isdir_post name s s' :
  catch (os_mkdir name)
        (λ e, if is_OSError e then
                if negb true then raise e
                else d <- os_path_isdir name ;;
                     if negb d then raise e else ret tt
              else raise e) s = (Ok tt, s') →
  fs_lookup (fs s') (resolve (cwd s') name) = Some Dir.
Proof.
  unfold catch. destruct (os_mkdir name s) as [[[]|e] s1] eqn:E;
    apply os_mkdir_inv in E as (fl & _ & [[-> [e' He']] | H]); try done.
  - intros [= <-]. destruct H as (_ & -> & _). simpl.
    destruct (resolve (cwd s) name) eqn:Ek; [done|]. simpl.
    apply lookup_insert_eq.
  - injection He' as ->. simpl. unfold bind.
    destruct (os_path_isdir name _) as [[d|e] s2] eqn:E;
      apply os_path_isdir_inv in E as (fl2 & d' & Hr & -> & _ & Hd); simpl in *.
    + injection Hr as <-. destruct d; [|discriminate]. intros [= <-]. simpl. auto.
    + discriminate.
  - by destruct H.
Qed.

(** A successful [os.makedirs(name, exist_ok=True)] leaves a directory at
    [name], when [name] does not end in a [.] component. *)
Lemma makedirs_rec_post fuel name s s' :
  String.eqb (snd (eff_split name)) "." = false →
  makedirs_rec fuel name true s = (Ok tt, s') →
  fs_lookup (fs s') (resolve (cwd s') name) = Some Dir.
Proof.
  destruct fuel as [|fuel]; [discriminate|]. rewrite makedirs_rec_S.
  destruct (eff_split name) as [h t]. cbn [snd]. intros Ht H.
  apply bind_Ok in H as (early & s1 & H1 & H2).
  assert (early = false) as ->.
  { destruct (PyStr.nonempty h && PyStr.nonempty t); [|by injection H1].
    apply bind_Ok in H1 as (ex & s2 & _ & H1).
    destruct (negb ex); [|by injection H1].
    apply bind_Ok in H1 as ([] & s3 & _ & H1). injection H1 as <- _.
    exact Ht. }
  exact (mkdir_or_isdir_post _ _ _ H2).
Qed.

Lemma os_makedirs_post name s s' :
  String.eqb (snd (eff_split name)) "." = false →
  os_makedirs name true s = (Ok tt, s') →
  fs_lookup (fs s') (resolve (cwd s') name) = Some Dir.
Proof.
  intros Ht H. unfold os_makedirs in H.
  apply bind_Ok in H as ([] & s1 & _ & H).
  by eapply makedirs_rec_post.
Qed.

(** A successful [create_file(path, content)] leaves a regular file at
    [path] holding exactly [content], whatever was there before. *)
Lemma create_file_post path content s s' :
  create_file path content s = (Ok tt, s') →
  fs s' !! resolve (cwd s') path = Some (File content).
Proof.
  intros H. unfold create_file in H.
  apply bind_Ok in H as ([] & s1 & _ & H).
  apply bind_Ok in H as ([] & s2 & _ & H).
  apply write_file_inv in H as (fl & _ & [[_ [e He]] | H]); [done|].
  destruct H as (c & [[_ [e He]] | [-> _]] & -> & _); [done|].
  simpl. apply lookup_insert_eq.
Qed.

Lemma create_file_post_dir path content s s' :
  String.eqb (snd (eff_split (os_path_dirname path))) "." = false →
  create_file path content s = (Ok tt, s') →
  fs_lookup (fs s') (resolve (cwd s') (os_path_dirname path)) = Some Dir.
Proof.
  intros Ht H. unfold create_file in H.
  apply bind_Ok in H as ([] & s1 & _ & H).
  apply bind_Ok in H as ([] & s2 & H1 & H).
  apply os_makedirs_post in H1; [|done].
  apply evolves_write_file in H. rewrite (ev_cwd _ _ H).
  by eapply evolves_fs_lookup_Dir.
Qed.

(** ** Paths without special components *)

(** A component that names an entry: not empty, not [.], not [..]. *)
Definition plain (c : string) : bool :=
  negb (String.eqb c "") && negb (String.eqb c ".") && negb (String.eqb c "..").

(** A relative path made of plain components only: no leading, trailing or
    doubled separator, no [.] and no [..]. *)
Definition clean (p : string) : bool :=
  negb (PyStr.startswith_sep p) && forallb plain (PyStr.split_sep p).

Lemma step_plain cur c : plain c = true → step cur c = cur ++ [c].
Proof.
  unfold plain, step. intros H.
  apply andb_prop in H as [H H3]. apply andb_prop in H as [H1 H2].
  apply negb_true_iff in H1, H2, H3. by rewrite H1, H2, H3.
Qed.

Lemma foldl_step_plain cur cs :
  forallb plain cs = true → foldl step cur cs = cur ++ cs.
Proof.
  revert cur. induction cs as [|c cs IH]; intros cur H; simpl.
  - by rewrite app_nil_r.
  - simpl in H. apply andb_prop in H as [Hc Hcs].
    rewrite step_plain, IH by done. by rewrite <- app_assoc.
Qed.

(** A clean path resolves to the working directory followed by its
    components. *)
Lemma resolve_clean wd p :
  clean p = true → resolve wd p = wd ++ PyStr.split_sep p.
Proof.
  unfold clean, resolve. intros H. apply andb_prop in H as [H1 H2].
  apply negb_true_iff in H1. rewrite H1. by apply foldl_step_plain.
Qed.

Lemma split_sep_nonnil p : PyStr.split_sep p ≠ [].
Proof.
  destruct p as [|c r]; simpl; [done|].
  destruct (PyStr.is_sep c); [done|]. by destruct (PyStr.split_sep r).
Qed.

Lemma parent_app wd cs : cs ≠ [] → parent (wd ++ cs) = wd ++ parent cs.
Proof. intros H. unfold parent. by apply removelast_app. Qed.

Lemma wf_parent m k n :
  wf m → fs_lookup m k = Some n → fs_lookup m (parent k) = Some Dir.
Proof.
  intros Hwf Hk. destruct k as [|c k]; [done|]. exact (Hwf _ _ Hk).
Qed.

(** ** Runs without injected faults *)

Lemma pop_fault_nf s : faults s = [] → pop_fault s = (Ok tt, s).
Proof. unfold pop_fault. by intros ->. Qed.

Lemma os_path_exists_nf p s n :
  faults s = [] → PyStr.nonempty p = true →
  fs_lookup (fs s) (resolve (cwd s) p) = Some n →
  os_path_exists p s = (Ok true, s).
Proof.
  intros Hf Hp Hn. unfold os_path_exists, catch, sys_stat, bind.
  rewrite pop_fault_nf by done. by rewrite Hp, Hn.
Qed.

Lemma os_path_isdir_nf p s :
  faults s = [] → PyStr.nonempty p = true →
  fs_lookup (fs s) (resolve (cwd s) p) = Some Dir →
  os_path_isdir p s = (Ok true, s).
Proof.
  intros Hf Hp Hn. unfold os_path_isdir, catch, sys_stat, bind.
  rewrite pop_fault_nf by done. by rewrite Hp, Hn.
Qed.

Lemma os_mkdir_nf_exists p s n :
  faults s = [] → fs_lookup (fs s) (resolve (cwd s) p) = Some n →
  ∃ e, os_mkdir p s = (Raise (OSError e), s).
Proof.
  intros Hf Hn. unfold os_mkdir, bind. rewrite pop_fault_nf by done.
  destruct (negb _); [eauto|]. cbv zeta. destruct (check_parent _ _); [eauto|].
  rewrite Hn. eauto.
Qed.

(** [os.makedirs(name, exist_ok=True)] is a no-op on a directory that
    exists (in a well-formed namespace, for a name whose [head] resolves to
    the parent of [name]). *)
Lemma makedirs_rec_noop fuel name s :
  faults s = [] → wf (fs s) →
  PyStr.nonempty name = true →
  (let '(h, t) := eff_split name in
   PyStr.nonempty h && PyStr.nonempty t = true →
   resolve (cwd s) h = parent (resolve (cwd s) name)) →
  fs_lookup (fs s) (resolve (cwd s) name) = Some Dir →
  makedirs_rec (S fuel) name true s = (Ok tt, s).
Proof.
  intros Hf Hwf Hne Hh Hd. rewrite makedirs_rec_S.
  destruct (eff_split name) as [h t].
  assert ((if PyStr.nonempty h && PyStr.nonempty t then
             ex <- os_path_exists h ;;
             if negb ex then
               catch (makedirs_rec fuel h true)
                     (λ e, if is_FileExistsError e then ret tt else raise e) ;;
               ret (String.eqb t ".")
             else ret false
           else ret false) s = (Ok false, s)) as Hearly.
  { destruct (PyStr.nonempty h && PyStr.nonempty t) eqn:Eht; [|done].
    unfold bind at 1. erewrite os_path_exists_nf; [done | done | |].
    - apply andb_prop in Eht. tauto.
    - rewrite (Hh eq_refl). by eapply wf_parent. }
  unfold bind at 1. rewrite Hearly. unfold catch.
  destruct (os_mkdir_nf_exists name s Dir Hf Hd) as [e ->]. simpl.
  unfold bind. by rewrite os_path_isdir_nf.
Qed.

Lemma write_file_nf path content s :
  faults s = [] →
  PyStr.nonempty path = true → PyStr.endswith_sep path = false →
  fs_lookup (fs s) (parent (resolve (cwd s) path)) = Some Dir →
  fs_lookup (fs s) (resolve (cwd s) path) ≠ Some Dir →
  write_file path content s =
  (Ok tt, set_fs (<[resolve (cwd s) path := File content]> (fs s)) s).
Proof.
  intros Hf Hne Hend Hp Hk. unfold write_file, open_w, bind.
  rewrite pop_fault_nf by done. rewrite Hne, Hend. simpl.
  apply check_parent_None in Hp. rewrite Hp.
  assert (file_write (resolve (cwd s) path) content
            (set_fs (<[resolve (cwd s) path := File ""]> (fs s)) s)
          = (Ok tt, set_fs (<[resolve (cwd s) path := File content]> (fs s)) s))
    as Hw.
  { unfold file_write, bind. rewrite pop_fault_nf by done. simpl.
    rewrite lookup_insert_eq. unfold set_fs. simpl.
    by rewrite insert_insert_eq. }
  destruct (fs_lookup (fs s) (resolve (cwd s) path)) as [[|c]|]; done.
Qed.

(** ** Checks on the names the script uses *)

(** What the proofs need of a directory name handed to [os.makedirs]. *)
Definition good_dir (name : string) : bool :=
  clean name && PyStr.nonempty name &&
  (let '(h, t) := eff_split name in
   negb (String.eqb t ".") &&
   (if PyStr.nonempty h && PyStr.nonempty t
    then clean h
         && bool_decide (PyStr.split_sep h = parent (PyStr.split_sep name))
    else true)).

Definition good_call (c : call) : bool :=
  match c with
  | Makedirs name => good_dir name
  | CreateFile path _ =>
      good_dir (os_path_dirname path) && clean path
      && PyStr.nonempty path && negb (PyStr.endswith_sep path)
      && bool_decide (PyStr.split_sep (os_path_dirname path)
                      = parent (PyStr.split_sep path))
  end.

Definition file_paths (l : list call) : list string :=
  flat_map (λ c, match c with
                 | Makedirs _ => []
                 | CreateFile path _ => [path]
                 end) l.

Definition dir_names (l : list call) : list string :=
  flat_map (λ c, match c with
                 | Makedirs name => [name]
                 | CreateFile path _ => [os_path_dirname path]
                 end) l.

(** The [(path, content)] arguments of the [create_file] calls of a list. *)
Definition created_files (l : list call) : list (string * string) :=
  flat_map (λ c, match c with
                 | Makedirs _ => []
                 | CreateFile path content => [(path, content)]
                 end) l.

Lemma good_dir_clean name : good_dir name = true → clean name = true.
Proof.
  unfold good_dir. intros H. apply andb_prop in H as [H _].
  by apply andb_prop in H as [H _].
Qed.

Lemma good_dir_nonempty name : good_dir name = true → PyStr.nonempty name = true.
Proof.
  unfold good_dir. intros H. apply andb_prop in H as [H _].
  by apply andb_prop in H as [_ H].
Qed.

Lemma good_dir_tail name :
  good_dir name = true → String.eqb (snd (eff_split name)) "." = false.
Proof.
  unfold good_dir. intros H. apply andb_prop in H as [_ H].
  destruct (eff_split name) as [h t]. apply andb_prop in H as [H _].
  by apply negb_true_iff in H.
Qed.

Lemma good_dir_head wd name :
  good_dir name = true →
  let '(h, t) := eff_split name in
  PyStr.nonempty h && PyStr.nonempty t = true →
  resolve wd h = parent (resolve wd name).
Proof.
  intros H. pose proof (good_dir_clean _ H) as Hc.
  unfold good_dir in H. apply andb_prop in H as [_ H].
  destruct (eff_split name) as [h t]. apply andb_prop in H as [_ H].
  intros Hht. rewrite Hht in H. apply andb_prop in H as [Hh Heq].
  apply bool_decide_eq_true_1 in Heq.
  rewrite !resolve_clean by done. rewrite Heq.
  symmetry. apply parent_app, split_sep_nonnil.
Qed.

Lemma good_file_parent wd path content :
  good_call (CreateFile path content) = true →
  parent (resolve wd path) = resolve wd (os_path_dirname path).
Proof.
  simpl. intros H. apply andb_prop in H as [H Heq].
  apply andb_prop in H as [H _]. apply andb_prop in H as [H _].
  apply andb_prop in H as [Hd Hp]. apply good_dir_clean in Hd.
  apply bool_decide_eq_true_1 in Heq. rewrite !resolve_clean by done.
  rewrite Heq. apply parent_app, split_sep_nonnil.
Qed.

Lemma plan_good : forallb good_call plan = true.
Proof. vm_compute. reflexivity. Qed.

Lemma plan_files_NoDup : NoDup (map PyStr.split_sep (file_paths plan)).
Proof.
  apply (bool_decide_eq_true_1 _). vm_compute. reflexivity.
Qed.

Lemma plan_good_call c : c ∈ plan → good_call c = true.
Proof.
  intros H. pose proof plan_good as Hg. rewrite forallb_forall in Hg.
  apply Hg. by apply list_elem_of_In.
Qed.

(** ** Runs of a list of calls *)

Section Calls.
Context (wd : list string).

Definition file_keys (l : list call) : list (list string) :=
  map (resolve wd) (file_paths l).

(** What a call has achieved once it succeeded. *)
Definition call_done (c : call) (m : gmap (list string) node) : Prop :=
  match c with
  | Makedirs name => fs_lookup m (resolve wd name) = Some Dir
  | CreateFile path content =>
      m !! resolve wd path = Some (File content)
      ∧ fs_lookup m (resolve wd (os_path_dirname path)) = Some Dir
  end.

(** What a call needs to find in order to change nothing but the content
    of its file. *)
Definition call_shape (c : call) (m : gmap (list string) node) : Prop :=
  match c with
  | Makedirs name => fs_lookup m (resolve wd name) = Some Dir
  | CreateFile path _ =>
      (∃ c0, m !! resolve wd path = Some (File c0))
      ∧ fs_lookup m (resolve wd (os_path_dirname path)) = Some Dir
  end.

Definition reset_call (c : call) (m : gmap (list string) node)
  : gmap (list string) node :=
  match c with
  | Makedirs _ => m
  | CreateFile path content => <[resolve wd path := File content]> m
  end.

Fixpoint reset (l : list call) (m : gmap (list string) node)
  : gmap (list string) node :=
  match l with
  | [] => m
  | c :: l' => reset l' (reset_call c m)
  end.

Lemma call_done_shape c m : call_done c m → call_shape c m.
Proof. destruct c; simpl; [done|]. intros [??]. eauto. Qed.

Lemma call_shape_evolves c s s' :
  evolves s s' → call_shape c (fs s) → call_shape c (fs s').
Proof.
  intros He. destruct c as [name | path content]; simpl.
  - by apply evolves_fs_lookup_Dir.
  - intros [[c0 Hc0] Hd]. split; [by eapply ev_file |].
    by eapply evolves_fs_lookup_Dir.
Qed.

Lemma elem_of_file_paths path content l :
  CreateFile path content ∈ l → path ∈ file_paths l.
Proof.
  intros H. unfold file_paths. apply list_elem_of_In, in_flat_map.
  exists (CreateFile path content). split; [by apply list_elem_of_In|].
  by left.
Qed.

Lemma keeps_calls l :
  preserves (keeps (λ k, k ∈ file_keys l) wd) (for_ l do_call).
Proof.
  apply lift_calls
    with (ok_dir := λ _, True) (ok_file := λ p _, resolve wd p ∈ file_keys l);
    try apply _;
    auto using keeps_sys_stat, keeps_os_mkdir, keeps_write_file,
      keeps_add_call.
  apply Forall_forall. intros [name | path content] Hc; simpl.
  - by apply Forall_true.
  - split; [by apply Forall_true|].
    apply list_elem_of_fmap_2. by eapply elem_of_file_paths.
Qed.

(** A call's achievement survives later calls that write other files. *)
Lemma call_done_stable c l s r s' :
  for_ l do_call s = (r, s') → cwd s = wd →
  (∀ path content, c = CreateFile path content →
                   resolve wd path ∉ file_keys l) →
  call_done c (fs s) → call_done c (fs s').
Proof.
  intros H Hwd Hfresh Hc.
  pose proof (evolves_calls _ _ _ _ H) as He.
  destruct c as [name | path content]; simpl in *.
  - by eapply evolves_fs_lookup_Dir.
  - destruct Hc as [Hf Hd]. split; [|by eapply evolves_fs_lookup_Dir].
    destruct (keeps_calls _ _ _ _ H Hwd) as [_ Hk].
    apply Hk; [|done]. by eapply Hfresh.
Qed.

Lemma do_call_post c s s' :
  good_call c = true → cwd s = wd →
  do_call c s = (Ok tt, s') → call_done c (fs s').
Proof.
  intros Hg Hwd H. pose proof (evolves_do_call _ _ _ _ H) as He.
  destruct c as [name | path content];
    cbn [call_done do_call good_call] in *;
    rewrite <- Hwd, <- (ev_cwd _ _ He).
  - eapply os_makedirs_post; [|exact H]. by apply good_dir_tail.
  - split; [by eapply create_file_post|].
    eapply create_file_post_dir; [|exact H].
    apply good_dir_tail. by do 4 (apply andb_prop in Hg as [Hg _]).
Qed.

(** After a successful run of a list of calls every call of the list has
    achieved its effect. *)
Lemma calls_post l s s' :
  (∀ c, c ∈ l → good_call c = true) →
  NoDup (file_keys l) → cwd s = wd →
  for_ l do_call s = (Ok tt, s') →
  ∀ c, c ∈ l → call_done c (fs s').
Proof.
  revert s. induction l as [|c0 l IH]; intros s Hg Hnd Hwd H c Hc.
  - by apply elem_of_nil in Hc.
  - simpl in H. apply bind_Ok in H as ([] & s1 & H1 & H2).
    pose proof (evolves_do_call _ _ _ _ H1) as He1.
    assert (cwd s1 = wd) as Hwd1 by (by rewrite (ev_cwd _ _ He1)).
    assert (NoDup (file_keys l) ∧
            ∀ path content, c0 = CreateFile path content →
                            resolve wd path ∉ file_keys l) as [Hnd' Hfresh].
    { destruct c0 as [name | path content]; simpl in Hnd.
      - split; [done | discriminate].
      - apply NoDup_cons in Hnd as [Hn Hnd]. split; [done|].
        by intros ?? [= <- <-]. }
    apply elem_of_cons in Hc as [-> | Hc].
    + eapply call_done_stable; [exact H2 | done | done |].
      apply (do_call_post c0 s); [|done|done]. apply Hg. left.
    + eapply IH; [|done|exact Hwd1|exact H2|done].
      intros c' Hc'. apply Hg. by right.
Qed.

Lemma do_call_steady c s :
  good_call c = true → faults s = [] → wf (fs s) → cwd s = wd →
  call_shape c (fs s) →
  ∃ s', do_call c s = (Ok tt, s') ∧ fs s' = reset_call c (fs s)
        ∧ faults s' = [].
Proof.
  intros Hg Hf Hwf Hwd Hsh.
  assert (∀ name e, good_dir name = true →
            fs_lookup (fs s) (resolve wd name) = Some Dir →
            os_makedirs name true (add_call e s)
            = (Ok tt, add_call (EvMakedirs name) (add_call e s))) as Hmk.
  { intros name e Hgd Hd. unfold os_makedirs, bind at 1.
    apply makedirs_rec_noop; simpl; try done.
    - by apply good_dir_nonempty.
    - rewrite Hwd. by apply good_dir_head.
    - by rewrite Hwd. }
  destruct c as [name | path content]; simpl in *.
  - exists (add_call (EvMakedirs name) s). split; [|done].
    unfold os_makedirs, bind at 1.
    rewrite makedirs_rec_noop; simpl; try done.
    + by apply good_dir_nonempty.
    + rewrite Hwd. by apply good_dir_head.
    + by rewrite Hwd.
  - destruct Hsh as [[c0 Hc0] Hd].
    pose proof (good_file_parent wd _ content Hg) as Hpar.
    apply andb_prop in Hg as [Hg _]. apply andb_prop in Hg as [Hg Hend].
    apply andb_prop in Hg as [Hg Hne]. apply andb_prop in Hg as [Hgd Hcl].
    apply negb_true_iff in Hend.
    eexists. unfold create_file, bind at 1. cbv beta iota.
    unfold bind at 1. rewrite Hmk by done.
    change (bind (open_w path) (λ f, file_write f content))
      with (write_file path content).
    rewrite write_file_nf; simpl; try done.
    + rewrite Hwd. done.
    + rewrite Hwd, Hpar. done.
    + rewrite Hwd. intros Hdir.
      destruct (resolve wd path) eqn:Ek; simpl in *; [|congruence].
      rewrite resolve_clean in Ek by done.
      apply app_eq_nil in Ek as [_ Ek]. by apply split_sep_nonnil in Ek.
Qed.

(** In a namespace that already has the directories and files of the
    list, and without injected faults, the run succeeds and changes
    nothing but the contents of the files. *)
Lemma calls_steady l s :
  (∀ c, c ∈ l → good_call c = true) →
  faults s = [] → wf (fs s) → cwd s = wd →
  (∀ c, c ∈ l → call_shape c (fs s)) →
  ∃ s', for_ l do_call s = (Ok tt, s') ∧ fs s' = reset l (fs s)
        ∧ faults s' = [].
Proof.
  revert s. induction l as [|c l IH]; intros s Hg Hf Hwf Hwd Hsh.
  - exists s. done.
  - destruct (do_call_steady c s) as (s1 & H1 & Hfs1 & Hf1); try done.
    { apply Hg. left. }
    { apply Hsh. left. }
    pose proof (evolves_do_call _ _ _ _ H1) as He1.
    destruct (IH s1) as (s' & H2 & Hfs2 & Hf2); try done.
    + intros c' Hc'. apply Hg. by right.
    + by apply (ev_wf _ _ He1).
    + by rewrite (ev_cwd _ _ He1).
    + intros c' Hc'. eapply call_shape_evolves; [done|]. apply Hsh. by right.
    + exists s'. simpl. unfold bind. rewrite H1. split; [done|].
      split; [|done]. by rewrite Hfs2, Hfs1.
Qed.

Lemma reset_id l m : (∀ c, c ∈ l → call_done c m) → reset l m = m.
Proof.
  induction l as [|c l IH]; intros H; simpl; [done|].
  assert (reset_call c m = m) as ->.
  { specialize (H c (list_elem_of_here _ _)).
    destruct c; simpl in *; [done|]. apply insert_id. tauto. }
  apply IH. intros c' Hc'. apply H. by right.
Qed.

(** Whatever a file of the list held is forgotten by [reset]. *)
Lemma reset_tamper l m path content n :
  CreateFile path content ∈ l →
  reset l (<[resolve wd path := n]> m) = reset l m.
Proof.
  revert m. induction l as [|c l IH]; intros m Hin.
  - by apply elem_of_nil in Hin.
  - simpl. destruct c as [name | path' content']; simpl.
    + apply IH. apply elem_of_cons in Hin as [|]; [done | done].
    + destruct (decide (resolve wd path' = resolve wd path)) as [Heq|Hne].
      * by rewrite Heq, insert_insert_eq.
      * rewrite insert_insert_ne by done. apply IH.
        apply elem_of_cons in Hin as [[= -> ->]|]; [done | done].
Qed.
End Calls.

(** ** The recursion of [os.makedirs] terminates within its fuel *)

Lemma length_take_le i p : (String.length (PyStr.take i p) ≤ i)%nat.
Proof.
  revert p. induction i as [|i IH]; intros [|c r]; simpl; try lia.
  specialize (IH r). lia.
Qed.

Lemma length_take_le_length i p :
  (String.length (PyStr.take i p) ≤ String.length p)%nat.
Proof.
  revert p. induction i as [|i IH]; intros [|c r]; simpl; try lia.
  specialize (IH r). lia.
Qed.

Lemma length_rstrip_le s :
  (String.length (PyStr.rstrip_sep s) ≤ String.length s)%nat.
Proof.
  induction s as [|c r IH]; simpl; [lia|].
  destruct (PyStr.rstrip_sep r); [destruct (PyStr.is_sep c)|]; simpl in *; lia.
Qed.

Lemma drop_nonempty i p :
  PyStr.nonempty (PyStr.drop i p) = true → (i < String.length p)%nat.
Proof.
  revert p. induction i as [|i IH]; intros [|c r]; simpl; try done; try lia.
  intros H. specialize (IH r H). lia.
Qed.

Lemma os_path_split_head_le p :
  (String.length (fst (os_path_split p)) ≤ String.length p)%nat.
Proof.
  unfold os_path_split. cbn [fst].
  pose proof (length_take_le_length (PyStr.rfind_sep_succ p) p).
  pose proof (length_rstrip_le (PyStr.take (PyStr.rfind_sep_succ p) p)).
  destruct (_ && _); lia.
Qed.

Lemma os_path_split_head_lt p :
  PyStr.nonempty (snd (os_path_split p)) = true →
  (String.length (fst (os_path_split p)) < String.length p)%nat.
Proof.
  unfold os_path_split. cbn [fst snd]. intros H. apply drop_nonempty in H.
  pose proof (length_take_le (PyStr.rfind_sep_succ p) p).
  pose proof (length_rstrip_le (PyStr.take (PyStr.rfind_sep_succ p) p)).
  destruct (_ && _); lia.
Qed.

Lemma eff_split_head_lt name :
  PyStr.nonempty (snd (eff_split name)) = true →
  (String.length (fst (eff_split name)) < String.length name)%nat.
Proof.
  unfold eff_split. pose proof (os_path_split_head_lt name) as H1.
  pose proof (os_path_split_head_le name) as H2.
  destruct (os_path_split name) as [h t]. cbn [fst snd] in *.
  destruct (PyStr.nonempty t); cbn [negb]; [auto|].
  intros H. apply os_path_split_head_lt in H. lia.
Qed.

(** Computations that raise nothing but [OSError]s. *)
Definition os_only {A} (m : M A) : Prop :=
  ∀ s e s', m s = (Raise e, s') → is_OSError e = true.

Lemma os_only_ret {A} (a : A) : os_only (ret a).
Proof. intros s e s' [=]. Qed.

Lemma os_only_raise {A} e : is_OSError e = true → os_only (@raise A e).
Proof. by intros He s e' s' [= <- _]. Qed.

Lemma os_only_bind {A B} (m : M A) (f : A → M B) :
  os_only m → (∀ a, os_only (f a)) → os_only (bind m f).
Proof.
  intros Hm Hf s e s' H. apply bind_Raise in H as [H | (a & s1 & _ & H)].
  - by eapply Hm.
  - by eapply Hf.
Qed.

Lemma os_only_catch {A} (m : M A) (h : exn → M A) :
  os_only m → (∀ e, is_OSError e = true → os_only (h e)) → os_only (catch m h).
Proof.
  intros Hm Hh s e s'. unfold catch.
  destruct (m s) as [[a|e1] s1] eqn:E; [done|].
  intros H. eapply Hh; [|exact H]. by eapply Hm.
Qed.

Lemma os_only_for {A} (l : list A) (body : A → M unit) :
  (∀ x, os_only (body x)) → os_only (for_ l body).
Proof.
  intros Hb. induction l as [|x l IH]; simpl.
  - apply os_only_ret.
  - apply os_only_bind; auto.
Qed.

Lemma os_only_sys_stat p : os_only (sys_stat p).
Proof.
  intros s e s' H. apply sys_stat_inv in H as (fl & _ & _ & _ & He). auto.
Qed.

Lemma os_only_os_mkdir p : os_only (os_mkdir p).
Proof.
  intros s e s' H.
  by apply os_mkdir_inv in H as (fl & _ & [[_ [e' [= ->]]] | [[=] _]]).
Qed.

Lemma os_only_write_file p c : os_only (write_file p c).
Proof.
  intros s e s' H.
  apply write_file_inv in H as (fl & _ & [[_ [e' [= ->]]] | H]); [done|].
  by destruct H as (c' & [[_ [e' [= ->]]] | [_ [=]]] & _).
Qed.

Lemma os_only_exists p : os_only (os_path_exists p).
Proof.
  intros s e s' H. by apply os_path_exists_inv in H as (fl & d & [=] & _).
Qed.

Lemma os_only_isdir p : os_only (os_path_isdir p).
Proof.
  intros s e s' H. by apply os_path_isdir_inv in H as (fl & d & [=] & _).
Qed.

Lemma os_only_makedirs_rec fuel name exist_ok :
  (String.length name < fuel)%nat → os_only (makedirs_rec fuel name exist_ok).
Proof.
  revert name. induction fuel as [|fuel IH]; intros name Hlen; [lia|].
  rewrite makedirs_rec_S. pose proof (eff_split_head_lt name) as Hlt.
  destruct (eff_split name) as [h t]. cbn [fst snd] in Hlt.
  apply os_only_bind.
  - destruct (PyStr.nonempty h && PyStr.nonempty t) eqn:Eht;
      [|apply os_only_ret].
    apply andb_prop in Eht as [_ Et]. specialize (Hlt Et).
    apply os_only_bind; [apply os_only_exists | intros ex].
    destruct (negb ex); [|apply os_only_ret].
    apply os_only_bind; [|intros _; apply os_only_ret].
    apply os_only_catch; [apply IH; lia|].
    intros e He. destruct (is_FileExistsError e);
      [apply os_only_ret | by apply os_only_raise].
  - intros early. destruct early; [apply os_only_ret|].
    apply os_only_catch; [apply os_only_os_mkdir|].
    intros e He. rewrite He. destruct (negb exist_ok);
      [by apply os_only_raise|].
    apply os_only_bind; [apply os_only_isdir | intros d].
    destruct (negb d); [by apply os_only_raise | apply os_only_ret].
Qed.

(** [os.makedirs] never runs out of fuel: it raises [OSError]s only. *)
Lemma os_only_os_makedirs name exist_ok : os_only (os_makedirs name exist_ok).
Proof.
  unfold os_makedirs. apply os_only_bind; [by intros s e s' [=]|].
  intros _. apply os_only_makedirs_rec. lia.
Qed.

Lemma os_only_do_call c : os_only (do_call c).
Proof.
  destruct c as [name | path content]; simpl.
  - apply os_only_os_makedirs.
  - unfold create_file. apply os_only_bind; [by intros s e s' [=]|].
    intros _. apply os_only_bind; [apply os_only_os_makedirs|].
    intros _. apply os_only_write_file.
Qed.

(** ** The ghost fields do not influence a run *)

Definition sim (s1 s2 : state) : Prop :=
  fs s1 = fs s2 ∧ cwd s1 = cwd s2 ∧ faults s1 = faults s2.

Definition respects {A} (m : M A) : Prop :=
  ∀ s1 s2, sim s1 s2 →
           fst (m s1) = fst (m s2) ∧ sim (snd (m s1)) (snd (m s2)).

Lemma respects_ret {A} (a : A) : respects (ret a).
Proof. intros s1 s2 H. done. Qed.

Lemma respects_raise {A} e : respects (@raise A e).
Proof. intros s1 s2 H. done. Qed.

Lemma respects_bind {A B} (m : M A) (f : A → M B) :
  respects m → (∀ a, respects (f a)) → respects (bind m f).
Proof.
  intros Hm Hf s1 s2 H. unfold bind. destruct (Hm _ _ H) as [Hr Hs].
  destruct (m s1) as [[a1|e1] t1], (m s2) as [[a2|e2] t2]; simpl in *;
    try discriminate.
  - injection Hr as ->. by apply Hf.
  - by injection Hr as ->.
Qed.

Lemma respects_catch {A} (m : M A) (h : exn → M A) :
  respects m → (∀ e, respects (h e)) → respects (catch m h).
Proof.
  intros Hm Hh s1 s2 H. unfold catch. destruct (Hm _ _ H) as [Hr Hs].
  destruct (m s1) as [[a1|e1] t1], (m s2) as [[a2|e2] t2]; simpl in *;
    try discriminate.
  - by injection Hr as ->.
  - injection Hr as ->. by apply Hh.
Qed.

Lemma respects_for {A} (l : list A) (body : A → M unit) :
  (∀ x, respects (body x)) → respects (for_ l body).
Proof.
  intros Hb. induction l as [|x l IH]; simpl.
  - apply respects_ret.
  - apply respects_bind; auto.
Qed.

Ltac respects_prim :=
  intros [m1 w1 f1 c1 o1] [m2 w2 f2 c2 o2] (H1 & H2 & H3);
  simpl in H1, H2, H3; subst;
  unfold sim, bind, pop_fault, set_fs, set_faults, add_call; simpl;
  try match goal with
      | f : list (option errno) |- _ => destruct f as [|[?|] ?]; simpl
      end;
  repeat case_match; simpl; auto.

Lemma respects_sys_stat p : respects (sys_stat p).
Proof. unfold sys_stat. respects_prim. Qed.

Lemma respects_os_mkdir p : respects (os_mkdir p).
Proof. unfold os_mkdir. respects_prim. Qed.

Lemma respects_open_w p : respects (open_w p).
Proof. unfold open_w. respects_prim. Qed.

Lemma respects_file_write f c : respects (file_write f c).
Proof. unfold file_write. respects_prim. Qed.

Lemma respects_log e : respects (λ s, (Ok tt, add_call e s)).
Proof. respects_prim. Qed.

Lemma respects_makedirs_rec fuel name exist_ok :
  respects (makedirs_rec fuel name exist_ok).
Proof.
  revert name. induction fuel as [|fuel IH]; intros name.
  - apply respects_raise.
  - rewrite makedirs_rec_S. destruct (eff_split name) as [h t].
    apply respects_bind.
    + destruct (_ && _); [|apply respects_ret].
      apply respects_bind; [|intros ex].
      { apply respects_catch; [|intros e; destruct (is_OSError e)];
          [|apply respects_ret|apply respects_raise].
        apply respects_bind; [apply respects_sys_stat | intros _].
        apply respects_ret. }
      destruct (negb ex); [|apply respects_ret].
      apply respects_bind; [|intros _; apply respects_ret].
      apply respects_catch; [apply IH|].
      intros e. destruct (is_FileExistsError e);
        [apply respects_ret | apply respects_raise].
    + intros early. destruct early; [apply respects_ret|].
      apply respects_catch; [apply respects_os_mkdir|].
      intros e. destruct (is_OSError e); [|apply respects_raise].
      destruct (negb exist_ok); [apply respects_raise|].
      apply respects_bind; [|intros d].
      { apply respects_catch; [|intros e'; destruct (is_OSError e')];
          [|apply respects_ret|apply respects_raise].
        apply respects_bind; [apply respects_sys_stat | intros n].
        apply respects_ret. }
      destruct (negb d); [apply respects_raise | apply respects_ret].
Qed.

Lemma respects_do_call c : respects (do_call c).
Proof.
  destruct c as [name | path content]; simpl.
  - apply respects_bind; [apply respects_log | intros _].
    apply respects_makedirs_rec.
  - apply respects_bind; [apply respects_log | intros _].
    apply respects_bind; [|intros _].
    + apply respects_bind; [apply respects_log | intros _].
      apply respects_makedirs_rec.
    + apply respects_bind; [apply respects_open_w | intros f].
      apply respects_file_write.
Qed.

(** * The script's runs *)

#[local] Instance node_eq_dec : EqDecision node.
Proof. solve_decision. Defined.

#[local] Instance call_eq_dec : EqDecision call.
Proof. solve_decision. Defined.

#[local] Instance event_eq_dec : EqDecision event.
Proof. solve_decision. Defined.

(** The directories the literal tables list, under [base_dir]: the parent
    of [root_files], [public_dirs], [src_dirs], [data], [docs],
    [test_dirs]. *)
Definition listed_dirs : list string :=
  base_dir
  :: map (os_path_join base_dir)
         (public_dirs ++ src_dirs ++ ["data"; "docs"] ++ test_dirs).

(** The files the literal tables list, under [base_dir], each with its
    content. *)
Definition listed_files : list (string * string) :=
  map (λ f, (os_path_join base_dir f, default_content)) root_files
  ++ map (λ '(f, c), (os_path_join base_dir f, c)) (public_files ++ src_files)
  ++ [(os_path_join base_dir "data/presale-pricing.json", "")]
  ++ map (λ f, (os_path_join base_dir f, default_content)) docs_files.

Lemma listed_dirs_plan d : d ∈ listed_dirs → d ∈ dir_names plan.
Proof.
  assert (Forall (λ d, d ∈ dir_names plan) listed_dirs) as H.
  { apply (bool_decide_eq_true_1 _). vm_compute. reflexivity. }
  rewrite Forall_forall in H. apply H.
Qed.

Lemma listed_files_plan p c : (p, c) ∈ listed_files → CreateFile p c ∈ plan.
Proof.
  assert (Forall (λ pc, CreateFile pc.1 pc.2 ∈ plan) listed_files) as H.
  { apply (bool_decide_eq_true_1 _). vm_compute. reflexivity. }
  rewrite Forall_forall in H. apply (H (p, c)).
Qed.

Lemma plan_file_keys_NoDup wd : NoDup (file_keys wd plan).
Proof.
  unfold file_keys.
  assert (map (resolve wd) (file_paths plan)
          = map (app wd) (map PyStr.split_sep (file_paths plan))) as ->.
  { rewrite map_map. apply map_ext_in. intros p Hp. apply resolve_clean.
    assert (forallb clean (file_paths plan) = true) as H
        by (vm_compute; reflexivity).
    rewrite forallb_forall in H. by apply H. }
  apply (NoDup_fmap_2 (app wd)). apply plan_files_NoDup.
Qed.

Lemma dir_names_done wd l m d :
  d ∈ dir_names l → (∀ c, c ∈ l → call_done wd c m) →
  fs_lookup m (resolve wd d) = Some Dir.
Proof.
  intros Hd Hl. unfold dir_names in Hd.
  apply list_elem_of_In, in_flat_map in Hd as (c & Hc & Hd).
  apply list_elem_of_In in Hc. specialize (Hl c Hc).
  destruct c as [name | path content]; simpl in *.
  - by destruct Hd as [<- | []].
  - destruct Hd as [<- | []]. tauto.
Qed.

(** After a successful run every call of the plan has had its effect. *)
Lemma run_done s s' :
  create_directory_structure s = (Ok tt, s') →
  cwd s' = cwd s ∧ ∀ c, c ∈ plan → call_done (cwd s') c (fs s').
Proof.
  rewrite create_directory_structure_plan. intros H.
  pose proof (evolves_calls _ _ _ _ H) as He.
  split; [apply (ev_cwd _ _ He)|]. rewrite (ev_cwd _ _ He).
  eapply calls_post; [apply plan_good_call | apply plan_file_keys_NoDup
                     | reflexivity | exact H].
Qed.

Abbreviation final_state := (snd (create_directory_structure init_state)).

Lemma run_result {A} (x : outcome A * state) (a : A) :
  fst x = Ok a → x = (Ok a, snd x).
Proof. destruct x as [r s]. simpl. by intros ->. Qed.

(** C1. After a successful run of [create_directory_structure], every
    directory the literal tables list (the parent of [root_files],
    [public_dirs], [src_dirs], [data], [docs], [test_dirs]) exists as a
    directory, and every listed file exists as a regular file whose content
    is exactly the content of its table entry. *)
Theorem C1_tree_materialised s s' :
  create_directory_structure s = (Ok tt, s') →
  (∀ d, d ∈ listed_dirs →
        fs_lookup (fs s') (resolve (cwd s') d) = Some Dir)
  ∧ (∀ p c, (p, c) ∈ listed_files →
            fs s' !! resolve (cwd s') p = Some (File c)).
Proof.
  intros H. apply run_done in H as [_ Hdone]. split.
  - intros d Hd. eapply dir_names_done; [|exact Hdone].
    by apply listed_dirs_plan.
  - intros p c Hpc. apply listed_files_plan in Hpc.
    by destruct (Hdone _ Hpc).
Qed.

Lemma C1_witness :
  (∀ d, d ∈ listed_dirs →
        fs_lookup (fs final_state) (resolve (cwd final_state) d) = Some Dir)
  ∧ (∀ p c, (p, c) ∈ listed_files →
            fs final_state !! resolve (cwd final_state) p = Some (File c)).
Proof.
  refine (C1_tree_materialised init_state final_state _).
  refine (run_result _ _ _). vm_compute. reflexivity.
Defined.

(** A run in a namespace that already holds the tree, without injected
    faults. *)
Lemma run_steady s :
  faults s = [] → wf (fs s) →
  (∀ c, c ∈ plan → call_shape (cwd s) c (fs s)) →
  ∃ s', create_directory_structure s = (Ok tt, s')
        ∧ fs s' = reset (cwd s) plan (fs s) ∧ faults s' = [] ∧ cwd s' = cwd s.
Proof.
  intros Hf Hwf Hsh.
  destruct (calls_steady (cwd s) plan s) as (s' & H & Hfs & Hf');
    auto using plan_good_call.
  exists s'. rewrite create_directory_structure_plan.
  repeat split; try done. apply (ev_cwd _ _ (evolves_calls _ _ _ _ H)).
Qed.

Lemma run_wf s r s' :
  create_directory_structure s = (r, s') → wf (fs s) → wf (fs s').
Proof.
  rewrite create_directory_structure_plan. intros H.
  apply (ev_wf _ _ (evolves_calls _ _ _ _ H)).
Qed.

(** A namespace holding the root directory of the tree and nothing else. *)
Definition root_only_state : state :=
  State {[ [base_dir] := Dir ]} [] [] [] [].

(** An out-of-band edit: the file at [k] now holds [c0]. *)
Definition tamper (k : list string) (c0 : string) (s : state) : state :=
  set_fs (<[k := File c0]> (fs s)) s.

(** C2. [create_file] overwrites: after a successful call the file holds
    exactly the content passed, whatever it held before.  So after a
    successful run every generated file holds its literal default, whatever
    the file held when the run began; and when a generated file has been
    modified between two runs, the second run, absent injected faults,
    succeeds and puts the namespace back exactly as the first run left
    it. *)
Theorem C2_rerun_reverts_edits :
  (∀ path content s s',
     create_file path content s = (Ok tt, s') →
     fs s' !! resolve (cwd s') path = Some (File content))
  ∧ (∀ s p c c0 s',
       (p, c) ∈ listed_files →
       create_directory_structure (tamper (resolve (cwd s) p) c0 s)
       = (Ok tt, s') →
       fs s' !! resolve (cwd s) p = Some (File c))
  ∧ (∀ s s1 p c c0,
       wf (fs s) →
       create_directory_structure s = (Ok tt, s1) →
       faults s1 = [] →
       (p, c) ∈ listed_files →
       ∃ s2, create_directory_structure (tamper (resolve (cwd s1) p) c0 s1)
             = (Ok tt, s2)
             ∧ fs s2 !! resolve (cwd s1) p = Some (File c)
             ∧ fs s2 = fs s1).
Proof.
  split; [apply create_file_post|]. split.
  { intros s p c c0 s' Hpc H. apply run_done in H as [Hwd Hdone].
    apply listed_files_plan in Hpc. destruct (Hdone _ Hpc) as [Hf _].
    by rewrite Hwd in Hf. }
  intros s s1 p c c0 Hwf H Hf Hpc.
  pose proof (run_wf _ _ _ H Hwf) as Hwf1.
  apply run_done in H as [Hwd Hdone].
  apply listed_files_plan in Hpc.
  destruct (Hdone _ Hpc) as [Hfile Hdir]. set (k := resolve (cwd s1) p) in *.
  assert (fs s1 !! k ≠ Some Dir) as HnD by congruence.
  destruct (run_steady (tamper k c0 s1)) as (s2 & H2 & Hfs2 & _).
  - exact Hf.
  - apply wf_insert; [done | | by left]. exact (Hwf1 _ _ Hfile).
  - intros c' Hc'.
    apply (call_shape_evolves (cwd s1) c' s1 (tamper k c0 s1)).
    + apply set_fs_insert_evolves; [exact (Hwf1 _ _ Hfile) | right; done].
    + apply call_done_shape, Hdone, Hc'.
  - unfold tamper, set_fs in Hfs2. cbn [fs cwd] in Hfs2. unfold k in Hfs2.
    rewrite (reset_tamper _ _ _ _ c _ Hpc) in Hfs2.
    rewrite (reset_id _ _ _ Hdone) in Hfs2.
    exists s2. rewrite Hfs2. done.
Qed.

(** A namespace in which [README.md] under the root already holds text. *)
Definition edited_state : state :=
  tamper (resolve [] "wattschain-mlm-platform/README.md") "my notes"
         root_only_state.

Lemma C2_witness :
  fs (snd (create_directory_structure edited_state))
    !! resolve [] "wattschain-mlm-platform/README.md"
  = Some (File "")
  ∧ ∃ s2,
      create_directory_structure
        (tamper (resolve (cwd final_state) "wattschain-mlm-platform/README.md")
                "edited by hand" final_state)
      = (Ok tt, s2)
      ∧ fs s2 !! resolve (cwd final_state) "wattschain-mlm-platform/README.md"
        = Some (File "")
      ∧ fs s2 = fs final_state.
Proof.
  split.
  - refine (proj1 (proj2 C2_rerun_reverts_edits) root_only_state
              "wattschain-mlm-platform/README.md" "" "my notes" _ _ _).
    + apply (bool_decide_eq_true_1 _). vm_compute. reflexivity.
    + refine (run_result _ _ _). vm_compute. reflexivity.
  - refine (proj2 (proj2 C2_rerun_reverts_edits) init_state final_state
              "wattschain-mlm-platform/README.md" "" "edited by hand"
              _ _ _ _).
    + vm_compute. by intros ?? [=].
    + refine (run_result _ _ _). vm_compute. reflexivity.
    + vm_compute. reflexivity.
    + apply (bool_decide_eq_true_1 _). vm_compute. reflexivity.
Defined.

(** ** A second run changes nothing *)

(** The names a call may hand to [os.mkdir]. *)
Definition call_chain (c : call) : list string :=
  match c with
  | Makedirs name => makedirs_chain name
  | CreateFile path _ => makedirs_chain (os_path_dirname path)
  end.

Definition call_dir (c : call) : string :=
  match c with
  | Makedirs name => name
  | CreateFile path _ => os_path_dirname path
  end.

(** Every name of the chain of a call is a clean path leading to the
    directory of the call. *)
Definition chain_leads (c : call) : bool :=
  forallb (λ q, clean q
                && bool_decide (PyStr.split_sep q
                                  `prefix_of` PyStr.split_sep (call_dir c)))
          (call_chain c).

Lemma plan_chain_leads : forallb chain_leads plan = true.
Proof. vm_compute. reflexivity. Qed.

Lemma plan_contents_empty : Forall (λ pc, pc.2 = "") (created_files plan).
Proof. apply (bool_decide_eq_true_1 _). vm_compute. reflexivity. Qed.

Lemma elem_of_created_files path content l :
  CreateFile path content ∈ l → (path, content) ∈ created_files l.
Proof.
  intros H. unfold created_files. apply list_elem_of_In, in_flat_map.
  exists (CreateFile path content). split; [by apply list_elem_of_In|].
  by left.
Qed.

Lemma created_files_elem_of path content l :
  (path, content) ∈ created_files l → CreateFile path content ∈ l.
Proof.
  intros H. unfold created_files in H.
  apply list_elem_of_In, in_flat_map in H as (c & Hc & H).
  apply list_elem_of_In in Hc. destruct c; [done|].
  by destruct H as [[= <- <-] | []].
Qed.

Lemma wf_ancestor m k l n :
  wf m → l ≠ [] → fs_lookup m (k ++ l) = Some n → fs_lookup m k = Some Dir.
Proof.
  intros Hwf. revert n. induction l as [|x l IH] using rev_ind; [done|].
  intros n _ H. apply (wf_parent _ _ _ Hwf) in H.
  unfold parent in H. rewrite app_assoc, removelast_last in H.
  destruct l as [|y l]; [by rewrite app_nil_r in H|].
  by apply (IH Dir).
Qed.

Section Unchanged.
Context (wd : list string) (D : list string) (F : list (string * string)).

(** The namespace holds the directories named in [D] and, empty, the files
    named in [F]. *)
Definition settled (m : gmap (list string) node) : Prop :=
  (∀ q, q ∈ D → fs_lookup m (resolve wd q) = Some Dir)
  ∧ (∀ p c, (p, c) ∈ F → m !! resolve wd p = Some (File "")).

Definition unchanged (s s' : state) : Prop :=
  cwd s = wd → settled (fs s) → cwd s' = wd ∧ fs s' = fs s.

#[local] Instance unchanged_preorder : PreOrder unchanged.
Proof.
  split.
  - by intros s ??.
  - intros s1 s2 s3 H12 H23 Hwd Hs. destruct (H12 Hwd Hs) as [Hwd2 Hfs2].
    rewrite <- Hfs2 in Hs. destruct (H23 Hwd2 Hs) as [Hwd3 Hfs3].
    split; [done | congruence].
Qed.

Lemma unchanged_sys_stat p : preserves unchanged (sys_stat p).
Proof. intros s r s' H. by apply sys_stat_inv in H as (fl & -> & _). Qed.

Lemma unchanged_os_mkdir p : p ∈ D → preserves unchanged (os_mkdir p).
Proof.
  intros Hp s r s' H.
  apply os_mkdir_inv in H as (fl & _ & [[-> _] | H]); [done|].
  destruct H as (_ & _ & _ & Hnone & _). intros Hwd [Hd _].
  rewrite Hwd, (Hd p Hp) in Hnone. discriminate.
Qed.

Lemma unchanged_write_file p c :
  (p, c) ∈ F ∧ c = "" → preserves unchanged (write_file p c).
Proof.
  intros [Hpc ->] s r s' H.
  apply write_file_inv in H as (fl & _ & [[-> _] | H]); [done|].
  destruct H as (c' & Hc' & -> & _). intros Hwd [_ Hf]. split; [done|].
  simpl. rewrite Hwd. apply insert_id. rewrite (Hf p "" Hpc).
  by destruct Hc' as [[-> _] | [-> _]].
Qed.

Lemma unchanged_add_call e s : unchanged s (add_call e s).
Proof. by intros ??. Qed.

Lemma unchanged_os_makedirs name :
  Forall (λ q, q ∈ D) (makedirs_chain name) →
  preserves unchanged (os_makedirs name true).
Proof.
  apply lift_os_makedirs; try apply _;
    auto using unchanged_sys_stat, unchanged_os_mkdir, unchanged_add_call.
Qed.

Lemma unchanged_calls l :
  Forall (call_ok (λ q, q ∈ D) (λ p c, (p, c) ∈ F ∧ c = "")) l →
  preserves unchanged (for_ l do_call).
Proof.
  apply lift_calls; try apply _;
    auto using unchanged_sys_stat, unchanged_os_mkdir, unchanged_write_file,
      unchanged_add_call.
Qed.
End Unchanged.

(** Every name [os.makedirs] may visit on the way to a directory of the
    plan is a directory once that directory exists. *)
Lemma chain_settled wd m c :
  wf m → c ∈ plan →
  fs_lookup m (resolve wd (call_dir c)) = Some Dir →
  ∀ q, q ∈ call_chain c → fs_lookup m (resolve wd q) = Some Dir.
Proof.
  intros Hwf Hc Hd q Hq.
  assert (clean (call_dir c) = true) as Hcl.
  { apply plan_good_call in Hc.
    destruct c as [n | path content]; cbn [good_call call_dir] in *.
    - by apply good_dir_clean.
    - do 4 (apply andb_prop in Hc as [Hc _]). by apply good_dir_clean. }
  pose proof plan_chain_leads as Hl. rewrite forallb_forall in Hl.
  apply list_elem_of_In, Hl in Hc. unfold chain_leads in Hc.
  rewrite forallb_forall in Hc. apply list_elem_of_In, Hc in Hq.
  apply andb_prop in Hq as [Hq Hpre].
  apply bool_decide_eq_true_1 in Hpre as [rest Hrest].
  rewrite resolve_clean in Hd |- * by done. rewrite Hrest in Hd.
  destruct rest as [|x rest]; [by rewrite app_nil_r in Hd|].
  rewrite app_assoc in Hd. by apply (wf_ancestor m _ (x :: rest) Dir).
Qed.

Definition plan_chain : list string := flat_map call_chain plan.

Lemma elem_of_plan_chain q :
  q ∈ plan_chain ↔ ∃ c, c ∈ plan ∧ q ∈ call_chain c.
Proof.
  unfold plan_chain. rewrite list_elem_of_In, in_flat_map.
  split; intros (c & Hc & Hq); exists c;
    by rewrite ?list_elem_of_In in *.
Qed.

(** After a successful run in a well-formed namespace, the namespace is
    settled. *)
Lemma done_settled wd m :
  wf m → (∀ c, c ∈ plan → call_done wd c m) →
  settled wd plan_chain (created_files plan) m.
Proof.
  intros Hwf Hdone. split.
  - intros q Hq. apply elem_of_plan_chain in Hq as (c & Hc & Hq).
    eapply chain_settled; [done | exact Hc | | exact Hq].
    specialize (Hdone c Hc). destruct c; simpl in *; tauto.
  - intros p c Hpc.
    pose proof plan_contents_empty as HF. rewrite Forall_forall in HF.
    pose proof (HF _ Hpc) as Hc. simpl in Hc. subst c.
    apply created_files_elem_of in Hpc. by destruct (Hdone _ Hpc).
Qed.

(** In a settled namespace a run changes nothing, whatever faults are
    injected and whether or not it fails. *)
Lemma unchanged_plan wd :
  preserves (unchanged wd plan_chain (created_files plan))
            (for_ plan do_call).
Proof.
  apply unchanged_calls. apply Forall_forall. intros c Hc.
  assert (Forall (λ q, q ∈ plan_chain) (call_chain c)) as HF.
  { apply Forall_forall. intros q Hq. apply elem_of_plan_chain. eauto. }
  destruct c as [name | path content]; cbn [call_ok call_chain] in *;
    [done|].
  split; [done|]. split; [by apply elem_of_created_files|].
  pose proof plan_contents_empty as HE. rewrite Forall_forall in HE.
  by apply (HE (path, content)), elem_of_created_files.
Qed.

(** C4. Directory creation is idempotent.  [os.makedirs(name,
    exist_ok=True)] on a directory of the tree that already exists changes
    nothing on disk, and succeeds unless the environment injects a fault;
    and a second run after a successful one leaves the namespace, hence
    its set of directories, exactly as the first run left it, and succeeds
    unless the environment injects a fault. *)
Theorem C4_directories_idempotent :
  (∀ s name r s',
     name ∈ dir_names plan →
     wf (fs s) →
     fs_lookup (fs s) (resolve (cwd s) name) = Some Dir →
     os_makedirs name true s = (r, s') →
     fs s' = fs s ∧ (faults s = [] → r = Ok tt))
  ∧ (∀ s s1 r s2,
       wf (fs s) →
       create_directory_structure s = (Ok tt, s1) →
       create_directory_structure s1 = (r, s2) →
       fs s2 = fs s1 ∧ (faults s1 = [] → r = Ok tt)).
Proof.
  split.
  - intros s name r s' Hn Hwf Hd H.
    assert (∃ c, c ∈ plan ∧ call_dir c = name) as (c & Hc & <-).
    { unfold dir_names in Hn.
      apply list_elem_of_In, in_flat_map in Hn as (c & Hc & Hn).
      exists c. split; [by apply list_elem_of_In|].
      by destruct c; destruct Hn as [<- | []]. }
    assert (good_dir (call_dir c) = true) as Hg.
    { apply plan_good_call in Hc.
      destruct c as [n | path content]; cbn [good_call call_dir] in *;
        [done|]. by do 4 (apply andb_prop in Hc as [Hc _]). }
    split.
    + assert (Forall (λ q, q ∈ call_chain c)
                     (makedirs_chain (call_dir c))) as HF.
      { apply Forall_forall. intros q Hq. by destruct c. }
      assert (settled (cwd s) (call_chain c) [] (fs s)) as Hs.
      { split; [|intros ?? []%elem_of_nil]. by apply chain_settled. }
      by destruct (unchanged_os_makedirs (cwd s) (call_chain c) [] _ HF
                     _ _ _ H eq_refl Hs).
    + intros Hf.
      destruct (do_call_steady (cwd s) (Makedirs (call_dir c)) s)
        as (s2 & H2 & _); try done.
      cbn [do_call] in H2. congruence.
  - intros s s1 r s2 Hwf H1 H2.
    pose proof (run_wf _ _ _ H1 Hwf) as Hwf1.
    apply run_done in H1 as [Hwd Hdone]. split.
    + rewrite create_directory_structure_plan in H2.
      pose proof (done_settled (cwd s1) (fs s1) Hwf1 Hdone) as Hs.
      by destruct (unchanged_plan (cwd s1) _ _ _ H2 eq_refl Hs).
    + intros Hf. destruct (run_steady s1) as (s3 & H3 & _); try done.
      * intros c Hc. by apply call_done_shape, Hdone.
      * congruence.
Qed.

Lemma C4_witness :
  (fs (snd (os_makedirs "wattschain-mlm-platform" true root_only_state))
   = fs root_only_state
   ∧ (faults root_only_state = [] →
      fst (os_makedirs "wattschain-mlm-platform" true root_only_state)
      = Ok tt))
  ∧ (fs (snd (create_directory_structure final_state)) = fs final_state
     ∧ (faults final_state = [] →
        fst (create_directory_structure final_state) = Ok tt)).
Proof.
  split.
  - refine (proj1 C4_directories_idempotent root_only_state
              "wattschain-mlm-platform" _ _ _ _ _ _).
    + apply (bool_decide_eq_true_1 _). vm_compute. reflexivity.
    + apply (bool_decide_eq_true_1 _). vm_compute. reflexivity.
    + vm_compute. reflexivity.
    + apply surjective_pairing.
  - refine (proj2 C4_directories_idempotent init_state final_state _ _ _ _ _).
    + vm_compute. by intros ?? [=].
    + refine (run_result _ _ _). vm_compute. reflexivity.
    + apply surjective_pairing.
Defined.

(** ** The order of the calls *)

(** Whatever the outcome, the calls made are a prefix of the list, each
    recorded with all its events; on success they are the whole list. *)
Lemma for_calls_prefix l s r s' :
  for_ l do_call s = (r, s') →
  ∃ l', l' `prefix_of` l
        ∧ calls s' = calls s ++ concat (map events_of l')
        ∧ (r = Ok tt → l' = l).
Proof.
  revert s. induction l as [|c l IH]; intros s; simpl.
  - intros [= <- <-]. exists []. by rewrite app_nil_r.
  - unfold bind. destruct (do_call c s) as [[[]|e] s1] eqn:E;
      apply do_call_calls in E.
    + intros H. destruct (IH _ H) as (l' & Hpre & Hcalls & Hok).
      exists (c :: l'). split; [by apply prefix_cons|]. split.
      * rewrite Hcalls, E. simpl. by rewrite <- app_assoc.
      * intros Hr. by rewrite Hok.
    + intros [= <- <-]. exists [c]. split; [|split; [|done]].
      * apply prefix_cons, prefix_nil.
      * simpl. by rewrite app_nil_r.
Qed.

(** The calls a table of directories, a table of files with contents and a
    table of files with the default content give rise to. *)
Definition dirs_of (tbl : list string) : list call :=
  map (λ d, Makedirs (os_path_join base_dir d)) tbl.
Definition files_of (tbl : list (string * string)) : list call :=
  map (λ '(f, c), CreateFile (os_path_join base_dir f) c) tbl.
Definition default_files_of (tbl : list string) : list call :=
  map (λ f, CreateFile (os_path_join base_dir f) default_content) tbl.

(** The directory tables of the script, under [base_dir]. *)
Definition table_dirs : list string :=
  map (os_path_join base_dir) (public_dirs ++ src_dirs ++ ["data"] ++ test_dirs).

(** "All directories, then all files": no file-creation call comes before a
    directory-creation call for a directory of the tables. *)
Definition dirs_before_files (log : list event) : Prop :=
  ∀ i j p c d,
    log !! i = Some (EvCreateFile p c) →
    log !! j = Some (EvMakedirs d) →
    d ∈ table_dirs →
    (j < i)%nat.

(** C3, as stated, fails: in the run from the empty namespace the file
    [README.md] is created (second call) before the directory
    [public/images/payment-methods] (fourteenth call). *)
Lemma C3_counterexample :
  fst (create_directory_structure init_state) = Ok tt
  ∧ ¬ dirs_before_files (calls final_state).
Proof.
  split; [vm_compute; reflexivity|].
  intros H.
  specialize (H 1%nat 25%nat "wattschain-mlm-platform/README.md" ""
                "wattschain-mlm-platform/public/images/payment-methods").
  assert (25 < 1)%nat; [|lia].
  apply H.
  - vm_compute. reflexivity.
  - vm_compute. reflexivity.
  - apply (bool_decide_eq_true_1 _). vm_compute. reflexivity.
Qed.

(** C3, amended.  A successful run makes its calls in source order: the
    root first, then section by section -- the root files; the public
    directories, then the public files; the src directories, then the src
    files; the data directory, then its file; the docs files; the tests
    directories -- each table in the order supplied. *)
Theorem C3_section_order s s' :
  create_directory_structure s = (Ok tt, s') →
  calls s' =
  calls s ++ concat (map events_of
    ([Makedirs base_dir]
     ++ default_files_of root_files
     ++ dirs_of public_dirs ++ files_of public_files
     ++ dirs_of src_dirs ++ files_of src_files
     ++ [Makedirs (os_path_join base_dir "data")]
     ++ [CreateFile (os_path_join base_dir "data/presale-pricing.json") ""]
     ++ default_files_of docs_files
     ++ dirs_of test_dirs)).
Proof.
  rewrite create_directory_structure_plan. intros H.
  apply for_calls_Ok in H. rewrite H. reflexivity.
Qed.

Lemma C3_witness :
  calls final_state =
  calls init_state ++ concat (map events_of
    ([Makedirs base_dir]
     ++ default_files_of root_files
     ++ dirs_of public_dirs ++ files_of public_files
     ++ dirs_of src_dirs ++ files_of src_files
     ++ [Makedirs (os_path_join base_dir "data")]
     ++ [CreateFile (os_path_join base_dir "data/presale-pricing.json") ""]
     ++ default_files_of docs_files
     ++ dirs_of test_dirs)).
Proof.
  refine (C3_section_order init_state final_state _).
  refine (run_result _ _ _). vm_compute. reflexivity.
Defined.

(** C5. Every file the script creates is zero-byte: every content in the
    file tables is the empty string, so is the default of [create_file]'s
    [content] argument, hence so is the content of every [create_file]
    call; and after a successful run every listed file is empty on disk. *)
Theorem C5_files_zero_byte :
  Forall (λ fc, fc.2 = "") (public_files ++ src_files)
  ∧ default_content = ""
  ∧ Forall (λ pc, String.length pc.2 = 0%nat) (created_files plan)
  ∧ (∀ s s' p c,
       create_directory_structure s = (Ok tt, s') →
       (p, c) ∈ listed_files →
       fs s' !! resolve (cwd s') p = Some (File "")).
Proof.
  split; [|split; [|split]].
  - apply (bool_decide_eq_true_1 _). vm_compute. reflexivity.
  - reflexivity.
  - apply (bool_decide_eq_true_1 _). vm_compute. reflexivity.
  - intros s s' p c H Hpc.
    assert (Forall (λ pc, pc.2 = "") listed_files) as HF
        by (apply (bool_decide_eq_true_1 _); vm_compute; reflexivity).
    rewrite Forall_forall in HF. pose proof (HF _ Hpc) as Hc. simpl in Hc.
    subst c. apply run_done in H as [_ Hdone].
    apply listed_files_plan in Hpc. by destruct (Hdone _ Hpc).
Qed.

Lemma C5_witness :
  fs final_state
    !! resolve (cwd final_state) "wattschain-mlm-platform/src/lib/mlm.ts"
  = Some (File "").
Proof.
  refine (proj2 (proj2 (proj2 C5_files_zero_byte)) init_state final_state
            "wattschain-mlm-platform/src/lib/mlm.ts" "" _ _).
  - refine (run_result _ _ _). vm_compute. reflexivity.
  - apply (bool_decide_eq_true_1 _). vm_compute. reflexivity.
Defined.

(** ** Runs that fail *)

Lemma file_keys_app wd l1 l2 :
  file_keys wd (l1 ++ l2) = file_keys wd l1 ++ file_keys wd l2.
Proof. unfold file_keys, file_paths. by rewrite flat_map_app, map_app. Qed.

Lemma run_Raise_result {A} (x : outcome A * state) (e : exn) :
  fst x = Raise e → x = (Raise e, snd x).
Proof. destruct x as [r s]. simpl. by intros ->. Qed.

(** C6. A filesystem error raised by a call of the run propagates at once
    and unhandled: when the calls before it succeeded and the call raises,
    the run ends with that very error in the state the failing call left,
    and the calls after it are not made.  Conversely every run that raises
    is of this form; nothing is rolled back: every directory and file
    created by the calls before the failing one is still on disk, and
    nothing that was on disk when the failing call began has disappeared.
    The error is an [OSError]. *)
Theorem C6_errors_abort :
  (∀ s done failing rest s1 e s',
     plan = done ++ failing :: rest →
     for_ done do_call s = (Ok tt, s1) →
     do_call failing s1 = (Raise e, s') →
     create_directory_structure s = (Raise e, s'))
  ∧ (∀ s e s',
       create_directory_structure s = (Raise e, s') →
       is_OSError e = true
       ∧ ∃ done failing rest s1,
           plan = done ++ failing :: rest
           ∧ for_ done do_call s = (Ok tt, s1)
           ∧ do_call failing s1 = (Raise e, s')
           ∧ calls s' = calls s ++ concat (map events_of (done ++ [failing]))
           ∧ (∀ d, Makedirs d ∈ done →
                   fs_lookup (fs s') (resolve (cwd s') d) = Some Dir)
           ∧ (∀ p c, CreateFile p c ∈ done →
                     fs s' !! resolve (cwd s') p = Some (File c))
           ∧ (∀ k, fs s1 !! k = Some Dir → fs s' !! k = Some Dir)
           ∧ (∀ k c, fs s1 !! k = Some (File c) →
                     ∃ c', fs s' !! k = Some (File c'))).
Proof.
  split.
  { intros s done failing rest s1 e s' Hplan Hdone Hfail.
    rewrite create_directory_structure_plan, Hplan, for_app.
    unfold bind. rewrite Hdone. cbn [for_]. unfold bind. by rewrite Hfail. }
  intros s e s'.
  rewrite create_directory_structure_plan. intros H.
  apply for_Raise in H as (done & failing & rest & s1 & Hplan & Hdone & Hfail).
  split; [by eapply os_only_do_call|].
  exists done, failing, rest, s1.
  pose proof (evolves_calls _ _ _ _ Hdone) as He1.
  pose proof (evolves_do_call _ _ _ _ Hfail) as He2.
  assert (cwd s' = cwd s) as Hwd
      by (rewrite (ev_cwd _ _ He2); apply (ev_cwd _ _ He1)).
  pose proof (plan_file_keys_NoDup (cwd s)) as Hnd.
  rewrite Hplan, file_keys_app in Hnd.
  apply NoDup_app in Hnd as (Hnd1 & Hnd12 & _).
  assert (∀ c, c ∈ done → call_done (cwd s) c (fs s')) as Hcd.
  { intros c Hc.
    apply (call_done_stable (cwd s) c [failing] s1 (Raise e) s').
    - simpl. unfold bind. by rewrite Hfail.
    - apply (ev_cwd _ _ He1).
    - intros path content -> Hin. apply (Hnd12 (resolve (cwd s) path)).
      + apply list_elem_of_fmap_2. by eapply elem_of_file_paths.
      + change (failing :: rest) with ([failing] ++ rest).
        rewrite file_keys_app. apply elem_of_app. by left.
    - eapply calls_post; [|exact Hnd1|reflexivity|exact Hdone|exact Hc].
      intros c' Hc'. apply plan_good_call. rewrite Hplan.
      apply elem_of_app. by left. }
  repeat split; try done.
  - apply for_calls_Ok in Hdone. apply do_call_calls in Hfail.
    rewrite Hfail, Hdone, map_app, concat_app. simpl.
    by rewrite app_nil_r, <- app_assoc.
  - intros d Hd. rewrite Hwd. exact (Hcd _ Hd).
  - intros p c Hpc. rewrite Hwd. by destruct (Hcd _ Hpc).
  - apply (ev_dir _ _ He2).
  - apply (ev_file _ _ He2).
Qed.

(** A namespace in which [public] under the root is a regular file, so
    that the public directories cannot be created. *)
Definition blocked_state : state :=
  State {[ [base_dir] := Dir; [base_dir; "public"] := File "" ]} [] [] [] [].

Abbreviation blocked_final :=
  (snd (create_directory_structure blocked_state)).

(** A namespace in which the root of the tree is a regular file. *)
Definition root_file_state : state :=
  State {[ [base_dir] := File "not a directory" ]} [] [] [] [].

Lemma C6_witness :
  create_directory_structure root_file_state
  = (Raise (OSError EEXIST), snd (do_call (Makedirs base_dir) root_file_state))
  ∧ (is_OSError (OSError ENOTDIR) = true
     ∧ ∃ done failing rest s1,
         plan = done ++ failing :: rest
         ∧ for_ done do_call blocked_state = (Ok tt, s1)
         ∧ do_call failing s1 = (Raise (OSError ENOTDIR), blocked_final)
         ∧ calls blocked_final
           = calls blocked_state ++ concat (map events_of (done ++ [failing]))
         ∧ (∀ d, Makedirs d ∈ done →
                 fs_lookup (fs blocked_final) (resolve (cwd blocked_final) d)
                 = Some Dir)
         ∧ (∀ p c, CreateFile p c ∈ done →
                   fs blocked_final !! resolve (cwd blocked_final) p
                   = Some (File c))
         ∧ (∀ k, fs s1 !! k = Some Dir → fs blocked_final !! k = Some Dir)
         ∧ (∀ k c, fs s1 !! k = Some (File c) →
                   ∃ c', fs blocked_final !! k = Some (File c'))).
Proof.
  split.
  - refine (proj1 C6_errors_abort root_file_state [] (Makedirs base_dir)
              (tail plan) root_file_state (OSError EEXIST) _ _ _ _).
    + reflexivity.
    + reflexivity.
    + refine (run_Raise_result _ _ _). vm_compute. reflexivity.
  - refine (proj2 C6_errors_abort blocked_state (OSError ENOTDIR)
              blocked_final _).
    refine (run_Raise_result _ _ _). vm_compute. reflexivity.
Defined.

(** ** The entry point *)

Lemma run_out s r s' :
  create_directory_structure s = (r, s') → out s' = out s.
Proof.
  rewrite create_directory_structure_plan. intros H.
  apply (ev_out _ _ (evolves_calls _ _ _ _ H)).
Qed.

(** C7. Run as a script, either every call of the plan succeeds and the
    success message is printed (once, after the last call), or an error
    aborts the run and nothing is printed. *)
Theorem C7_message_iff_success s :
  (∃ s1, create_directory_structure s = (Ok tt, s1)
         ∧ calls s1 = calls s ++ concat (map events_of plan)
         ∧ main s = (Ok tt, add_out success_message s1)
         ∧ out (snd (main s)) = out s ++ [success_message])
  ∨ (∃ e s1, create_directory_structure s = (Raise e, s1)
             ∧ main s = (Raise e, s1)
             ∧ out (snd (main s)) = out s).
Proof.
  unfold main, bind, print.
  destruct (create_directory_structure s) as [[[]|e] s1] eqn:E.
  - left. exists s1. pose proof (run_out _ _ _ E) as Ho.
    rewrite create_directory_structure_plan in E. apply for_calls_Ok in E.
    repeat split; try done. simpl. by rewrite Ho.
  - right. exists e, s1. repeat split; try done. simpl. by eapply run_out.
Qed.

(** ** [create_file] on a bare file name *)

(** [sep in p] *)
Fixpoint has_sep (p : string) : bool :=
  match p with
  | EmptyString => false
  | String c r => PyStr.is_sep c || has_sep r
  end.

Lemma rfind_no_sep p : has_sep p = false → PyStr.rfind_sep_succ p = 0%nat.
Proof.
  induction p as [|c r IH]; simpl; [done|].
  intros H. apply orb_false_iff in H as [Hc Hr]. by rewrite IH, Hc.
Qed.

Lemma dirname_bare p : has_sep p = false → os_path_dirname p = "".
Proof.
  intros H. unfold os_path_dirname. rewrite rfind_no_sep by done.
  by destruct p.
Qed.

(** [os.makedirs("")] raises: [mkdir("")] fails, and [""] is not a
    directory. *)
Lemma os_makedirs_empty s :
  ∃ e s', os_makedirs "" true s = (Raise (OSError e), s')
          ∧ fs s' = fs s
          ∧ (faults s = [] → e = ENOENT).
Proof.
  destruct s as [m wd fl cs o].
  destruct fl as [|[e1|] [|[e2|] fl]]; vm_compute;
    (do 2 eexists; split; [reflexivity | split; [reflexivity | done]]).
Qed.

Lemma events_prefix l' l ev :
  l' `prefix_of` l → ev ∈ concat (map events_of l') →
  ev ∈ concat (map events_of l).
Proof.
  intros [k ->] H. rewrite map_app, concat_app. apply elem_of_app. by left.
Qed.

(** C9. [create_file] needs a path with a directory part: for a path whose
    [dirname] is empty -- any bare file name -- it raises, because
    [os.makedirs("")] does, and creates nothing.  The script never calls it
    so: every path it hands to [create_file] has a non-empty directory
    part, and no run ever calls [os.makedirs("")]. *)
Theorem C9_bare_filename_raises :
  (∀ path content s,
     os_path_dirname path = "" →
     ∃ e s', create_file path content s = (Raise (OSError e), s')
             ∧ fs s' = fs s
             ∧ (faults s = [] → e = ENOENT))
  ∧ (∀ path, has_sep path = false → os_path_dirname path = "")
  ∧ Forall (λ pc, PyStr.nonempty (os_path_dirname pc.1) = true)
           (created_files plan)
  ∧ (∀ s r s',
       create_directory_structure s = (r, s') →
       ∃ l, calls s' = calls s ++ l ∧ EvMakedirs "" ∉ l).
Proof.
  split; [|split; [|split]].
  - intros path content s Hd. unfold create_file, bind at 1. cbv beta iota.
    rewrite Hd. unfold bind at 1.
    destruct (os_makedirs_empty (add_call (EvCreateFile path content) s))
      as (e & s' & -> & Hfs & He).
    exists e, s'. done.
  - apply dirname_bare.
  - apply (bool_decide_eq_true_1 _). vm_compute. reflexivity.
  - intros s r s' H. rewrite create_directory_structure_plan in H.
    apply for_calls_prefix in H as (l' & Hpre & Hcalls & _).
    eexists. split; [exact Hcalls|]. intros Hin.
    apply (events_prefix _ _ _ Hpre) in Hin. revert Hin.
    apply (bool_decide_eq_true_1 _). vm_compute. reflexivity.
Qed.

Lemma C9_witness :
  (∃ e s', create_file "README.md" "" init_state = (Raise (OSError e), s')
           ∧ fs s' = fs init_state
           ∧ (faults init_state = [] → e = ENOENT))
  ∧ os_path_dirname "README.md" = ""
  ∧ ∃ l, calls blocked_final = calls blocked_state ++ l ∧ EvMakedirs "" ∉ l.
Proof.
  split; [|split].
  - refine (proj1 C9_bare_filename_raises "README.md" "" init_state _).
    vm_compute. reflexivity.
  - refine (proj1 (proj2 C9_bare_filename_raises) "README.md" _).
    vm_compute. reflexivity.
  - refine (proj2 (proj2 (proj2 C9_bare_filename_raises)) blocked_state
              (Raise (OSError ENOTDIR)) blocked_final _).
    refine (run_Raise_result _ _ _). vm_compute. reflexivity.
Defined.

(** C10. The script takes no input: whatever the state it starts in, the
    calls it makes are an initial part of one fixed list of calls with
    fixed path strings and contents, the whole list when the run succeeds;
    and its outcome and the resulting namespace are determined by the
    namespace, the working directory and the environment's faults it
    starts with. *)
Theorem C10_deterministic :
  (∀ s r s',
     create_directory_structure s = (r, s') →
     ∃ l', l' `prefix_of` plan
           ∧ calls s' = calls s ++ concat (map events_of l')
           ∧ (r = Ok tt → l' = plan))
  ∧ (∀ s1 s2,
       fs s1 = fs s2 → cwd s1 = cwd s2 → faults s1 = faults s2 →
       fst (create_directory_structure s1)
       = fst (create_directory_structure s2)
       ∧ fs (snd (create_directory_structure s1))
         = fs (snd (create_directory_structure s2))).
Proof.
  split.
  - intros s r s' H. rewrite create_directory_structure_plan in H.
    by apply for_calls_prefix.
  - intros s1 s2 Hfs Hwd Hf.
    rewrite !create_directory_structure_plan.
    destruct (respects_for plan do_call respects_do_call s1 s2) as [Hr Hs];
      [done|].
    split; [done|]. by destruct Hs.
Qed.

Lemma C10_witness :
  (∃ l', l' `prefix_of` plan
         ∧ calls final_state = calls init_state ++ concat (map events_of l')
         ∧ (Ok tt = Ok tt → l' = plan))
  ∧ (fst (create_directory_structure init_state)
     = fst (create_directory_structure (add_out "earlier output" init_state))
     ∧ fs final_state
       = fs (snd (create_directory_structure
                    (add_out "earlier output" init_state)))).
Proof.
  split.
  - refine (proj1 C10_deterministic init_state (Ok tt) final_state _).
    refine (run_result _ _ _). vm_compute. reflexivity.
  - refine (proj2 C10_deterministic init_state
              (add_out "earlier output" init_state) _ _ _);
      vm_compute; reflexivity.
Defined.

(** ** Confinement to the root directory *)

(** Under the root directory of the tree, the root itself included. *)
Definition under_root (wd k : list string) : Prop :=
  ∃ rest, k = wd ++ base_dir :: rest.

(** A clean relative path whose first component is the root. *)
Definition rooted (p : string) : bool :=
  clean p &&
  match PyStr.split_sep p with
  | c :: _ => String.eqb c base_dir
  | [] => false
  end.

Definition call_rooted (c : call) : bool :=
  match c with
  | Makedirs name => forallb rooted (makedirs_chain name)
  | CreateFile path _ =>
      forallb rooted (makedirs_chain (os_path_dirname path)) && rooted path
  end.

Lemma rooted_under wd p : rooted p = true → under_root wd (resolve wd p).
Proof.
  unfold rooted. intros H. apply andb_prop in H as [Hc Hh].
  rewrite resolve_clean by done.
  destruct (PyStr.split_sep p) as [|c rest]; [done|].
  apply String.eqb_eq in Hh as ->. by exists rest.
Qed.

Lemma plan_rooted : forallb call_rooted plan = true.
Proof. vm_compute. reflexivity. Qed.

Lemma plan_call_ok wd :
  Forall (call_ok (λ p, under_root wd (resolve wd p))
                  (λ p _, under_root wd (resolve wd p))) plan.
Proof.
  apply Forall_forall. intros c Hc.
  pose proof plan_rooted as H. rewrite forallb_forall in H.
  apply list_elem_of_In, H in Hc.
  assert (∀ l, forallb rooted l = true →
               Forall (λ p, under_root wd (resolve wd p)) l) as HF.
  { intros l Hl. apply Forall_forall. intros p Hp.
    apply rooted_under. rewrite forallb_forall in Hl.
    by apply Hl, list_elem_of_In. }
  destruct c as [name | path content]; cbn [call_rooted call_ok] in *.
  - by apply HF.
  - apply andb_prop in Hc as [Hd Hp]. split; [by apply HF|].
    by apply rooted_under.
Qed.

(** The join of [base_dir] with a relative table entry. *)
Definition is_entry_path (p : string) : Prop :=
  ∃ rel, clean rel = true ∧ p = os_path_join base_dir rel.

Definition rel_of (p : string) : string :=
  PyStr.drop (S (String.length base_dir)) p.

Definition joined (p : string) : bool :=
  clean (rel_of p) && String.eqb (os_path_join base_dir (rel_of p)) p.

Definition event_rooted (ev : event) : bool :=
  match ev with
  | EvMakedirs name => String.eqb name base_dir || joined name
  | EvCreateFile path _ => joined path
  end.

Lemma joined_entry p : joined p = true → is_entry_path p.
Proof.
  unfold joined. intros H. apply andb_prop in H as [Hc Hj].
  apply String.eqb_eq in Hj. by exists (rel_of p).
Qed.

Lemma plan_events_rooted :
  forallb event_rooted (concat (map events_of plan)) = true.
Proof. vm_compute. reflexivity. Qed.

Lemma length_append (a b : string) :
  String.length (a +:+ b) = (String.length a + String.length b)%nat.
Proof. induction a as [|c a IH]; simpl; [done | by rewrite IH]. Qed.

Lemma join_clean rel :
  PyStr.startswith_sep rel = false →
  os_path_join base_dir rel = base_dir +:+ "/" +:+ rel.
Proof. intros H. unfold os_path_join. rewrite H. reflexivity. Qed.

(** No join with [base_dir] gives [base_dir] back. *)
Lemma join_ne_base rel : os_path_join base_dir rel ≠ base_dir.
Proof.
  destruct (PyStr.startswith_sep rel) eqn:E.
  - unfold os_path_join. rewrite E. intros ->. vm_compute in E. discriminate.
  - rewrite join_clean by done. intros H.
    apply (f_equal String.length) in H. rewrite !length_append in H.
    simpl in H. lia.
Qed.

Lemma split_sep_join a r :
  has_sep a = false →
  PyStr.split_sep (a +:+ String PyStr.sep r) = a :: PyStr.split_sep r.
Proof.
  induction a as [|c a IH]; simpl; intros H.
  - reflexivity.
  - apply orb_false_iff in H as [Hc Ha]. rewrite Hc, IH by done. reflexivity.
Qed.

(** A clean entry joined with [base_dir] resolves strictly below the root. *)
Lemma resolve_entry wd rel :
  clean rel = true →
  resolve wd (os_path_join base_dir rel)
  = wd ++ base_dir :: PyStr.split_sep rel.
Proof.
  intros Hc. pose proof Hc as Hc'. unfold clean in Hc'.
  apply andb_prop in Hc' as [Hs Hp]. apply negb_true_iff in Hs.
  rewrite join_clean by done.
  assert (PyStr.split_sep (base_dir +:+ "/" +:+ rel)
          = base_dir :: PyStr.split_sep rel) as Hsplit
      by (by apply (split_sep_join base_dir rel)).
  apply resolve_clean. unfold clean. rewrite Hsplit.
  cbn [forallb]. rewrite Hp. reflexivity.
Qed.

(** The claim of C8 as stated: every path handed to [os.makedirs] or
    [create_file] is a join of [base_dir] with an entry, and resolves
    strictly below the root. *)
Definition all_strictly_under_root (s s' : state) : Prop :=
  ∀ n, EvMakedirs n ∈ calls s' →
       is_entry_path n
       ∧ ∃ rest, rest ≠ [] ∧ resolve (cwd s) n = cwd s ++ base_dir :: rest.

(** C8, as stated, fails at the first call of the script,
    [os.makedirs(base_dir)]: its path is the root itself, which is no join
    of [base_dir] with an entry and does not lie strictly below the root;
    and the run creates it. *)
Lemma C8_counterexample :
  fs init_state !! resolve (cwd init_state) base_dir = None
  ∧ fs final_state !! resolve (cwd init_state) base_dir = Some Dir
  ∧ ¬ all_strictly_under_root init_state final_state.
Proof.
  split; [vm_compute; reflexivity|]. split; [vm_compute; reflexivity|].
  intros H. destruct (H base_dir) as [(rel & _ & Hrel) _].
  - apply (bool_decide_eq_true_1 _). vm_compute. reflexivity.
  - symmetry in Hrel. by apply join_ne_base in Hrel.
Qed.

(** C8, amended.  The table entries are clean relative paths (no absolute
    prefix, no [..]); such an entry joined with [base_dir] resolves
    strictly below the root; every path a run hands to [os.makedirs] is
    [base_dir] itself or such a join, every path it hands to [create_file]
    is such a join; and a run started where no entry named [base_dir] lies
    creates and changes nothing outside the root directory.  (The
    namespace has directories and regular files only: where the root or a
    listed file is already there as a symbolic or hard link, the calls
    follow the link, and the last part says nothing.) *)
Theorem C8_root_confinement :
  Forall (λ rel, clean rel = true)
         (root_files ++ public_dirs ++ map fst public_files ++ src_dirs
          ++ map fst src_files ++ ["data"; "data/presale-pricing.json"]
          ++ docs_files ++ test_dirs)
  ∧ (∀ wd rel,
       clean rel = true →
       ∃ rest, rest ≠ []
               ∧ resolve wd (os_path_join base_dir rel)
                 = wd ++ base_dir :: rest)
  ∧ (∀ s r s',
       create_directory_structure s = (r, s') →
       (fs s !! (cwd s ++ [base_dir]) = None →
        ∀ k, ¬ under_root (cwd s) k → fs s' !! k = fs s !! k)
       ∧ ∃ l, calls s' = calls s ++ l
              ∧ ∀ ev, ev ∈ l →
                      match ev with
                      | EvMakedirs name =>
                          name = base_dir ∨ is_entry_path name
                      | EvCreateFile path _ => is_entry_path path
                      end).
Proof.
  split; [|split].
  - apply (bool_decide_eq_true_1 _). vm_compute. reflexivity.
  - intros wd rel Hc. exists (PyStr.split_sep rel).
    split; [apply split_sep_nonnil | by apply resolve_entry].
  - intros s r s' H. rewrite create_directory_structure_plan in H. split.
    + intros _.
      by destruct (confined_calls _ _ _ (plan_call_ok (cwd s)) _ _ _ H eq_refl).
    + apply for_calls_prefix in H as (l' & Hpre & Hcalls & _).
      eexists. split; [exact Hcalls|]. intros ev Hev.
      apply (events_prefix _ _ _ Hpre) in Hev.
      pose proof plan_events_rooted as Hr. rewrite forallb_forall in Hr.
      apply list_elem_of_In, Hr in Hev.
      destruct ev as [name | path content]; cbn [event_rooted] in Hev.
      * apply orb_prop in Hev as [Hev | Hev].
        -- left. by apply String.eqb_eq.
        -- right. by apply joined_entry.
      * by apply joined_entry.
Qed.

Lemma C8_witness :
  (∃ rest, rest ≠ []
           ∧ resolve ["home"; "user"] (os_path_join base_dir "src/lib/mlm.ts")
             = ["home"; "user"] ++ base_dir :: rest)
  ∧ ((∀ k, ¬ under_root (cwd init_state) k →
           fs final_state !! k = fs init_state !! k)
     ∧ ∃ l, calls final_state = calls init_state ++ l
            ∧ ∀ ev, ev ∈ l →
                    match ev with
                    | EvMakedirs name => name = base_dir ∨ is_entry_path name
                    | EvCreateFile path _ => is_entry_path path
                    end).
Proof.
  split.
  - refine (proj1 (proj2 C8_root_confinement) ["home"; "user"]
              "src/lib/mlm.ts" _).
    vm_compute. reflexivity.
  - assert (create_directory_structure init_state = (Ok tt, final_state))
      as Hrun by (refine (run_result _ _ _); vm_compute; reflexivity).
    destruct (proj2 (proj2 C8_root_confinement) _ _ _ Hrun) as [Hout Hlog].
    split; [apply Hout; reflexivity | exact Hlog].
Defined.

(** * Further properties of [create_file] *)

(** [create_file] at a place where nothing is yet changes nothing that
    exists: when no entry lies at the clean [path], every entry that was
    there before the call is there after it, unchanged, whether the call
    returns or raises. *)
Theorem create_file_new_keeps_entries path content s r s' :
  clean path = true →
  fs s !! (cwd s ++ PyStr.split_sep path) = None →
  create_file path content s = (r, s') →
  ∀ k n, fs s !! k = Some n → fs s' !! k = Some n.
Proof.
  intros Hcl Hnone H k n Hn.
  destruct (keeps_create_file (λ k', k' = resolve (cwd s) path) (cwd s)
              path content eq_refl _ _ _ H eq_refl) as [_ Hkeep].
  apply Hkeep; [|done]. intros ->.
  rewrite resolve_clean in Hn by done. congruence.
Qed.

Lemma create_file_new_keeps_entries_witness :
  fs (snd (create_file "wattschain-mlm-platform/README.md" "text"
             root_only_state))
    !! ["wattschain-mlm-platform"]
  = Some Dir.
Proof.
  refine (create_file_new_keeps_entries "wattschain-mlm-platform/README.md"
            "text" root_only_state _ _ _ _ (surjective_pairing _)
            ["wattschain-mlm-platform"] Dir _).
  - vm_compute. reflexivity.
  - vm_compute. reflexivity.
  - vm_compute. reflexivity.
Defined.

Lemma write_file_on_dir path content s r s' :
  fs_lookup (fs s) (resolve (cwd s) path) = Some Dir →
  write_file path content s = (r, s') →
  ∃ e, r = Raise (OSError e).
Proof.
  intros Hd H. apply write_file_inv in H as (fl & _ & [[_ He] | H]); [done|].
  destruct H as (c & _ & _ & Hnd & Hne & _). exfalso. apply Hnd.
  destruct (resolve (cwd s) path); [done|]. exact Hd.
Qed.

(** [create_file] keeps the namespace well-formed, removes nothing and
    changes the kind of nothing: directories stay directories, regular
    files stay regular files, whether it returns or raises. *)
Theorem create_file_keeps_namespace path content s r s' :
  create_file path content s = (r, s') →
  (wf (fs s) → wf (fs s'))
  ∧ (∀ k, fs s !! k = Some Dir → fs s' !! k = Some Dir)
  ∧ (∀ k c, fs s !! k = Some (File c) → ∃ c', fs s' !! k = Some (File c'))
  ∧ cwd s' = cwd s.
Proof.
  intros H.
  pose proof (evolves_do_call (CreateFile path content) _ _ _ H) as He.
  repeat split.
  - apply (ev_wf _ _ He).
  - apply (ev_dir _ _ He).
  - apply (ev_file _ _ He).
  - apply (ev_cwd _ _ He).
Qed.

Lemma create_file_keeps_namespace_witness :
  (wf (fs root_only_state) →
   wf (fs (snd (create_file "wattschain-mlm-platform/a/b.txt" "text"
                  root_only_state))))
  ∧ (∀ k, fs root_only_state !! k = Some Dir →
          fs (snd (create_file "wattschain-mlm-platform/a/b.txt" "text"
                     root_only_state)) !! k = Some Dir)
  ∧ (∀ k c, fs root_only_state !! k = Some (File c) →
            ∃ c', fs (snd (create_file "wattschain-mlm-platform/a/b.txt"
                             "text" root_only_state)) !! k = Some (File c'))
  ∧ cwd (snd (create_file "wattschain-mlm-platform/a/b.txt" "text"
                root_only_state))
    = cwd root_only_state.
Proof.
  exact (create_file_keeps_namespace "wattschain-mlm-platform/a/b.txt" "text"
           root_only_state _ _ (surjective_pairing _)).
Defined.

(** * Further properties of [create_directory_structure] *)

Lemma os_mkdir_nf_EEXIST p s n :
  faults s = [] → PyStr.nonempty p = true →
  fs_lookup (fs s) (parent (resolve (cwd s) p)) = Some Dir →
  fs_lookup (fs s) (resolve (cwd s) p) = Some n →
  os_mkdir p s = (Raise (OSError EEXIST), s).
Proof.
  intros Hf Hp Hpar Hn. unfold os_mkdir, bind. rewrite pop_fault_nf by done.
  rewrite Hp. cbn [negb]. cbv zeta. apply check_parent_None in Hpar.
  by rewrite Hpar, Hn.
Qed.

Lemma os_path_isdir_nf_file p s c :
  faults s = [] →
  fs_lookup (fs s) (resolve (cwd s) p) = Some (File c) →
  os_path_isdir p s = (Ok false, s).
Proof.
  intros Hf Hn. unfold os_path_isdir, catch, sys_stat, bind.
  rewrite pop_fault_nf by done. rewrite Hn. by destruct (negb _).
Qed.

Lemma base_dir_resolve wd : resolve wd base_dir = wd ++ [base_dir].
Proof. by apply resolve_clean. Qed.

(** When a regular file stands where the root directory should be, the run
    stops at its first call with [FileExistsError] and changes nothing on
    disk: no other call is made. *)
Theorem run_root_is_file s c :
  wf (fs s) → faults s = [] →
  fs s !! (cwd s ++ [base_dir]) = Some (File c) →
  ∃ s', create_directory_structure s = (Raise (OSError EEXIST), s')
        ∧ fs s' = fs s
        ∧ calls s' = calls s ++ [EvMakedirs base_dir].
Proof.
  intros Hwf Hf Hroot.
  exists (add_call (EvMakedirs base_dir) s). split; [|done].
  rewrite create_directory_structure_plan.
  change plan with (Makedirs base_dir :: tail plan). cbn [for_ do_call].
  unfold bind at 1, os_makedirs, bind at 1.
  rewrite makedirs_rec_S.
  change (eff_split base_dir) with ("", base_dir). cbn [PyStr.nonempty andb].
  unfold bind at 1, ret at 1, catch.
  assert (fs_lookup (fs s) (resolve (cwd s) base_dir) = Some (File c)) as Hl.
  { rewrite base_dir_resolve. by destruct (cwd s). }
  rewrite (os_mkdir_nf_EEXIST base_dir _ (File c)); try done.
  - cbn [is_OSError negb]. unfold bind.
    by rewrite (os_path_isdir_nf_file base_dir _ c).
  - simpl. rewrite base_dir_resolve. unfold parent.
    rewrite removelast_last. apply (wf_parent _ _ _ Hwf) in Hl.
    rewrite base_dir_resolve in Hl. unfold parent in Hl.
    by rewrite removelast_last in Hl.
Qed.

Lemma run_root_is_file_witness :
  ∃ s', create_directory_structure root_file_state
        = (Raise (OSError EEXIST), s')
        ∧ fs s' = fs root_file_state
        ∧ calls s' = calls root_file_state ++ [EvMakedirs base_dir].
Proof.
  refine (run_root_is_file root_file_state "not a directory" _ _ _).
  - apply (bool_decide_eq_true_1 _). vm_compute. reflexivity.
  - vm_compute. reflexivity.
  - vm_compute. reflexivity.
Defined.

(** * Clean paths and their components *)

(** ["/".join(cs)] *)
Fixpoint join_sep (cs : list string) : string :=
  match cs with
  | [] => ""
  | [c] => c
  | c :: cs' => c +:+ String PyStr.sep (join_sep cs')
  end.

Lemma join_sep_cons c cs :
  cs ≠ [] → join_sep (c :: cs) = c +:+ String PyStr.sep (join_sep cs).
Proof. by destruct cs. Qed.

Lemma append_nil_l (b : string) : "" +:+ b = b.
Proof. reflexivity. Qed.

Lemma append_cons x (a b : string) : String x a +:+ b = String x (a +:+ b).
Proof. reflexivity. Qed.

Ltac ssimpl := simpl; rewrite ?append_cons, ?append_nil_l; simpl.

Lemma append_assoc (a b c : string) : (a +:+ b) +:+ c = a +:+ (b +:+ c).
Proof. induction a as [|x a IH]; ssimpl; [done | by f_equal]. Qed.

Lemma join_sep_snoc cs c :
  cs ≠ [] → join_sep (cs ++ [c]) = join_sep cs +:+ String PyStr.sep c.
Proof.
  induction cs as [|x cs IH]; [done|]. intros _.
  destruct cs as [|y cs]; [reflexivity|].
  change ((x :: y :: cs) ++ [c]) with (x :: ((y :: cs) ++ [c])).
  rewrite join_sep_cons by (by destruct cs).
  rewrite IH by done. rewrite (join_sep_cons x (y :: cs)) by done.
  rewrite append_assoc. reflexivity.
Qed.

(** The components of a path hold no separator, and joining them gives the
    path back. *)
Lemma split_sep_sepfree p : Forall (λ c, has_sep c = false) (PyStr.split_sep p).
Proof.
  induction p as [|x p IH]; simpl; [by repeat constructor|].
  destruct (PyStr.is_sep x) eqn:Ex; [by constructor|].
  destruct (PyStr.split_sep p) as [|c cs];
    [constructor; [simpl; by rewrite Ex | constructor]|].
  apply Forall_cons in IH as [Hc Hcs]. constructor; [|done].
  simpl. by rewrite Ex, Hc.
Qed.

Lemma is_sep_eq x : PyStr.is_sep x = true → x = PyStr.sep.
Proof. unfold PyStr.is_sep. apply Ascii.eqb_eq. Qed.

Lemma join_split_sep p : join_sep (PyStr.split_sep p) = p.
Proof.
  induction p as [|x p IH]; [done|]. simpl.
  pose proof (split_sep_nonnil p) as Hne.
  destruct (PyStr.is_sep x) eqn:Ex.
  - apply is_sep_eq in Ex as ->. rewrite join_sep_cons by done.
    by rewrite IH.
  - destruct (PyStr.split_sep p) as [|c cs]; [done|].
    destruct cs as [|d cs]; simpl in *; by rewrite <- IH.
Qed.

Lemma split_sep_sepfree_one c : has_sep c = false → PyStr.split_sep c = [c].
Proof.
  induction c as [|x c IH]; [done|]. simpl. intros H.
  apply orb_false_iff in H as [Hx Hc]. by rewrite Hx, IH.
Qed.

Lemma split_join_sep cs :
  cs ≠ [] → Forall (λ c, has_sep c = false) cs →
  PyStr.split_sep (join_sep cs) = cs.
Proof.
  induction cs as [|c cs IH]; [done|]. intros _ H.
  apply Forall_cons in H as [Hc Hcs].
  destruct cs as [|d cs]; [by apply split_sep_sepfree_one|].
  rewrite join_sep_cons by done. rewrite split_sep_join by done.
  by rewrite IH.
Qed.

(** *** [os.path.split] on joined components *)

Lemma rfind_join a c :
  has_sep c = false →
  PyStr.rfind_sep_succ (a +:+ String PyStr.sep c) = S (String.length a).
Proof.
  intros Hc. induction a as [|x a IH]; ssimpl.
  - by rewrite rfind_no_sep.
  - by rewrite IH.
Qed.

Lemma take_join a c :
  PyStr.take (S (String.length a)) (a +:+ String PyStr.sep c)
  = a +:+ String PyStr.sep "".
Proof. induction a as [|x a IH]; ssimpl; [done | by rewrite <- IH]. Qed.

Lemma drop_join a c :
  PyStr.drop (S (String.length a)) (a +:+ String PyStr.sep c) = c.
Proof. induction a as [|x a IH]; ssimpl; [by destruct c | done]. Qed.

Lemma rstrip_snoc_sep a :
  PyStr.rstrip_sep (a +:+ String PyStr.sep "") = PyStr.rstrip_sep a.
Proof. induction a as [|x a IH]; ssimpl; [done | by rewrite IH]. Qed.

Lemma rstrip_no_trailing a :
  PyStr.endswith_sep a = false → PyStr.rstrip_sep a = a.
Proof.
  induction a as [|x a IH]; [done|]. ssimpl. intros H.
  destruct a as [|y a]; [by rewrite H|].
  rewrite IH by done. done.
Qed.

Lemma all_sep_snoc a :
  PyStr.all_sep (a +:+ String PyStr.sep "") = PyStr.all_sep a.
Proof.
  induction a as [|x a IH]; ssimpl; [done | by rewrite IH].
Qed.

Lemma nonempty_snoc a b : PyStr.nonempty (a +:+ String PyStr.sep b) = true.
Proof. by destruct a. Qed.

(** A string that starts with a character other than the separator. *)
Definition starts_plain (a : string) : bool :=
  PyStr.nonempty a && negb (PyStr.startswith_sep a).

Lemma starts_plain_all_sep a : starts_plain a = true → PyStr.all_sep a = false.
Proof.
  destruct a as [|x a]; [done|]. unfold starts_plain. ssimpl.
  intros H. apply negb_true_iff in H. by rewrite H.
Qed.

Lemma os_path_split_join a c :
  starts_plain a = true → PyStr.endswith_sep a = false →
  has_sep c = false →
  os_path_split (a +:+ String PyStr.sep c) = (a, c).
Proof.
  intros Ha Hend Hc. unfold os_path_split.
  rewrite rfind_join, take_join, drop_join by done.
  rewrite nonempty_snoc, all_sep_snoc, starts_plain_all_sep by done.
  cbn [andb negb]. by rewrite rstrip_snoc_sep, rstrip_no_trailing.
Qed.

Lemma os_path_split_bare c : has_sep c = false → os_path_split c = ("", c).
Proof.
  intros Hc. unfold os_path_split. rewrite rfind_no_sep by done.
  by destruct c.
Qed.

Lemma endswith_sepfree c : has_sep c = false → PyStr.endswith_sep c = false.
Proof.
  induction c as [|x c IH]; [done|]. simpl. intros H.
  apply orb_false_iff in H as [Hx Hc]. destruct c; [done | by apply IH].
Qed.

Lemma endswith_join a c :
  PyStr.nonempty c = true →
  PyStr.endswith_sep (a +:+ String PyStr.sep c) = PyStr.endswith_sep c.
Proof.
  intros Hc. induction a as [|x a IH]; ssimpl.
  - by destruct c.
  - rewrite <- IH. by destruct a.
Qed.

Lemma plain_nonempty c : plain c = true → PyStr.nonempty c = true.
Proof. by destruct c. Qed.

Lemma plain_not_dot c : plain c = true → String.eqb c "." = false.
Proof.
  unfold plain. intros H. apply andb_prop in H as [H _].
  apply andb_prop in H as [_ H]. by apply negb_true_iff.
Qed.

(** Component lists of clean paths: plain components without separator. *)
Definition comps_ok (cs : list string) : Prop :=
  forallb plain cs = true ∧ Forall (λ c, has_sep c = false) cs.

Lemma comps_ok_app cs1 cs2 :
  comps_ok (cs1 ++ cs2) ↔ comps_ok cs1 ∧ comps_ok cs2.
Proof.
  unfold comps_ok. rewrite forallb_app, andb_true_iff, Forall_app. tauto.
Qed.

Lemma clean_comps_ok p : clean p = true → comps_ok (PyStr.split_sep p).
Proof.
  unfold clean. intros H. apply andb_prop in H as [_ H].
  split; [done | apply split_sep_sepfree].
Qed.

Lemma starts_plain_sepfree c :
  plain c = true → has_sep c = false → starts_plain c = true.
Proof.
  destruct c as [|x c]; [done|]. unfold starts_plain. simpl. intros _ H.
  apply orb_false_iff in H as [Hx _]. by rewrite Hx.
Qed.

Lemma starts_plain_append a b : starts_plain a = true → starts_plain (a +:+ b) = true.
Proof. by destruct a. Qed.

Lemma starts_plain_join cs :
  cs ≠ [] → comps_ok cs → starts_plain (join_sep cs) = true.
Proof.
  destruct cs as [|c cs]; [done|]. intros _ [Hp Hs].
  simpl in Hp. apply andb_prop in Hp as [Hc _].
  apply Forall_cons in Hs as [Hsc _].
  destruct cs as [|d cs]; [by apply starts_plain_sepfree|].
  rewrite join_sep_cons by done.
  by apply starts_plain_append, starts_plain_sepfree.
Qed.

Lemma endswith_join_sep cs :
  cs ≠ [] → comps_ok cs → PyStr.endswith_sep (join_sep cs) = false.
Proof.
  induction cs as [|c cs IH] using rev_ind; [done|]. intros _ H.
  apply comps_ok_app in H as [_ [Hp Hs]].
  simpl in Hp. apply andb_prop in Hp as [Hc _].
  apply Forall_cons in Hs as [Hsc _].
  destruct cs as [|d cs]; [by apply endswith_sepfree|].
  rewrite join_sep_snoc by done.
  rewrite endswith_join by (by apply plain_nonempty).
  by apply endswith_sepfree.
Qed.

(** The join of plain components is a clean path with these components. *)
Lemma clean_join_sep cs :
  cs ≠ [] → comps_ok cs →
  clean (join_sep cs) = true ∧ PyStr.split_sep (join_sep cs) = cs.
Proof.
  intros Hne Hok. pose proof (starts_plain_join cs Hne Hok) as Hst.
  destruct Hok as [Hp Hs]. rewrite (split_join_sep cs Hne Hs).
  split; [|done]. unfold clean. rewrite (split_join_sep cs Hne Hs), Hp.
  unfold starts_plain in Hst. apply andb_prop in Hst as [_ Hst].
  by rewrite Hst.
Qed.

Lemma nonempty_join_sep cs :
  cs ≠ [] → comps_ok cs → PyStr.nonempty (join_sep cs) = true.
Proof.
  intros Hne Hok. pose proof (starts_plain_join cs Hne Hok) as Hst.
  unfold starts_plain in Hst. by apply andb_prop in Hst as [Hst _].
Qed.

(** What [os.makedirs] sees of a clean name: its parent path and its last
    component. *)
Lemma eff_split_join cs c :
  comps_ok (cs ++ [c]) →
  eff_split (join_sep (cs ++ [c])) = (join_sep cs, c).
Proof.
  intros Hok. pose proof Hok as Hok'.
  apply comps_ok_app in Hok' as [Hcs [Hp Hs]].
  simpl in Hp. apply andb_prop in Hp as [Hc _].
  apply Forall_cons in Hs as [Hsc _].
  unfold eff_split. destruct cs as [|d cs].
  - change (join_sep ([] ++ [c])) with c.
    rewrite os_path_split_bare by done.
    by rewrite (plain_nonempty c Hc).
  - rewrite join_sep_snoc by done.
    rewrite os_path_split_join; try done.
    + by rewrite (plain_nonempty c Hc).
    + by apply starts_plain_join.
    + by apply endswith_join_sep.
Qed.

Lemma os_path_dirname_split p : os_path_dirname p = fst (os_path_split p).
Proof. reflexivity. Qed.

Lemma os_path_dirname_join cs c :
  cs ≠ [] → comps_ok (cs ++ [c]) →
  os_path_dirname (join_sep (cs ++ [c])) = join_sep cs.
Proof.
  intros Hne Hok. apply comps_ok_app in Hok as [Hcs [_ Hs]].
  apply Forall_cons in Hs as [Hsc _].
  rewrite os_path_dirname_split, join_sep_snoc by done.
  rewrite os_path_split_join; try done.
  - by apply starts_plain_join.
  - by apply endswith_join_sep.
Qed.

(** * [os.makedirs] creates what is missing *)

(** [mkdir -p]: a directory at every prefix of [cs] below [k] that has no
    entry yet. *)
Fixpoint mkdir_p (k cs : list string) (m : gmap (list string) node)
  : gmap (list string) node :=
  match cs with
  | [] => m
  | c :: cs' =>
      mkdir_p (k ++ [c]) cs'
        (match m !! (k ++ [c]) with
         | Some _ => m
         | None => <[k ++ [c] := Dir]> m
         end)
  end.

Lemma mkdir_p_snoc k cs c m :
  mkdir_p k (cs ++ [c]) m =
  match mkdir_p k cs m !! (k ++ cs ++ [c]) with
  | Some _ => mkdir_p k cs m
  | None => <[k ++ cs ++ [c] := Dir]> (mkdir_p k cs m)
  end.
Proof.
  revert k m. induction cs as [|x cs IH]; intros k m; simpl; [done|].
  rewrite IH. by rewrite <- !app_assoc.
Qed.

Lemma mkdir_p_keeps k cs m j n :
  m !! j = Some n → mkdir_p k cs m !! j = Some n.
Proof.
  revert k m. induction cs as [|x cs IH]; intros k m H; simpl; [done|].
  apply IH. destruct (m !! (k ++ [x])) eqn:E; [done|].
  rewrite lookup_insert_ne; [done | congruence].
Qed.

Lemma mkdir_p_inv k cs m j n :
  mkdir_p k cs m !! j = Some n →
  m !! j = Some n
  ∨ (n = Dir ∧ m !! j = None
     ∧ ∃ pre, pre ≠ [] ∧ pre `prefix_of` cs ∧ j = k ++ pre).
Proof.
  revert k m. induction cs as [|x cs IH]; intros k m H; simpl in H; [by left|].
  apply IH in H as [H | (-> & Hn & pre & Hne & Hpre & ->)].
  - destruct (m !! (k ++ [x])) eqn:E; [by left|].
    destruct (decide (k ++ [x] = j)) as [<-|Hj].
    + rewrite lookup_insert_eq in H. injection H as <-. right.
      repeat split; try done. exists [x]. repeat split; try done.
      by apply prefix_cons, prefix_nil.
    + rewrite lookup_insert_ne in H by done. by left.
  - right. split; [done|]. split.
    + destruct (m !! (k ++ [x])) eqn:E; [done|].
      destruct (decide (k ++ [x] = (k ++ [x]) ++ pre)) as [Heq|Hj].
      * rewrite <- Heq in Hn. by rewrite lookup_insert_eq in Hn.
      * by rewrite lookup_insert_ne in Hn.
    + exists (x :: pre). repeat split; try done.
      * by apply prefix_cons.
      * by rewrite <- app_assoc.
Qed.

Lemma mkdir_p_present k cs m :
  (∀ pre, pre ≠ [] → pre `prefix_of` cs → is_Some (m !! (k ++ pre))) →
  mkdir_p k cs m = m.
Proof.
  revert k m. induction cs as [|x cs IH]; intros k m H; simpl; [done|].
  destruct (H [x]) as [n Hn]; [done | by apply prefix_cons, prefix_nil |].
  rewrite Hn. apply IH. intros pre Hne Hpre.
  rewrite <- app_assoc. apply (H (x :: pre)); [done | by apply prefix_cons].
Qed.

Lemma mkdir_p_dirs k cs m :
  (∀ pre c0, pre ≠ [] → pre `prefix_of` cs →
             m !! (k ++ pre) ≠ Some (File c0)) →
  ∀ pre, pre ≠ [] → pre `prefix_of` cs →
         mkdir_p k cs m !! (k ++ pre) = Some Dir.
Proof.
  intros Hnf pre Hne Hpre.
  destruct (mkdir_p k cs m !! (k ++ pre)) as [[|c0]|] eqn:E; [done| |].
  - apply mkdir_p_inv in E as [E | ([=] & _)]. by apply Hnf in E.
  - exfalso. clear Hnf. revert k m pre Hne Hpre E.
    induction cs as [|x cs IH]; intros k m pre Hne Hpre E.
    + by apply prefix_nil_inv in Hpre.
    + destruct pre as [|y pre]; [done|].
      apply prefix_cons_inv_1 in Hpre as Hxy. subst y.
      apply prefix_cons_inv_2 in Hpre. simpl in E.
      destruct pre as [|z pre].
      * assert (is_Some ((match m !! (k ++ [x]) with
                          | Some _ => m
                          | None => <[k ++ [x] := Dir]> m
                          end) !! (k ++ [x]))) as [n Hn].
        { destruct (m !! (k ++ [x])) eqn:E1; [by rewrite E1|].
          rewrite lookup_insert_eq. eauto. }
        apply (mkdir_p_keeps (k ++ [x]) cs) in Hn. congruence.
      * eapply (IH (k ++ [x]) _ (z :: pre)); [done | done |].
        rewrite <- app_assoc. exact E.
Qed.

Lemma os_path_exists_nf_none p s :
  faults s = [] →
  fs_lookup (fs s) (resolve (cwd s) p) = None →
  os_path_exists p s = (Ok false, s).
Proof.
  intros Hf Hn. unfold os_path_exists, catch, sys_stat, bind.
  rewrite pop_fault_nf by done. rewrite Hn. by destruct (negb _).
Qed.

Lemma os_mkdir_nf_ok p s :
  faults s = [] → PyStr.nonempty p = true →
  fs_lookup (fs s) (parent (resolve (cwd s) p)) = Some Dir →
  fs_lookup (fs s) (resolve (cwd s) p) = None →
  os_mkdir p s = (Ok tt, set_fs (<[resolve (cwd s) p := Dir]> (fs s)) s).
Proof.
  intros Hf Hp Hpar Hn. unfold os_mkdir, bind. rewrite pop_fault_nf by done.
  rewrite Hp. cbn [negb]. cbv zeta. apply check_parent_None in Hpar.
  by rewrite Hpar, Hn.
Qed.

Lemma fs_lookup_app m k pre : pre ≠ [] → fs_lookup m (k ++ pre) = m !! (k ++ pre).
Proof. intros H. destruct (k ++ pre) eqn:E; [|done]. by apply app_eq_nil in E as [_ ->]. Qed.

Lemma set_fs_id s : set_fs (fs s) s = s.
Proof. by destruct s. Qed.

(** The last step of [os.makedirs] without faults: the directory is made,
    or was there. *)
Lemma mkdir_or_isdir_nf name s :
  faults s = [] → PyStr.nonempty name = true →
  resolve (cwd s) name ≠ [] →
  fs_lookup (fs s) (parent (resolve (cwd s) name)) = Some Dir →
  (∀ c0, fs s !! resolve (cwd s) name ≠ Some (File c0)) →
  catch (os_mkdir name)
        (λ e, if is_OSError e then
                if negb true then raise e
                else d <- os_path_isdir name ;;
                     if negb d then raise e else ret tt
              else raise e) s
  = (Ok tt,
     set_fs (match fs s !! resolve (cwd s) name with
             | Some _ => fs s
             | None => <[resolve (cwd s) name := Dir]> (fs s)
             end) s).
Proof.
  intros Hf Hne Hk Hpar Hnf. unfold catch.
  assert (fs_lookup (fs s) (resolve (cwd s) name)
          = fs s !! resolve (cwd s) name) as Hl
      by (by destruct (resolve (cwd s) name)).
  destruct (fs s !! resolve (cwd s) name) as [[|c0]|] eqn:E.
  - rewrite (os_mkdir_nf_EEXIST name s Dir) by done. cbn [is_OSError negb].
    unfold bind. rewrite os_path_isdir_nf by done. cbn [negb].
    by rewrite set_fs_id.
  - by destruct (Hnf c0).
  - by rewrite os_mkdir_nf_ok.
Qed.

(** [os.makedirs(name, exist_ok=True)] on a clean name, without faults, in
    a well-formed namespace where no regular file is in the way: it returns
    and has made a directory at every prefix of the name that had no
    entry. *)
Lemma makedirs_rec_creates cs :
  cs ≠ [] → comps_ok cs →
  ∀ fuel s,
    (String.length (join_sep cs) < fuel)%nat →
    wf (fs s) → faults s = [] →
    fs_lookup (fs s) (cwd s) = Some Dir →
    (∀ pre c0, pre ≠ [] → pre `prefix_of` cs →
               fs s !! (cwd s ++ pre) ≠ Some (File c0)) →
    makedirs_rec fuel (join_sep cs) true s
    = (Ok tt, set_fs (mkdir_p (cwd s) cs (fs s)) s).
Proof.
  induction cs as [|c cs0 IH] using rev_ind; [done|].
  intros _ Hok fuel s Hfuel Hwf Hf Hcwd Hnf.
  destruct fuel as [|fuel]; [lia|].
  rewrite makedirs_rec_S, eff_split_join by done.
  destruct (clean_join_sep (cs0 ++ [c])) as [Hclean Hsplit];
    [by destruct cs0 | done |].
  pose proof (resolve_clean (cwd s) _ Hclean) as Hres. rewrite Hsplit in Hres.
  pose proof Hok as Hok'. apply comps_ok_app in Hok' as [Hok0 [Hpc _]].
  simpl in Hpc. apply andb_prop in Hpc as [Hpc _].
  rewrite (plain_nonempty c Hpc), (plain_not_dot c Hpc), andb_true_r.
  assert (PyStr.nonempty (join_sep (cs0 ++ [c])) = true) as Hne
      by (apply nonempty_join_sep; [by destruct cs0 | done]).
  assert (parent (cwd s ++ cs0 ++ [c]) = cwd s ++ cs0) as Hparent.
  { unfold parent. by rewrite !app_assoc, removelast_last. }
  assert (cwd s ++ cs0 ++ [c] ≠ []) as Hkne.
  { intros H. apply app_eq_nil in H as [_ H]. by apply app_eq_nil in H as [_ H]. }
  destruct cs0 as [|d cs1].
  - (* a single component: its parent is the working directory *)
    cbn [join_sep PyStr.nonempty]. unfold bind at 1, ret at 1.
    rewrite mkdir_or_isdir_nf; try done; rewrite ?Hres; try done.
    + by rewrite Hparent, app_nil_r.
    + intros c0. by apply Hnf.
  - set (cs0 := d :: cs1) in *.
    assert (cs0 ≠ []) as Hne0 by done.
    destruct (clean_join_sep cs0 Hne0 Hok0) as [Hclean0 Hsplit0].
    pose proof (resolve_clean (cwd s) _ Hclean0) as Hres0.
    rewrite Hsplit0 in Hres0.
    rewrite (nonempty_join_sep cs0 Hne0 Hok0).
    destruct (fs_lookup (fs s) (cwd s ++ cs0)) as [n|] eqn:Eh.
    + (* the parent exists: no recursion *)
      unfold bind at 1. unfold bind at 1.
      rewrite (os_path_exists_nf _ _ n);
        [|done|by apply nonempty_join_sep|by rewrite Hres0].
      cbn [negb]. unfold ret at 1.
      rewrite fs_lookup_app in Eh by done.
      assert (n = Dir) as ->.
      { destruct n as [|c0]; [done|].
        exfalso. apply (Hnf cs0 c0); [done | by apply prefix_app_r | done]. }
      assert (mkdir_p (cwd s) cs0 (fs s) = fs s) as Hid.
      { apply mkdir_p_present. intros pre Hpne [rest Hrest].
        destruct rest as [|r rest].
        - rewrite app_nil_r in Hrest. subst pre. eauto.
        - exists Dir. rewrite <- (fs_lookup_app _ _ _ Hpne).
          apply (wf_ancestor _ _ (r :: rest) Dir Hwf); [done|].
          rewrite <- app_assoc, <- Hrest. by rewrite fs_lookup_app. }
      rewrite mkdir_or_isdir_nf; try done; rewrite ?Hres; try done.
      * by rewrite mkdir_p_snoc, Hid.
      * rewrite Hparent. by rewrite fs_lookup_app.
      * intros c0. by apply Hnf.
    + (* the parent is missing: make it first *)
      unfold bind at 1. unfold bind at 1.
      rewrite os_path_exists_nf_none; [|done|by rewrite Hres0].
      cbn [negb]. unfold bind at 1, catch at 1.
      rewrite (IH Hne0 Hok0 fuel s); try done.
      * unfold ret at 1.
        set (m1 := mkdir_p (cwd s) cs0 (fs s)).
        rewrite mkdir_or_isdir_nf; try done; cbn [cwd fs set_fs];
          rewrite ?Hres; try done.
        -- by rewrite mkdir_p_snoc.
        -- rewrite Hparent. rewrite fs_lookup_app by done.
           apply mkdir_p_dirs; [|done|done].
           intros pre c0 Hpne Hpre. apply Hnf; [done|].
           by apply prefix_app_r.
        -- intros c0 Hc0. apply mkdir_p_inv in Hc0 as [Hc0 | ([=] & _)].
           by apply (Hnf (cs0 ++ [c]) c0).
      * rewrite join_sep_snoc, length_append in Hfuel by done.
        change (String.length (String PyStr.sep c))
          with (S (String.length c)) in Hfuel.
        lia.
      * intros pre c0 Hpne Hpre. apply Hnf; [done|].
        by apply prefix_app_r.
Qed.

Lemma mkdir_p_frame k cs m j :
  (∀ pre, pre ≠ [] → pre `prefix_of` cs → j ≠ k ++ pre) →
  mkdir_p k cs m !! j = m !! j.
Proof.
  intros Hj. destruct (m !! j) as [n|] eqn:E; [by apply mkdir_p_keeps|].
  destruct (mkdir_p k cs m !! j) as [n|] eqn:E1; [|done].
  apply mkdir_p_inv in E1 as [E1 | (_ & _ & pre & Hne & Hpre & ->)];
    [congruence|].
  by destruct (Hj pre Hne Hpre).
Qed.

Lemma prefix_snoc_proper {A} (pre l : list A) (x : A) :
  pre `prefix_of` l ++ [x] → pre ≠ l ++ [x] → pre `prefix_of` l.
Proof.
  intros [rest Hrest] Hne.
  destruct rest as [|y rest _] using rev_ind.
  - rewrite app_nil_r in Hrest. by subst.
  - rewrite app_assoc in Hrest. apply app_inj_tail in Hrest as [-> _].
    by apply prefix_app_r.
Qed.

Lemma prefix_longer {A} (l : list A) (x : A) : ¬ (l ++ [x]) `prefix_of` l.
Proof.
  intros H. apply prefix_length in H. rewrite length_app in H. simpl in H. lia.
Qed.

Lemma os_makedirs_creates name s :
  clean name = true →
  wf (fs s) → faults s = [] →
  fs_lookup (fs s) (cwd s) = Some Dir →
  (∀ pre c0, pre ≠ [] → pre `prefix_of` PyStr.split_sep name →
             fs s !! (cwd s ++ pre) ≠ Some (File c0)) →
  ∃ s', os_makedirs name true s = (Ok tt, s')
        ∧ (∀ pre, pre ≠ [] → pre `prefix_of` PyStr.split_sep name →
                  fs s' !! (cwd s ++ pre) = Some Dir)
        ∧ (∀ k, (∀ pre, pre `prefix_of` PyStr.split_sep name →
                        k ≠ cwd s ++ pre) →
                fs s' !! k = fs s !! k)
        ∧ (∀ k n, fs s !! k = Some n → fs s' !! k = Some n).
Proof.
  intros Hclean Hwf Hf Hcwd Hnf.
  pose proof (clean_comps_ok _ Hclean) as Hok.
  pose proof (split_sep_nonnil name) as Hne.
  set (cs := PyStr.split_sep name) in *.
  eexists. unfold os_makedirs, bind at 1. rewrite <- (join_split_sep name).
  fold cs. rewrite (makedirs_rec_creates cs Hne Hok); try done; [|lia].
  split; [done|]. cbn [fs cwd set_fs add_call]. repeat split.
  - by apply mkdir_p_dirs.
  - intros k Hk. apply mkdir_p_frame. intros pre _ Hpre. by apply Hk.
  - intros k n. apply mkdir_p_keeps.
Qed.

(** ** What the system accepts as a name *)

(** The limits of the system on the names handed to it: a component has at
    most [NAME_MAX] bytes, a path fewer than [PATH_MAX]. *)
Definition NAME_MAX : nat := 255.
Definition PATH_MAX : nat := 4096.

(** [os.makedirs] calls itself once a component; a depth far below the
    recursion limit of the interpreter (1000 frames unless changed). *)
Definition max_depth : nat := 100.

(** No NUL byte: Python refuses such a path with [ValueError]. *)
Definition no_nul (p : string) : bool :=
  forallb (λ c, negb (Ascii.eqb c Ascii.zero)) (list_ascii_of_string p).

(** A name the calls can take: otherwise [mkdir] and [open] raise
    [ENAMETOOLONG] or [ValueError], and [os.makedirs] [RecursionError],
    whatever the namespace holds. *)
Definition name_fits (p : string) : bool :=
  no_nul p
  && (String.length p <? PATH_MAX)%nat
  && forallb (λ c, String.length c <=? NAME_MAX)%nat (PyStr.split_sep p)
  && (length (PyStr.split_sep p) <=? max_depth)%nat.

(** [os.makedirs(name, exist_ok=True)] makes what is missing: for a clean
    relative [name] the system accepts, in a well-formed namespace whose
    working directory exists, without injected faults and with no regular
    file at [name] or at one of its ancestors, it returns; afterwards every
    prefix of [name] is a directory, and every entry that was there before
    is there unchanged. *)
Theorem os_makedirs_makes_missing name s :
  clean name = true → name_fits name = true →
  wf (fs s) → faults s = [] →
  fs_lookup (fs s) (cwd s) = Some Dir →
  (∀ pre c0, pre ≠ [] → pre `prefix_of` PyStr.split_sep name →
             fs s !! (cwd s ++ pre) ≠ Some (File c0)) →
  ∃ s', os_makedirs name true s = (Ok tt, s')
        ∧ (∀ pre, pre ≠ [] → pre `prefix_of` PyStr.split_sep name →
                  fs s' !! (cwd s ++ pre) = Some Dir)
        ∧ (∀ k n, fs s !! k = Some n → fs s' !! k = Some n).
Proof.
  intros Hclean _ Hwf Hf Hcwd Hnf.
  destruct (os_makedirs_creates name s Hclean Hwf Hf Hcwd Hnf)
    as (s' & H & Hdirs & _ & Hkeep).
  by exists s'.
Qed.

Lemma os_makedirs_makes_missing_witness :
  ∃ s', os_makedirs "demo/a/b" true init_state = (Ok tt, s')
        ∧ (∀ pre, pre ≠ [] → pre `prefix_of` PyStr.split_sep "demo/a/b" →
                  fs s' !! (cwd init_state ++ pre) = Some Dir)
        ∧ (∀ k n, fs init_state !! k = Some n → fs s' !! k = Some n).
Proof.
  refine (os_makedirs_makes_missing "demo/a/b" init_state _ _ _ _ _ _).
  - vm_compute. reflexivity.
  - vm_compute. reflexivity.
  - vm_compute. by intros ?? [=].
  - vm_compute. reflexivity.
  - vm_compute. reflexivity.
  - intros pre c0 _ _. vm_compute. intros [=].
Defined.

Lemma has_sep_split p :
  has_sep p = true →
  ∃ cs c, cs ≠ [] ∧ PyStr.split_sep p = cs ++ [c].
Proof.
  intros H. pose proof (split_sep_sepfree p) as Hs.
  pose proof (join_split_sep p) as Hj.
  destruct (PyStr.split_sep p) as [|c cs _] using rev_ind.
  - simpl in Hj. by subst.
  - destruct cs as [|d cs]; [|by exists (d :: cs), c].
    simpl in Hj. subst c. apply Forall_cons in Hs as [Hs _]. congruence.
Qed.

Lemma create_file_creates path content s :
  clean path = true → has_sep path = true →
  wf (fs s) → faults s = [] →
  fs_lookup (fs s) (cwd s) = Some Dir →
  (∀ pre c0, pre ≠ [] → pre `prefix_of` PyStr.split_sep path →
             pre ≠ PyStr.split_sep path →
             fs s !! (cwd s ++ pre) ≠ Some (File c0)) →
  fs s !! (cwd s ++ PyStr.split_sep path) ≠ Some Dir →
  ∃ s', create_file path content s = (Ok tt, s')
        ∧ fs s' !! (cwd s ++ PyStr.split_sep path) = Some (File content)
        ∧ (∀ pre, pre ≠ [] → pre `prefix_of` PyStr.split_sep path →
                  pre ≠ PyStr.split_sep path →
                  fs s' !! (cwd s ++ pre) = Some Dir)
        ∧ (∀ k, (∀ pre, pre `prefix_of` PyStr.split_sep path →
                        k ≠ cwd s ++ pre) →
                fs s' !! k = fs s !! k).
Proof.
  intros Hclean Hsep Hwf Hf Hcwd Hnf Hnd.
  pose proof (clean_comps_ok _ Hclean) as Hok.
  destruct (has_sep_split _ Hsep) as (cs & c & Hne & Hsplit).
  rewrite Hsplit in *.
  pose proof Hok as Hok'. apply comps_ok_app in Hok' as [Hok0 _].
  assert (path = join_sep (cs ++ [c])) as Hpath
      by (by rewrite <- Hsplit, join_split_sep).
  assert (resolve (cwd s) path = cwd s ++ cs ++ [c]) as Hres
      by (by rewrite resolve_clean, Hsplit).
  set (m1 := mkdir_p (cwd s) cs (fs s)).
  assert (∀ pre, pre ≠ [] → pre `prefix_of` cs →
                 m1 !! (cwd s ++ pre) = Some Dir) as Hdirs.
  { apply mkdir_p_dirs. intros pre c0 Hpne Hpre.
    apply Hnf; [done | by apply prefix_app_r |].
    intros ->. by apply prefix_longer in Hpre. }
  assert (m1 !! (cwd s ++ cs ++ [c]) = fs s !! (cwd s ++ cs ++ [c])) as Htgt.
  { apply mkdir_p_frame. intros pre _ Hpre Heq.
    apply app_inv_head in Heq. subst pre. by apply prefix_longer in Hpre. }
  exists (set_fs (<[cwd s ++ cs ++ [c] := File content]> m1)
            (add_call (EvMakedirs (os_path_dirname path))
               (add_call (EvCreateFile path content) s))).
  assert (os_path_dirname path = join_sep cs) as Hdn
      by (by rewrite Hpath, os_path_dirname_join).
  split.
  - unfold create_file, bind at 1. cbv beta iota. unfold bind at 1.
    unfold os_makedirs, bind at 1. rewrite Hdn.
    rewrite (makedirs_rec_creates cs Hne Hok0);
      [| lia | exact Hwf | exact Hf | exact Hcwd |].
    2:{ intros pre c0 Hpne Hpre. apply Hnf; [done | by apply prefix_app_r |].
        intros ->. by apply prefix_longer in Hpre. }
    change (bind (open_w path) (λ f, file_write f content))
      with (write_file path content).
    rewrite write_file_nf; cbn [fs cwd set_fs add_call]; try done.
    + by rewrite Hres.
    + rewrite Hpath. apply nonempty_join_sep; [by destruct cs | done].
    + rewrite Hpath. apply endswith_join_sep; [by destruct cs | done].
    + rewrite Hres. unfold parent. rewrite app_assoc, removelast_last.
      rewrite fs_lookup_app by done. by apply Hdirs.
    + rewrite Hres, fs_lookup_app by (by destruct cs).
      fold m1. by rewrite Htgt.
  - cbn [fs set_fs]. repeat split.
    + apply lookup_insert_eq.
    + intros pre Hpne Hpre Hneq.
      rewrite lookup_insert_ne; [|by intros ?%app_inv_head].
      apply Hdirs; [done|]. by eapply prefix_snoc_proper.
    + intros k Hk.
      rewrite lookup_insert_ne; [|intros <-; by apply (Hk (cs ++ [c]))].
      apply mkdir_p_frame. intros pre _ Hpre. apply Hk.
      by apply prefix_app_r.
Qed.



(** ** [create_file] on a directory *)

Lemma write_file_nf_on_dir path content s :
  faults s = [] →
  PyStr.nonempty path = true → PyStr.endswith_sep path = false →
  fs_lookup (fs s) (parent (resolve (cwd s) path)) = Some Dir →
  fs_lookup (fs s) (resolve (cwd s) path) = Some Dir →
  write_file path content s = (Raise (OSError EISDIR), s).
Proof.
  intros Hf Hne Hend Hp Hk. unfold write_file, open_w, bind.
  rewrite pop_fault_nf by done. rewrite Hne, Hend. simpl.
  apply check_parent_None in Hp. by rewrite Hp, Hk.
Qed.

(** [create_file] never replaces a directory.  On a clean [path] with a
    directory part that names an existing directory, in a well-formed
    namespace: [os.makedirs] finds the parent there, [open] is what fails;
    the call raises an [OSError] and the directory stays; without injected
    faults the error is [IsADirectoryError] ([EISDIR]) and nothing in the
    namespace has changed. *)
Theorem create_file_on_directory path content s r s' :
  clean path = true → has_sep path = true →
  wf (fs s) →
  fs s !! (cwd s ++ PyStr.split_sep path) = Some Dir →
  create_file path content s = (r, s') →
  (∃ e, r = Raise (OSError e))
  ∧ fs s' !! (cwd s ++ PyStr.split_sep path) = Some Dir
  ∧ (faults s = [] →
     r = Raise (OSError EISDIR) ∧ fs s' = fs s
     ∧ calls s' = calls s ++ [EvCreateFile path content;
                              EvMakedirs (os_path_dirname path)]).
Proof.
  intros Hclean Hsep Hwf Hd H.
  pose proof (evolves_do_call (CreateFile path content) _ _ _ H) as He.
  split; [|split; [by apply (ev_dir _ _ He)|]].
  - unfold create_file, bind at 1 in H. cbv beta iota in H.
    unfold bind at 1 in H.
    destruct (os_makedirs _ _ _) as [[[]|e] s1] eqn:E.
    + pose proof (evolves_os_makedirs _ _ _ _ _ E) as He1.
      change (bind (open_w path) (λ f, file_write f content))
        with (write_file path content) in H.
      eapply write_file_on_dir; [|exact H].
      rewrite (ev_cwd _ _ He1). simpl.
      apply (evolves_fs_lookup_Dir _ _ _ He1).
      rewrite resolve_clean by done.
      rewrite fs_lookup_app by apply split_sep_nonnil. exact Hd.
    + injection H as <- <-. apply os_only_os_makedirs in E.
      destruct e; [eauto | done].
  - intros Hf.
    pose proof (clean_comps_ok _ Hclean) as Hok.
    destruct (has_sep_split _ Hsep) as (cs & c & Hne & Hsplit).
    rewrite Hsplit in *.
    pose proof Hok as Hok'. apply comps_ok_app in Hok' as [Hok0 _].
    assert (path = join_sep (cs ++ [c])) as Hpath
        by (by rewrite <- Hsplit, join_split_sep).
    assert (resolve (cwd s) path = cwd s ++ cs ++ [c]) as Hres
        by (by rewrite resolve_clean, Hsplit).
    assert (os_path_dirname path = join_sep cs) as Hdn
        by (by rewrite Hpath, os_path_dirname_join).
    assert (fs_lookup (fs s) (cwd s ++ cs ++ [c]) = Some Dir) as Hd'
        by (rewrite fs_lookup_app by (by destruct cs); exact Hd).
    assert (∀ pre, pre ≠ [] → pre `prefix_of` cs →
                   fs s !! (cwd s ++ pre) = Some Dir) as Hdirs.
    { intros pre Hpne [rest Hrest].
      rewrite <- (fs_lookup_app _ (cwd s) pre) by done.
      apply (wf_ancestor _ _ (rest ++ [c]) Dir Hwf); [by destruct rest|].
      by rewrite <- app_assoc, (app_assoc pre), <- Hrest. }
    assert (fs_lookup (fs s) (cwd s) = Some Dir) as Hcwd.
    { apply (wf_ancestor _ _ (cs ++ [c]) Dir Hwf); [by destruct cs | done]. }
    assert (mkdir_p (cwd s) cs (fs s) = fs s) as Hsame.
    { apply mkdir_p_present. intros pre Hpne Hpre.
      by rewrite (Hdirs pre Hpne Hpre). }
    revert H. unfold create_file, bind at 1. cbv beta iota. unfold bind at 1.
    unfold os_makedirs, bind at 1. rewrite Hdn.
    rewrite (makedirs_rec_creates cs Hne Hok0);
      [| lia | exact Hwf | exact Hf | exact Hcwd |].
    2:{ intros pre c0 Hpne Hpre. cbn [fs cwd add_call].
        by rewrite (Hdirs pre Hpne Hpre). }
    change (bind (open_w path) (λ f, file_write f content))
      with (write_file path content).
    cbn [fs cwd add_call]. rewrite Hsame.
    rewrite write_file_nf_on_dir; cbn [fs cwd set_fs add_call]; try done.
    + intros [= <- <-]. cbn [fs calls set_fs add_call].
      repeat split. by rewrite <- app_assoc.
    + rewrite Hpath. apply nonempty_join_sep; [by destruct cs | done].
    + rewrite Hpath. apply endswith_join_sep; [by destruct cs | done].
    + rewrite Hres. unfold parent. rewrite app_assoc, removelast_last.
      rewrite fs_lookup_app by done. by apply Hdirs.
    + by rewrite Hres.
Qed.

(** A namespace in which the root and its [public] directory exist. *)
Definition public_dir_state : state :=
  State {[ [base_dir] := Dir; [base_dir; "public"] := Dir ]} [] [] [] [].

Lemma create_file_on_directory_witness :
  fst (create_file "wattschain-mlm-platform/public" "text" public_dir_state)
  = Raise (OSError EISDIR)
  ∧ fs (snd (create_file "wattschain-mlm-platform/public" "text"
               public_dir_state))
    = fs public_dir_state.
Proof.
  assert (clean "wattschain-mlm-platform/public" = true) as Hclean
      by (vm_compute; reflexivity).
  assert (has_sep "wattschain-mlm-platform/public" = true) as Hsep
      by (vm_compute; reflexivity).
  assert (wf (fs public_dir_state)) as Hwf
      by (apply (bool_decide_eq_true_1 _); vm_compute; reflexivity).
  assert (fs public_dir_state
            !! (cwd public_dir_state
                ++ PyStr.split_sep "wattschain-mlm-platform/public")
          = Some Dir) as Hdir by (vm_compute; reflexivity).
  destruct (create_file_on_directory _ "text" _ _ _ Hclean Hsep Hwf Hdir
              (surjective_pairing _)) as (_ & _ & Hnf).
  destruct (Hnf eq_refl) as (Hr & Hfs & _). by split.
Defined.

(** * When the run succeeds *)

Lemma plan_dir_clean c : c ∈ plan → clean (call_dir c) = true.
Proof.
  intros Hc. apply plan_good_call in Hc.
  destruct c as [n | path content]; cbn [good_call call_dir] in *.
  - by apply good_dir_clean.
  - do 4 (apply andb_prop in Hc as [Hc _]). by apply good_dir_clean.
Qed.

Lemma plan_file_facts path content :
  CreateFile path content ∈ plan →
  clean path = true ∧ has_sep path = true
  ∧ PyStr.split_sep (os_path_dirname path) = parent (PyStr.split_sep path).
Proof.
  intros Hc. apply plan_good_call in Hc. cbn [good_call] in Hc.
  apply andb_prop in Hc as [Hc Heq]. apply bool_decide_eq_true_1 in Heq.
  do 2 (apply andb_prop in Hc as [Hc _]). apply andb_prop in Hc as [_ Hcl].
  repeat split; try done.
  destruct (has_sep path) eqn:E; [done|].
  rewrite (split_sep_sepfree_one _ E) in Heq. simpl in Heq.
  by apply split_sep_nonnil in Heq.
Qed.

(** The ancestors of a file of the plan are the prefixes of its
    directory. *)
Lemma proper_prefix_parent (pre l : list string) :
  pre `prefix_of` l → pre ≠ l → pre `prefix_of` parent l.
Proof.
  destruct l as [|x l _] using rev_ind.
  - intros H%prefix_nil_inv. done.
  - intros Hpre Hne. unfold parent. rewrite removelast_last.
    by eapply prefix_snoc_proper.
Qed.

(** No file of the plan lies where a directory of the plan, or an ancestor
    of one, lies: in the run from the empty namespace the one is a regular
    file, the other a directory. *)
Lemma positions_apart_in s' c path content pre :
  create_directory_structure init_state = (Ok tt, s') →
  c ∈ plan → CreateFile path content ∈ plan →
  pre `prefix_of` PyStr.split_sep (call_dir c) →
  PyStr.split_sep path ≠ pre.
Proof.
  intros Hrun Hc Hf Hpre Heq.
  assert (wf (fs s')) as Hwf.
  { apply (run_wf _ _ _ Hrun). apply map_Forall_empty. }
  apply run_done in Hrun as [Hwd Hdone].
  change (cwd init_state) with (@nil string) in Hwd.
  rewrite Hwd in Hdone.
  destruct (Hdone _ Hf) as [Hfile _].
  destruct (plan_file_facts _ _ Hf) as (Hclf & _ & _).
  rewrite resolve_clean in Hfile by done.
  change ([] ++ PyStr.split_sep path) with (PyStr.split_sep path) in Hfile.
  assert (fs_lookup (fs s') (resolve [] (call_dir c)) = Some Dir) as Hdir.
  { specialize (Hdone _ Hc). destruct c; simpl in *; tauto. }
  rewrite resolve_clean in Hdir by (by apply plan_dir_clean).
  change ([] ++ PyStr.split_sep (call_dir c))
    with (PyStr.split_sep (call_dir c)) in Hdir.
  destruct Hpre as [rest Hrest]. rewrite Hrest, <- Heq in Hdir.
  assert (fs_lookup (fs s') (PyStr.split_sep path) = Some Dir) as Hd.
  { destruct rest as [|r rest]; [by rewrite app_nil_r in Hdir|].
    by apply (wf_ancestor _ _ (r :: rest) Dir Hwf). }
  pose proof (split_sep_nonnil path) as Hne.
  destruct (PyStr.split_sep path); [done|]. simpl in Hd. congruence.
Qed.

Lemma plan_positions_apart c path content pre :
  c ∈ plan → CreateFile path content ∈ plan →
  pre `prefix_of` PyStr.split_sep (call_dir c) →
  PyStr.split_sep path ≠ pre.
Proof.
  apply (positions_apart_in final_state).
  refine (run_result _ _ _). vm_compute. reflexivity.
Qed.

(** Nothing is in the way of the plan: no regular file where a directory of
    the plan or one of its ancestors is to be, no directory where a file
    of the plan is to be. *)
Definition fit (wd : list string) (m : gmap (list string) node) : Prop :=
  (∀ c pre c0, c ∈ plan → pre ≠ [] →
               pre `prefix_of` PyStr.split_sep (call_dir c) →
               m !! (wd ++ pre) ≠ Some (File c0))
  ∧ (∀ path content, CreateFile path content ∈ plan →
                     m !! (wd ++ PyStr.split_sep path) ≠ Some Dir).

Lemma do_call_fit wd c s :
  c ∈ plan → wf (fs s) → faults s = [] → cwd s = wd →
  fs_lookup (fs s) wd = Some Dir → fit wd (fs s) →
  ∃ s', do_call c s = (Ok tt, s') ∧ faults s' = [] ∧ fit wd (fs s').
Proof.
  intros Hc Hwf Hf Hwd Hcwd [Hfd Hff]. subst wd.
  destruct c as [name | path content]; cbn [do_call].
  - destruct (os_makedirs_creates name s) as (s' & H & Hdirs & Hframe & Hkeep);
      try done.
    { by apply (plan_dir_clean (Makedirs name)). }
    { intros pre c0 Hpne Hpre. by apply (Hfd (Makedirs name)). }
    exists s'. split; [done|]. split.
    { pose proof (evolves_os_makedirs _ _ _ _ _ H) as He.
      pose proof (ev_faults _ _ He) as Hs. rewrite Hf in Hs.
      by apply suffix_nil_inv in Hs. }
    split.
    + intros c' pre c0 Hc' Hpne Hpre Hfile.
      destruct (decide (pre `prefix_of` PyStr.split_sep name)) as [Hin|Hout].
      * rewrite Hdirs in Hfile by done. done.
      * rewrite Hframe in Hfile; [by eapply Hfd|].
        intros pre' Hpre' ->%app_inv_head. done.
    + intros path content Hp Hdir.
      rewrite Hframe in Hdir; [by eapply Hff|].
      intros pre' Hpre' Heq%app_inv_head.
      by apply (plan_positions_apart (Makedirs name) path content pre').
  - destruct (plan_file_facts _ _ Hc) as (Hcl & Hsep & Hpar).
    destruct (create_file_creates path content s)
      as (s' & H & Hfile & Hdirs & Hframe); try done.
    { intros pre c0 Hpne Hpre Hneq.
      apply (Hfd (CreateFile path content)); [done | done |].
      cbn [call_dir]. rewrite Hpar. by apply proper_prefix_parent. }
    { by eapply Hff. }
    exists s'. split; [done|]. split.
    { pose proof (evolves_do_call (CreateFile path content) _ _ _ H) as He.
      pose proof (ev_faults _ _ He) as Hs. rewrite Hf in Hs.
      by apply suffix_nil_inv in Hs. }
    split.
    + intros c' pre c0 Hc' Hpne Hpre Hfl.
      destruct (decide (pre `prefix_of` PyStr.split_sep path)) as [Hin|Hout].
      * destruct (decide (pre = PyStr.split_sep path)) as [->|Hneq].
        -- by apply (plan_positions_apart c' path content
                       (PyStr.split_sep path)).
        -- rewrite Hdirs in Hfl by done. done.
      * rewrite Hframe in Hfl; [by eapply Hfd|].
        intros pre' Hpre' ->%app_inv_head. done.
    + intros path' content' Hp' Hdir.
      destruct (decide (PyStr.split_sep path' `prefix_of` PyStr.split_sep path))
        as [Hin|Hout].
      * destruct (decide (PyStr.split_sep path' = PyStr.split_sep path))
          as [Heq|Hneq].
        -- rewrite Heq, Hfile in Hdir. done.
        -- apply (plan_positions_apart (CreateFile path content) path'
                    content' (PyStr.split_sep path')); [done | done | | done].
           cbn [call_dir]. rewrite Hpar. by apply proper_prefix_parent.
      * rewrite Hframe in Hdir; [by eapply Hff|].
        intros pre' Hpre' Heq%app_inv_head. by subst.
Qed.

Lemma calls_fit wd l s :
  (∀ c, c ∈ l → c ∈ plan) →
  wf (fs s) → faults s = [] → cwd s = wd →
  fs_lookup (fs s) wd = Some Dir → fit wd (fs s) →
  ∃ s', for_ l do_call s = (Ok tt, s').
Proof.
  revert s. induction l as [|c l IH]; intros s Hl Hwf Hf Hwd Hcwd Hfit.
  - by exists s.
  - destruct (do_call_fit wd c s) as (s1 & H1 & Hf1 & Hfit1); try done.
    { apply Hl. left. }
    pose proof (evolves_do_call _ _ _ _ H1) as He1.
    destruct (IH s1) as (s' & H2); try done.
    + intros c' Hc'. apply Hl. by right.
    + by apply (ev_wf _ _ He1).
    + by rewrite (ev_cwd _ _ He1).
    + by apply (evolves_fs_lookup_Dir _ _ _ He1).
    + exists s'. simpl. unfold bind. by rewrite H1.
Qed.

(** The directories the run makes: the listed ones, and the parent of every
    listed file ([create_file] makes it). *)
Definition made_dirs : list string :=
  listed_dirs ++ map (λ pc, os_path_dirname pc.1) listed_files.

Lemma plan_dir_made c : c ∈ plan → call_dir c ∈ made_dirs.
Proof.
  assert (Forall (λ c, call_dir c ∈ made_dirs) plan) as H.
  { apply (bool_decide_eq_true_1 _). vm_compute. reflexivity. }
  rewrite Forall_forall in H. apply H.
Qed.

Lemma plan_created_files : created_files plan = listed_files.
Proof. vm_compute. reflexivity. Qed.

Lemma plan_file_listed path content :
  CreateFile path content ∈ plan → (path, content) ∈ listed_files.
Proof.
  intros H. rewrite <- plan_created_files. unfold created_files.
  apply list_elem_of_In, in_flat_map. exists (CreateFile path content).
  split; [by apply list_elem_of_In | by left].
Qed.

Lemma run_clear s :
  wf (fs s) → faults s = [] →
  fs_lookup (fs s) (cwd s) = Some Dir →
  (∀ d pre c0, d ∈ made_dirs → pre ≠ [] →
               pre `prefix_of` PyStr.split_sep d →
               fs s !! (cwd s ++ pre) ≠ Some (File c0)) →
  (∀ p c, (p, c) ∈ listed_files →
          fs s !! (cwd s ++ PyStr.split_sep p) ≠ Some Dir) →
  ∃ s', create_directory_structure s = (Ok tt, s').
Proof.
  intros Hwf Hf Hcwd Hdirs Hfiles.
  rewrite create_directory_structure_plan.
  apply (calls_fit (cwd s)); try done. split.
  - intros c pre c0 Hc Hne Hpre.
    apply (Hdirs (call_dir c)); [by apply plan_dir_made | done | done].
  - intros path content Hc. apply (Hfiles path content).
    by apply plan_file_listed.
Qed.

(** When nothing is in the way, the run returns: in a well-formed
    namespace whose working directory exists, without injected faults, with
    no regular file where a directory the run makes (a listed one or the
    parent of a listed file) or one of its ancestors is to be, and no
    directory where a listed file is to be,
    [create_directory_structure] raises nothing. *)
Theorem run_succeeds_when_clear s :
  wf (fs s) → faults s = [] →
  fs_lookup (fs s) (cwd s) = Some Dir →
  (∀ d pre c0, d ∈ made_dirs → pre ≠ [] →
               pre `prefix_of` PyStr.split_sep d →
               fs s !! (cwd s ++ pre) ≠ Some (File c0)) →
  (∀ p c, (p, c) ∈ listed_files →
          fs s !! (cwd s ++ PyStr.split_sep p) ≠ Some Dir) →
  ∃ s', create_directory_structure s = (Ok tt, s').
Proof. exact (run_clear s). Qed.

Lemma run_succeeds_when_clear_witness :
  ∃ s', create_directory_structure root_only_state = (Ok tt, s').
Proof.
  refine (run_succeeds_when_clear root_only_state _ _ _ _ _).
  - apply (bool_decide_eq_true_1 _). vm_compute. reflexivity.
  - reflexivity.
  - reflexivity.
  - intros d pre c0 _ Hne _. cbn [fs cwd root_only_state].
    rewrite app_nil_l. intros H.
    apply lookup_singleton_Some in H as [_ [=]].
  - intros p c Hpc. cbn [fs cwd root_only_state]. rewrite app_nil_l.
    intros H. apply lookup_singleton_Some in H as [H _].
    assert (Forall (λ pc, PyStr.split_sep pc.1 ≠ [base_dir]) listed_files)
      as HF by (apply (bool_decide_eq_true_1 _); vm_compute; reflexivity).
    rewrite Forall_forall in HF. by apply (HF (p, c)).
Defined.

Lemma nothing_under_root s k rest :
  wf (fs s) → fs s !! (cwd s ++ [base_dir]) = None →
  k = cwd s ++ base_dir :: rest → fs s !! k = None.
Proof.
  intros Hwf Hnone ->.
  destruct rest as [|r rest]; [done|].
  destruct (fs s !! (cwd s ++ base_dir :: r :: rest)) as [n|] eqn:E; [|done].
  assert (fs_lookup (fs s) ((cwd s ++ [base_dir]) ++ r :: rest) = Some n)
    as Hl.
  { rewrite <- app_assoc. simpl. rewrite fs_lookup_app by done. exact E. }
  apply wf_ancestor in Hl; [|done..].
  rewrite fs_lookup_app in Hl by done. congruence.
Qed.

Lemma rooted_split p :
  rooted p = true → ∃ rest, PyStr.split_sep p = base_dir :: rest.
Proof.
  unfold rooted. intros H. apply andb_prop in H as [_ H].
  destruct (PyStr.split_sep p) as [|c rest]; [done|].
  apply String.eqb_eq in H as ->. by exists rest.
Qed.

Lemma made_dirs_rooted d : d ∈ made_dirs → rooted d = true.
Proof.
  assert (forallb rooted made_dirs = true) as H
      by (vm_compute; reflexivity).
  rewrite forallb_forall in H. intros Hd. by apply H, list_elem_of_In.
Qed.

Lemma listed_files_rooted p c : (p, c) ∈ listed_files → rooted p = true.
Proof.
  assert (forallb (λ pc, rooted pc.1) listed_files = true) as H
      by (vm_compute; reflexivity).
  rewrite forallb_forall in H. intros Hd.
  by apply (H (p, c)), list_elem_of_In.
Qed.

Lemma run_fresh s :
  wf (fs s) → faults s = [] →
  fs_lookup (fs s) (cwd s) = Some Dir →
  fs s !! (cwd s ++ [base_dir]) = None →
  ∃ s', create_directory_structure s = (Ok tt, s')
        ∧ ∀ k n, fs s !! k = Some n → fs s' !! k = Some n.
Proof.
  intros Hwf Hf Hcwd Hnone.
  destruct (run_clear s) as [s' Hrun]; try done.
  - intros d pre c0 Hd Hne [rest Hpre] Hfile.
    destruct (rooted_split d (made_dirs_rooted d Hd)) as [tl Hsplit].
    rewrite Hsplit in Hpre. destruct pre as [|x pre]; [done|].
    injection Hpre as <- _.
    by rewrite (nothing_under_root s _ pre Hwf Hnone eq_refl) in Hfile.
  - intros p c Hpc Hdir.
    destruct (rooted_split p (listed_files_rooted p c Hpc)) as [tl Hsplit].
    rewrite Hsplit in Hdir.
    by rewrite (nothing_under_root s _ tl Hwf Hnone eq_refl) in Hdir.
  - exists s'. split; [done|]. intros k n Hk.
    rewrite create_directory_structure_plan in Hrun.
    destruct (keeps_calls (cwd s) plan _ _ _ Hrun eq_refl) as [_ Hkeep].
    apply Hkeep; [|done]. unfold file_keys. intros Hin.
    apply list_elem_of_fmap in Hin as (p & -> & Hp).
    apply list_elem_of_In, in_flat_map in Hp as (c & Hc & Hp).
    apply list_elem_of_In in Hc. destruct c as [|path content]; [done|].
    destruct Hp as [<- | []].
    destruct (plan_file_facts _ _ Hc) as (Hcl & _ & _).
    rewrite resolve_clean in Hk by done.
    destruct (rooted_split path
                (listed_files_rooted _ _ (plan_file_listed _ _ Hc)))
      as [tl Hsplit].
    rewrite Hsplit in Hk.
    by rewrite (nothing_under_root s _ tl Hwf Hnone eq_refl) in Hk.
Qed.

(** On a fresh location the run returns and touches nothing that was
    there: in a well-formed namespace whose working directory exists and
    holds no entry named [base_dir], without injected faults,
    [create_directory_structure] raises nothing, and every entry that
    existed before is still there, unchanged. *)
Theorem run_succeeds_on_fresh_location s :
  wf (fs s) → faults s = [] →
  fs_lookup (fs s) (cwd s) = Some Dir →
  fs s !! (cwd s ++ [base_dir]) = None →
  ∃ s', create_directory_structure s = (Ok tt, s')
        ∧ ∀ k n, fs s !! k = Some n → fs s' !! k = Some n.
Proof. exact (run_fresh s). Qed.

(** A namespace with a project of the user's own beside the place of the
    tree. *)
Definition neighbour_state : state :=
  State {[ ["other"] := Dir; ["other"; "main.py"] := File "print(1)" ]}
        [] [] [] [].

Lemma run_succeeds_on_fresh_location_witness :
  ∃ s', create_directory_structure neighbour_state = (Ok tt, s')
        ∧ ∀ k n, fs neighbour_state !! k = Some n → fs s' !! k = Some n.
Proof.
  refine (run_succeeds_on_fresh_location neighbour_state _ _ _ _).
  - apply (bool_decide_eq_true_1 _). vm_compute. reflexivity.
  - reflexivity.
  - reflexivity.
  - vm_compute. reflexivity.
Defined.

Lemma made_dirs_done s s' d :
  create_directory_structure s = (Ok tt, s') → d ∈ made_dirs →
  fs_lookup (fs s') (resolve (cwd s) d) = Some Dir.
Proof.
  intros Hrun Hd. apply run_done in Hrun as [Hwd Hdone]. rewrite Hwd in Hdone.
  unfold made_dirs in Hd. apply elem_of_app in Hd as [Hd | Hd].
  - eapply dir_names_done; [|exact Hdone]. by apply listed_dirs_plan.
  - apply list_elem_of_fmap in Hd as ([p c] & -> & Hpc).
    apply listed_files_plan, Hdone in Hpc. by destruct Hpc.
Qed.

(** A run that returns found nothing in its way: started in a well-formed
    namespace, it can only have returned if no regular file lay where a
    directory the run makes or one of its ancestors was to be, and no
    directory where a listed file was to be. *)
Theorem run_success_needs_clear s s' :
  wf (fs s) →
  create_directory_structure s = (Ok tt, s') →
  (∀ d pre c0, d ∈ made_dirs → pre ≠ [] →
               pre `prefix_of` PyStr.split_sep d →
               fs s !! (cwd s ++ pre) ≠ Some (File c0))
  ∧ (∀ p c, (p, c) ∈ listed_files →
            fs s !! (cwd s ++ PyStr.split_sep p) ≠ Some Dir).
Proof.
  intros Hwf Hrun.
  pose proof (run_wf _ _ _ Hrun Hwf) as Hwf'.
  pose proof Hrun as He. rewrite create_directory_structure_plan in He.
  apply evolves_calls in He. split.
  - intros d pre c0 Hd Hne [rest Hpre] Hfile.
    pose proof (made_dirs_done _ _ _ Hrun Hd) as Hdir.
    rewrite resolve_clean in Hdir
      by (unfold rooted in *; by apply made_dirs_rooted, andb_prop in Hd as [? _]).
    rewrite Hpre, app_assoc in Hdir.
    assert (fs_lookup (fs s') (cwd s ++ pre) = Some Dir) as Hd'.
    { destruct rest as [|r rest]; [by rewrite app_nil_r in Hdir|].
      by apply (wf_ancestor _ _ (r :: rest) Dir Hwf'). }
    rewrite fs_lookup_app in Hd' by done.
    destruct (ev_file _ _ He _ _ Hfile) as [c' Hc']. congruence.
  - intros p c Hpc Hdir.
    pose proof (listed_files_plan _ _ Hpc) as Hc.
    destruct (plan_file_facts _ _ Hc) as (Hcl & _ & _).
    apply run_done in Hrun as [Hwd Hdone]. rewrite Hwd in Hdone.
    destruct (Hdone _ Hc) as [Hfile _].
    rewrite resolve_clean in Hfile by done.
    apply (ev_dir _ _ He) in Hdir. congruence.
Qed.

Lemma run_success_needs_clear_witness :
  (∀ d pre c0, d ∈ made_dirs → pre ≠ [] →
               pre `prefix_of` PyStr.split_sep d →
               fs root_only_state !! (cwd root_only_state ++ pre)
               ≠ Some (File c0))
  ∧ (∀ p c, (p, c) ∈ listed_files →
            fs root_only_state !! (cwd root_only_state ++ PyStr.split_sep p)
            ≠ Some Dir).
Proof.
  refine (run_success_needs_clear root_only_state
            (snd (create_directory_structure root_only_state)) _ _).
  - apply (bool_decide_eq_true_1 _). vm_compute. reflexivity.
  - refine (run_result _ _ _). vm_compute. reflexivity.
Defined.

(** A run keeps the namespace well-formed, removes nothing and changes the
    kind of nothing, prints nothing and stays in its working directory,
    whether it returns or raises. *)
Theorem run_keeps_namespace s r s' :
  create_directory_structure s = (r, s') →
  (wf (fs s) → wf (fs s'))
  ∧ (∀ k, fs s !! k = Some Dir → fs s' !! k = Some Dir)
  ∧ (∀ k c, fs s !! k = Some (File c) → ∃ c', fs s' !! k = Some (File c'))
  ∧ cwd s' = cwd s ∧ out s' = out s.
Proof.
  rewrite create_directory_structure_plan. intros H.
  apply evolves_calls in H. repeat split.
  - apply (ev_wf _ _ H).
  - apply (ev_dir _ _ H).
  - apply (ev_file _ _ H).
  - apply (ev_cwd _ _ H).
  - apply (ev_out _ _ H).
Qed.

Lemma run_keeps_namespace_witness :
  (wf (fs blocked_state) →
   wf (fs (snd (create_directory_structure blocked_state))))
  ∧ (∀ k, fs blocked_state !! k = Some Dir →
          fs (snd (create_directory_structure blocked_state)) !! k = Some Dir)
  ∧ (∀ k c, fs blocked_state !! k = Some (File c) →
            ∃ c', fs (snd (create_directory_structure blocked_state)) !! k
                  = Some (File c'))
  ∧ cwd (snd (create_directory_structure blocked_state)) = cwd blocked_state
  ∧ out (snd (create_directory_structure blocked_state)) = out blocked_state.
Proof.
  exact (run_keeps_namespace blocked_state _ _ (surjective_pairing _)).
Defined.

(** * The script as a whole *)

(** Run as a script on a fresh location, the program builds the whole tree
    and reports it: in a well-formed namespace whose working directory
    exists and holds no entry named [base_dir], without injected faults,
    [main] returns; afterwards every listed directory is a directory, every
    listed file is a regular file holding its table content, every entry
    that existed before is unchanged, and the success message is the one
    line printed. *)
Theorem script_on_fresh_location s :
  wf (fs s) → faults s = [] →
  fs_lookup (fs s) (cwd s) = Some Dir →
  fs s !! (cwd s ++ [base_dir]) = None →
  ∃ s', main s = (Ok tt, s')
        ∧ (∀ d, d ∈ listed_dirs →
                fs_lookup (fs s') (resolve (cwd s) d) = Some Dir)
        ∧ (∀ p c, (p, c) ∈ listed_files →
                  fs s' !! resolve (cwd s) p = Some (File c))
        ∧ (∀ k n, fs s !! k = Some n → fs s' !! k = Some n)
        ∧ out s' = out s ++ [success_message].
Proof.
  intros Hwf Hf Hcwd Hnone.
  destruct (run_fresh s Hwf Hf Hcwd Hnone) as (s1 & Hrun & Hkeep).
  exists (add_out success_message s1).
  split; [by unfold main, bind, print; rewrite Hrun|].
  cbn [fs out add_out]. repeat split.
  - intros d Hd. apply (made_dirs_done _ _ _ Hrun).
    unfold made_dirs. apply elem_of_app. by left.
  - intros p c Hpc. apply listed_files_plan in Hpc.
    apply run_done in Hrun as [Hwd Hdone]. rewrite Hwd in Hdone.
    by destruct (Hdone _ Hpc).
  - exact Hkeep.
  - by rewrite (run_out _ _ _ Hrun).
Qed.

Lemma script_on_fresh_location_witness :
  ∃ s', main neighbour_state = (Ok tt, s')
        ∧ (∀ d, d ∈ listed_dirs →
                fs_lookup (fs s') (resolve (cwd neighbour_state) d) = Some Dir)
        ∧ (∀ p c, (p, c) ∈ listed_files →
                  fs s' !! resolve (cwd neighbour_state) p = Some (File c))
        ∧ (∀ k n, fs neighbour_state !! k = Some n → fs s' !! k = Some n)
        ∧ out s' = out neighbour_state ++ [success_message].
Proof.
  refine (script_on_fresh_location neighbour_state _ _ _ _).
  - apply (bool_decide_eq_true_1 _). vm_compute. reflexivity.
  - reflexivity.
  - reflexivity.
  - vm_compute. reflexivity.
Defined.
